(** * Trip planner: itinerary assembly, must-do store, cost extraction

    A shallow embedding of the planning logic of the trip-planner front end:

    - [src/utils/tripState.js]: the session trip store and the two
      functions that insert must-do activities into it;
    - [src/pages/ItineraryPage.jsx]: [buildDateRange], the current and the
      legacy copy of [createDayByDayItinerary], and [extractPrice];
    - the budget-constrained selector behind [/api/generateOptimalItinerary],
      whose implementation is a backend service outside the front-end
      sources.

    Conventions.  A JavaScript [Date] is its time value in milliseconds
    since the epoch ([Z]) or the invalid date; what depends on the host's
    time zone ([setDate(getDate() + 1)]) is a parameter.  A string is the
    list of its code units, for texts whose code units are below 256
    (Latin-1); [toLowerCase] and [trim] are those of JavaScript on that
    range.  A thrown exception is the [Throw] constructor of [Result]. *)

From Stdlib Require Import ZArith List String Ascii Bool Lia Arith QArith Sorted Permutation.
Import ListNotations.

Local Open Scope string_scope.
Local Open Scope list_scope.

(* ===================================================================== *)
(** * JavaScript strings *)
(* ===================================================================== *)

Module JsString.

(** The upper-case letters below U+0100: A-Z, and U+00C0-U+00DE but for
    the multiplication sign U+00D7.  Each has its lower-case form 32 code
    points above; no other character below U+0100 changes under
    [toLowerCase]. *)
Definition isUpperCase (n : nat) : bool :=
  orb (andb (65 <=? n)%nat (n <=? 90)%nat)
      (andb (andb (192 <=? n)%nat (n <=? 222)%nat) (negb (n =? 215)%nat)).

(** [String.prototype.toLowerCase], character by character. *)
Definition lowerChar (c : ascii) : ascii :=
  let n := nat_of_ascii c in
  if isUpperCase n then ascii_of_nat (n + 32) else c.

Fixpoint toLowerCase (s : string) : string :=
  match s with
  | EmptyString => EmptyString
  | String c r => String (lowerChar c) (toLowerCase r)
  end.

(** White space and line terminators removed by [String.prototype.trim],
    below U+0100: tab, line feed, vertical tab, form feed, carriage
    return, space and the no-break space U+00A0. *)
Definition isWhiteSpace (c : ascii) : bool :=
  let n := nat_of_ascii c in
  orb (orb (andb (9 <=? n)%nat (n <=? 13)%nat) (n =? 32)%nat) (n =? 160)%nat.

Fixpoint trimStart (s : string) : string :=
  match s with
  | EmptyString => EmptyString
  | String c r => if isWhiteSpace c then trimStart r else s
  end.

Fixpoint trimEnd (s : string) : string :=
  match s with
  | EmptyString => EmptyString
  | String c r =>
      match trimEnd r with
      | EmptyString => if isWhiteSpace c then EmptyString else String c EmptyString
      | r' => String c r'
      end
  end.

Definition trim (s : string) : string := trimEnd (trimStart s).

(** [a.includes(b)]: [b] occurs in [a] as a contiguous substring. *)
Fixpoint includes (s sub : string) : bool :=
  orb (String.prefix sub s)
      match s with
      | EmptyString => false
      | String _ r => includes r sub
      end.

(** Truthiness of a string: the empty string is falsy. *)
Definition truthy (s : string) : bool :=
  match s with EmptyString => false | _ => true end.

(** An optional property ([undefined] when absent). *)
Definition truthyOpt (o : option string) : bool :=
  match o with Some s => truthy s | None => false end.

(** [a || b] where [b] is again optional. *)
Definition orOpt (a b : option string) : option string :=
  if truthyOpt a then a else b.

(** [a || 'literal']. *)
Definition orElse (a : option string) (d : string) : string :=
  match a with
  | Some s => if truthy s then s else d
  | None => d
  end.

End JsString.

(* ===================================================================== *)
(** * Exceptions *)
(* ===================================================================== *)

Inductive Result (A : Type) : Type :=
| Return (a : A)
| Throw (msg : string).
Arguments Return {A} a.
Arguments Throw {A} msg.

(* ===================================================================== *)
(** * The session trip store: must-do activities (tripState.js) *)
(* ===================================================================== *)

Module TripStore.
Import JsString.

(** A stored must-do entry.  [name] is the identity field; the other
    fields are carried along unchanged by the store. *)
Record MustDoActivity : Type := mkMustDo {
  name : string;
  description : option string;
  category : option string;
  type_ : option string;
  duration : option string;
  recordedAt : option string
}.

(** An incoming activity: the caller may omit [name]. *)
Record IncomingActivity : Type := mkIncoming {
  in_name : option string;
  in_description : option string;
  in_category : option string;
  in_type : option string;
  in_duration : option string
}.

(** [{ ...activity, name: n, recordedAt: now }] *)
Definition stamp (a : IncomingActivity) (n : string) (now : string) : MustDoActivity :=
  {| name := n;
     description := in_description a;
     category := in_category a;
     type_ := in_type a;
     duration := in_duration a;
     recordedAt := Some now |}.

(** [existing.some(entry => entry.name.toLowerCase() === n.toLowerCase())] *)
Definition alreadyExists (existing : list MustDoActivity) (n : string) : bool :=
  existsb (fun entry => String.eqb (toLowerCase (name entry)) (toLowerCase n)) existing.

(** One iteration of the [forEach] of [recordMustDoActivities]
    (tripState.js 240-250). *)
Definition recordOne (now : string) (existing : list MustDoActivity)
           (activity : IncomingActivity) : list MustDoActivity :=
  match in_name activity with
  | None => existing
  | Some n =>
      if negb (truthy n) then existing
      else
        let normalisedName := trim n in
        if negb (truthy normalisedName) then existing
        else if alreadyExists existing normalisedName then existing
        else existing ++ [stamp activity normalisedName now]
  end.

(** [recordMustDoActivities(activities)]: the must-do list saved back to
    the store, given the list loaded from it.  An empty argument returns
    the loaded state unchanged. *)
Definition recordMustDoActivities (now : string) (stored : list MustDoActivity)
           (activities : list IncomingActivity) : list MustDoActivity :=
  match activities with
  | [] => stored
  | _ => fold_left (recordOne now) activities stored
  end.

(** One iteration of the must-do branch of [recordTripSelection]
    (tripState.js 156-164): no trimming here. *)
Definition selectOne (now : string) (combined : list MustDoActivity)
           (activity : IncomingActivity) : list MustDoActivity :=
  match in_name activity with
  | None => combined
  | Some n =>
      if negb (truthy n) then combined
      else if alreadyExists combined n then combined
      else combined ++ [stamp activity n now]
  end.

(** The [options.mustDoActivities] branch of [recordTripSelection]. *)
Definition recordTripSelection_mustDo (now : string) (stored : list MustDoActivity)
           (activities : list IncomingActivity) : list MustDoActivity :=
  fold_left (selectOne now) activities stored.

(** The relation the dedup is keyed on: equal names up to letter case. *)
Definition sameName (a b : MustDoActivity) : Prop :=
  toLowerCase (name a) = toLowerCase (name b).



End TripStore.

(* ===================================================================== *)
(** * Dates (ItineraryPage.jsx, parseDate and buildDateRange) *)
(* ===================================================================== *)

Module JsDate.
Import JsString.

(** A [Date] object: a time value in milliseconds since the epoch, or the
    invalid date, whose [getTime()] is [NaN]. *)
Inductive Date : Type :=
| ValidDate (t : Z)
| InvalidDate.

(** [1000 * 60 * 60 * 24] *)
Definition msPerDay : Z := 1000 * 60 * 60 * 24.

(** The UTC calendar day of a time value: the date part of
    [toISOString()]. *)
Definition utcDay (t : Z) : Z := t / msPerDay.

(** What callers pass where a date is expected: nothing ([null] or
    [undefined]), a [Date] object, or a string. *)
Inductive DateArg : Type :=
| DNull
| DObj (d : Date)
| DStr (s : string).

(** Truthiness: every object is truthy, the empty string is not. *)
Definition truthyArg (a : DateArg) : bool :=
  match a with
  | DNull => false
  | DObj _ => true
  | DStr s => truthy s
  end.

(** [a || b] *)
Definition orArg (a b : DateArg) : DateArg :=
  if truthyArg a then a else b.

(** [x && !isNaN(x.getTime())] for a possibly-null date: its time value. *)
Definition validTime (o : option Date) : option Z :=
  match o with
  | Some (ValidDate t) => Some t
  | _ => None
  end.

(** [1000 * 60 * 60] *)
Definition msPerHour : Z := 1000 * 60 * 60.

(** The [k] time values starting at [start], 24 hours apart. *)
Definition daysFrom (start : Z) (k : nat) : list Z :=
  map (fun i => (start + Z.of_nat i * msPerDay)%Z) (seq 0 k).

(** The number of whole 24-hour days that fit from [start] to [endT],
    counting the start. *)
Definition dayCount (start endT : Z) : nat :=
  Z.to_nat ((endT - start) / msPerDay + 1).

(** Enough iterations for the loop of [buildDateRange] to leave through
    its own test, on a host whose clock advances by an hour or more per
    local day. *)
Definition rangeFuel (start endT : Z) : nat :=
  Z.to_nat ((endT - start) / msPerHour + 1).

(** What is asked of the host's [setDate(getDate() + 1)], as a function
    [nextDay] on time values: it moves the clock forward, by an hour at
    the least.  A local calendar day lasts 24 hours, or an hour less or
    more where the time zone changes its UTC offset. *)
Definition advances (nextDay : Z -> Z) : Prop :=
  forall t, (t + msPerHour <= nextDay t)%Z.

(** A host whose time zone keeps one UTC offset: the same wall-clock time
    on the next local day is 24 hours later. *)
Definition fixedOffset (nextDay : Z -> Z) : Prop :=
  forall t, nextDay t = (t + msPerDay)%Z.

Section Host.
(** The string branch of [parseDate] (ISO prefix, month-name patterns,
    year inference against the current date, generic fallback) rests on
    the host's [Date] constructor and clock.  Every path of it returns
    either [null] or a date that passed [!isNaN(date.getTime())]; it is
    taken as a parameter returning the time value of that date. *)
Variable parseDateString : string -> option Z.

(** [d.setDate(d.getDate() + 1)] on the time value of [d]: the same
    wall-clock time on the next day of the host's local calendar.  The
    result depends on the host's time zone and is taken as a parameter. *)
Variable nextDay : Z -> Z.

(** The loop of [buildDateRange]:
    [while (currentDate <= endDateObj) { push; setDate(getDate() + 1) }].
    [fuel] bounds the number of iterations. *)
Fixpoint dateLoop (fuel : nat) (currentDate endDateObj : Z) : list Z :=
  match fuel with
  | O => []
  | S fuel' =>
      if (currentDate <=? endDateObj)%Z
      then currentDate :: dateLoop fuel' (nextDay currentDate) endDateObj
      else []
  end.

(** [parseDate(dateStr)] *)
Definition parseDate (dateStr : DateArg) : option Date :=
  match dateStr with
  | DNull => None
  | DObj d => Some d
  | DStr s => if truthy s then option_map ValidDate (parseDateString s) else None
  end.

(** [x instanceof Date ? x : parseDate(x)] *)
Definition toDate (a : DateArg) : option Date :=
  match a with
  | DObj d => Some d
  | _ => parseDate a
  end.

(** [buildDateRange(startDate, endDate)] *)
Definition buildDateRange (startDate endDate : DateArg) : list Z :=
  let start := toDate startDate in
  let endD := toDate endDate in
  match validTime start with
  | None => []
  | Some s =>
      let endDateObj := match validTime endD with Some e => e | None => s end in
      dateLoop (rangeFuel s endDateObj) s endDateObj
  end.
End Host.

End JsDate.

(* ===================================================================== *)
(** * Arrays *)
(* ===================================================================== *)

Module JsArray.

(** [Array.prototype.slice(start, end)], negative indices counting from
    the end and both clamped to the array. *)
Definition clampIndex (len i : Z) : Z :=
  if (i <? 0)%Z then Z.max (len + i) 0 else Z.min i len.

Definition slice {A : Type} (l : list A) (start endI : Z) : list A :=
  let len := Z.of_nat (List.length l) in
  let k := clampIndex len start in
  let final := clampIndex len endI in
  firstn (Z.to_nat (Z.max (final - k) 0)) (skipn (Z.to_nat k) l).

(** [slice(start)] *)
Definition sliceFrom {A : Type} (l : list A) (start : Z) : list A :=
  slice l start (Z.of_nat (List.length l)).

(** [forEach((x, idx) => ...)] threading the state the callback mutates. *)
Fixpoint forEachFrom {A St : Type} (f : St -> A -> nat -> St) (l : list A) (idx : nat) (st : St) : St :=
  match l with
  | [] => st
  | x :: r => forEachFrom f r (S idx) (f st x idx)
  end.

Definition forEach {A St : Type} (f : St -> A -> nat -> St) (l : list A) (st : St) : St :=
  forEachFrom f l 0%nat st.

(** [map((x, idx) => ...)] *)
Fixpoint mapFrom {A B : Type} (f : A -> nat -> B) (l : list A) (idx : nat) : list B :=
  match l with
  | [] => []
  | x :: r => f x idx :: mapFrom f r (S idx)
  end.

Definition mapi {A B : Type} (f : A -> nat -> B) (l : list A) : list B :=
  mapFrom f l 0%nat.

(** [Math.ceil(a / b)] for a length [a] and a positive count [b]. *)
Definition ceilDiv (a b : nat) : nat := ((a + b - 1) / b)%nat.

End JsArray.

(* ===================================================================== *)
(** * The itinerary data model (ItineraryPage.jsx) *)
(* ===================================================================== *)

Module Itinerary.
Import JsString JsDate JsArray.

(** The flight fields the assembler reads to decide and to label. *)
Record Flight : Type := mkFlight {
  flight_id : option string;
  airline : option string;
  flightNumber : option string;
  departure : option string;
  departureTime : option string
}.

Record Hotel : Type := mkHotel {
  isDummy : bool;
  hotel_name : option string
}.

(** A provider activity. *)
Record Activity : Type := mkActivity {
  act_name : option string;
  act_category : option string;
  act_type : option string;
  act_minimumDuration : option string;
  act_duration : option string
}.

(** [tripState.preferences]: the category filter. *)
Record Preferences : Type := mkPreferences {
  guidedTour : bool;
  categories : list string
}.

(** The part of the trip store the assembler loads.  [ts_preferences] is
    [None] when the stored object is missing or has no keys. *)
Record TripState : Type := mkTripState {
  ts_startDate : DateArg;
  ts_endDate : DateArg;
  ts_mustDoActivities : list TripStore.MustDoActivity;
  ts_preferences : option Preferences
}.

Inductive ItemType : Type := flight | hotel | activity.

Definition ItemType_eqb (a b : ItemType) : bool :=
  match a, b with
  | flight, flight | hotel, hotel | activity, activity => true
  | _, _ => false
  end.

(** An itinerary item.  The [details] object of the source only copies
    display fields of the flight, hotel or activity and is not read back
    by the assembler; it is left out. *)
Record Item : Type := mkItem {
  type : ItemType;
  title : string;
  time : string;
  isMustDo : bool;
  isOpenExploration : bool
}.

(** An itinerary day.  [day] is [null] until the final numbering;
    [date] (the formatted [dateObj]) and [hasOpenExploration] (recomputed
    from [items]) are left out. *)
Record Day : Type := mkDay {
  day : option nat;
  dateObj : Z;
  items : list Item
}.

(** ** Time slots *)

Definition isDigit (c : ascii) : bool :=
  let n := nat_of_ascii c in andb (48 <=? n)%nat (n <=? 57)%nat.

Definition isColon (c : ascii) : bool := (nat_of_ascii c =? 58)%nat.

(** A match of [/(\d{1,2}:\d{2})/] at the start of the string. *)
Definition clockAt (s : string) : option string :=
  match s with
  | String a (String b (String c (String d rest))) =>
      if andb (isDigit a) (andb (isColon b) (andb (isDigit c) (isDigit d)))
      then Some (String a (String b (String c (String d EmptyString))))
      else
        match rest with
        | String e _ =>
            if andb (isDigit a) (andb (isDigit b) (andb (isColon c)
                      (andb (isDigit d) (isDigit e))))
            then Some (String a (String b (String c (String d (String e EmptyString)))))
            else None
        | EmptyString => None
        end
  | _ => None
  end.

(** [s.match(/(\d{1,2}:\d{2})/)]: the leftmost match. *)
Fixpoint matchClock (s : string) : option string :=
  match clockAt s with
  | Some m => Some m
  | None =>
      match s with
      | EmptyString => None
      | String _ r => matchClock r
      end
  end.

(** [existingSlots.includes(slot)] *)
Definition slotTaken (existingSlots : list string) (slot : string) : bool :=
  existsb (String.eqb slot) existingSlots.

Definition alternatives (preferred : string) : list string :=
  if String.eqb preferred "Morning" then ["Afternoon"; "Evening"]
  else if String.eqb preferred "Afternoon" then ["Morning"; "Evening"]
  else if String.eqb preferred "Evening" then ["Afternoon"; "Morning"]
  else if String.eqb preferred "Lunch" then ["Afternoon"; "Morning"]
  else if String.eqb preferred "Dinner" then ["Evening"; "Afternoon"]
  else ["Morning"; "Afternoon"; "Evening"].

Definition getAvailableSlot (existingSlots : list string) (preferred : string) : string :=
  if negb (slotTaken existingSlots preferred) then preferred
  else
    match find (fun slot => negb (slotTaken existingSlots slot)) (alternatives preferred) with
    | Some slot => slot
    | None => preferred
    end.

Definition anyIncluded (s : string) (words : list string) : bool :=
  existsb (includes s) words.

(** [getTimeSlotForCategory(category, duration, index, existingSlots)] *)
Definition getTimeSlotForCategory (category duration : option string) (index : nat)
           (existingSlots : list string) : string :=
  let categoryLower := toLowerCase (orElse category "") in
  let durationStr := toLowerCase (orElse duration "") in
  if anyIncluded categoryLower ["nightlife"; "dinner"; "evening"; "night"]
  then getAvailableSlot existingSlots "Evening"
  else if anyIncluded categoryLower ["lunch"; "restaurant"; "dining"; "food"]
  then getAvailableSlot existingSlots "Lunch"
  else if anyIncluded categoryLower ["breakfast"; "morning"; "museum"; "gallery"]
  then getAvailableSlot existingSlots "Morning"
  else if anyIncluded categoryLower ["afternoon"; "tour"; "walking"]
  then getAvailableSlot existingSlots "Afternoon"
  else if anyIncluded durationStr ["4"; "5"; "6"; "full"]
  then getAvailableSlot existingSlots "Morning"
  else
    getAvailableSlot existingSlots
      (nth (index mod 3) ["Morning"; "Afternoon"; "Evening"] "Morning").

(** ** Items *)

(** [flight && flight.id !== 'dummy-flight' && flight.flightNumber !== 'FL123'
     && flight.airline !== 'Airline'] *)
Definition isNot (o : option string) (lit : string) : bool :=
  match o with
  | Some s => negb (String.eqb s lit)
  | None => true
  end.

Definition realFlight (f : Flight) : bool :=
  andb (isNot (flight_id f) "dummy-flight")
       (andb (isNot (flightNumber f) "FL123") (isNot (airline f) "Airline")).

(** The [departureTime] computed for a flight item. *)
Definition flightTime (f : Flight) : string :=
  if truthyOpt (departure f) then
    let dep := orElse (departure f) "" in
    match matchClock dep with
    | Some m => m
    | None => dep
    end
  else if truthyOpt (departureTime f) then orElse (departureTime f) ""
  else "TBD".

Definition plain (ty : ItemType) (ttl tm : string) : Item :=
  {| type := ty; title := ttl; time := tm; isMustDo := false; isOpenExploration := false |}.

Definition outboundItem (f : Flight) : Item :=
  plain flight (orElse (airline f) "Flight" ++ " " ++ orElse (flightNumber f) "")%string (flightTime f).

Definition flightNeeded : Item := plain activity "Flight Needed" "Morning".

Definition returnFlightNeeded : Item := plain activity "Return Flight Needed" "All Day".

Definition returnItem (f : Flight) : Item :=
  let ttl := trim (orElse (airline f) "Return Flight" ++ " " ++ orElse (flightNumber f) "")%string in
  plain flight (if truthy ttl then ttl else "Return Flight") (flightTime f).

Definition hotelItem (h : Hotel) (tm : string) : Item :=
  plain hotel (orElse (hotel_name h) "Hotel") tm.

Definition openExploration : Item :=
  {| type := activity; title := "Open Exploration"; time := "All Day";
     isMustDo := false; isOpenExploration := true |}.

(** [hotel && !hotel.isDummy] *)
Definition hotelPresent (h : option Hotel) : option Hotel :=
  match h with
  | Some x => if isDummy x then None else Some x
  | None => None
  end.

Definition hotelItems (h : option Hotel) (tm : string) : list Item :=
  match hotelPresent h with
  | Some x => [hotelItem x tm]
  | None => []
  end.

(** The default for reading a day past the end of the list. *)
Definition noDay : Day := {| day := None; dateObj := 0%Z; items := [] |}.

(** No real flight: none given, or a dummy one. *)
Definition flightMissing (f : option Flight) : bool :=
  match f with
  | None => true
  | Some x => negb (realFlight x)
  end.

(** ** Sorting and numbering *)

(** [days.sort((a, b) => a.dateObj.getTime() - b.dateObj.getTime())]:
    a stable sort, ascending by date. *)
Fixpoint insertDay (d : Day) (sorted : list Day) : list Day :=
  match sorted with
  | [] => [d]
  | x :: r => if (dateObj x <=? dateObj d)%Z then x :: insertDay d r else d :: x :: r
  end.

Definition sortDays (days : list Day) : list Day :=
  fold_left (fun acc d => insertDay d acc) days [].

(** [day.day = index + 1] *)
Definition numbered (d : Day) (index : nat) : Day :=
  {| day := Some (index + 1)%nat; dateObj := dateObj d; items := items d |}.

(** [days.forEach((day, index) => { day.day = index + 1; })] *)
Definition numberDays (days : list Day) : list Day := mapi numbered days.

End Itinerary.

(* ===================================================================== *)
(** * The assembler, current copy (ItineraryPage.jsx 1573-2137) *)
(* ===================================================================== *)

Module Assembler.
Import JsString JsDate JsArray Itinerary.
Import TripStore(MustDoActivity).

(** ** Must-do distribution plan (1833-1846) *)

(** The [for] loop over the interior days, threading [mustDoIndex]. *)
Fixpoint distribute (daysLeft mustDoIndex : nat) (mustDoActivities : list MustDoActivity)
  : list (list MustDoActivity) :=
  match daysLeft with
  | O => []
  | S daysLeft' =>
      let count := Nat.min 2 (List.length mustDoActivities - mustDoIndex) in
      if (0 <? count)%nat
      then slice mustDoActivities (Z.of_nat mustDoIndex) (Z.of_nat (mustDoIndex + count))
             :: distribute daysLeft' (mustDoIndex + count) mustDoActivities
      else [] :: distribute daysLeft' mustDoIndex mustDoActivities
  end.

(** [Math.ceil(mustDoActivities.length / actualMiddleDays)], computed by
    the source into [mustDoPerDay] and not read afterwards. *)
Definition mustDoPerDay (mustDoCount actualMiddleDays : nat) : nat :=
  if (0 <? actualMiddleDays)%nat then ceilDiv mustDoCount actualMiddleDays else 0%nat.

(** ** Regular activities (1824-1830, 1851-1872) *)

Definition overlapsMustDo (act : Activity) (mustDo : MustDoActivity) : bool :=
  let actName := trim (toLowerCase (orElse (act_name act) "")) in
  let mustDoName := trim (toLowerCase (TripStore.name mustDo)) in
  orb (String.eqb actName mustDoName)
      (orb (includes actName mustDoName) (includes mustDoName actName)).

Definition regularActivities (mustDoActivities : list MustDoActivity)
           (allActivities : list Activity) : list Activity :=
  filter (fun act => negb (existsb (overlapsMustDo act) mustDoActivities)) allActivities.

Definition matchesPreferences (preferences : option Preferences) (act : Activity) : bool :=
  match preferences with
  | None => true
  | Some p =>
      let actCategory := toLowerCase (orElse (orOpt (act_category act) (act_type act)) "") in
      let preferredCategories := map toLowerCase (categories p) in
      if andb (guidedTour p) (orb (includes actCategory "tour") (includes actCategory "guided"))
      then true
      else if (0 <? List.length preferredCategories)%nat
      then existsb (fun prefCat =>
                      orb (includes actCategory prefCat)
                          match act_name act with
                          | Some n => includes (toLowerCase n) prefCat
                          | None => false
                          end) preferredCategories
      else true
  end.

Definition filteredRegularActivities (preferences : option Preferences)
           (regular : list Activity) : list Activity :=
  filter (matchesPreferences preferences) regular.

(** ** One interior day (1874-2006) *)

Definition addMustDo (dayItems : list Item) (mustDo : MustDoActivity) (idx : nat) : list Item :=
  let existingTimes := map time dayItems in
  let timeSlot :=
    getTimeSlotForCategory (orOpt (TripStore.category mustDo) (TripStore.type_ mustDo))
                           (TripStore.duration mustDo) idx existingTimes in
  dayItems ++ [ {| type := activity; title := TripStore.name mustDo; time := timeSlot;
                   isMustDo := true; isOpenExploration := false |} ].

Definition addRegular (dayItems : list Item) (act : Activity) (idx : nat) : list Item :=
  let existingTimes := map time dayItems in
  let timeSlot :=
    getTimeSlotForCategory (orOpt (act_category act) (act_type act))
                           (orOpt (act_minimumDuration act) (act_duration act)) idx existingTimes in
  dayItems ++ [ plain activity (orElse (act_name act) "Activity") timeSlot ].

Definition realActivity (it : Item) : bool :=
  andb (ItemType_eqb (type it) activity) (negb (isOpenExploration it)).

Definition interiorItems (hotelSel : option Hotel)
           (mustDoDistribution : list (list MustDoActivity))
           (filtered : list Activity) (actualMiddleDays dayIndex : nat) : list Item :=
  let mustDoForDay := nth dayIndex mustDoDistribution [] in
  let dayItems := forEach addMustDo mustDoForDay [] in
  let remainingSlots := (2 - List.length dayItems)%nat in
  let dayItems :=
    if andb (0 <? remainingSlots)%nat
            (andb (0 <? List.length filtered)%nat (0 <? actualMiddleDays)%nat)
    then
      let activitiesPerDay := ceilDiv (List.length filtered) actualMiddleDays in
      let startIdx := (dayIndex * activitiesPerDay)%nat in
      let endIdx := Nat.min (startIdx + remainingSlots) (List.length filtered) in
      let dayActivities := slice filtered (Z.of_nat startIdx) (Z.of_nat endIdx) in
      forEach addRegular dayActivities dayItems
    else dayItems in
  let hasActivities := existsb realActivity dayItems in
  let dayItems := if hasActivities then dayItems else dayItems ++ [openExploration] in
  dayItems ++ hotelItems hotelSel "Overnight".

(** ** First and last day *)

Definition day1Items (flightSel : option Flight) (hotelSel : option Hotel) : list Item :=
  match flightSel with
  | Some f => if realFlight f then [outboundItem f] else [flightNeeded]
  | None => [flightNeeded]
  end ++ hotelItems hotelSel "Check-in".

Definition lastDayItems (returnFlight : option Flight) : list Item :=
  match returnFlight with
  | None => [returnFlightNeeded]
  | Some f => if realFlight f then [returnItem f] else [returnFlightNeeded]
  end.

(** ** Vocabulary for the properties of the layout *)

(** An item placed for a must-do activity, and one placed for a regular
    activity. *)
Definition mustDoItem (it : Item) : Prop :=
  isMustDo it = true /\ type it = activity /\ isOpenExploration it = false.

Definition regularItem (it : Item) : Prop :=
  isMustDo it = false /\ type it = activity /\ isOpenExploration it = false.

(** The must-do plan and the filtered pool the assembler works with. *)
Definition planOf (ts : TripState) (D : nat) : list (list MustDoActivity) :=
  distribute D 0 (ts_mustDoActivities ts).

Definition poolOf (ts : TripState) (allActivities : list Activity) : list Activity :=
  filteredRegularActivities (ts_preferences ts)
    (regularActivities (ts_mustDoActivities ts) allActivities).

(** The days of a round trip as pushed, before sorting and numbering, for
    a date range that is not empty. *)
Definition pushed (ts : TripState) (flightSel : option Flight) (hotelSel : option Hotel)
           (allActivities : list Activity) (returnFlight : option Flight)
           (dateRange : list Z) : list Day :=
  let mids := slice dateRange 1 (-1) in
  let D := List.length mids in
  {| day := None; dateObj := hd 0%Z dateRange; items := day1Items flightSel hotelSel |}
    :: mapi (fun currentDate i =>
               {| day := None; dateObj := currentDate;
                  items := interiorItems hotelSel (planOf ts D)
                                         (poolOf ts allActivities) D i |})
            mids
    ++ [ {| day := None; dateObj := last dateRange 0%Z;
            items := lastDayItems returnFlight |} ].

(** The titles of the must-do items of a day, in order. *)
Definition mustDoTitles (d : Day) : list string :=
  map title (filter isMustDo (items d)).

Section Host.
Variable parseDateString : string -> option Z.
Variable nextDay : Z -> Z.

(** ** Date resolution (1586-1636) *)

(** The trip-store date is the primary source, the function parameter
    the fallback. *)
Definition resolveDate (tripDate param : DateArg) : option Date :=
  let primary := orArg tripDate param in
  let obj := if truthyArg primary then toDate parseDateString primary else None in
  match validTime obj with
  | Some _ => obj
  | None =>
      match param with
      | DObj d => Some d
      | _ => if truthyArg param then parseDate parseDateString param else obj
      end
  end.

(** The validated start and the end defaulted to the start; the
    [throw new Error(`Invalid start date: ...`)] is the only [throw]
    of the function. *)
Definition resolveWindow (ts : TripState) (startDate endDate : DateArg) : Result (Z * Z) :=
  match validTime (resolveDate (ts_startDate ts) startDate) with
  | None => Throw "Invalid start date"
  | Some s =>
      match validTime (resolveDate (ts_endDate ts) endDate) with
      | Some e => Return (s, e)
      | None => Return (s, s)
      end
  end.

(** ** Laying the days out (1639-2136) *)

Definition middleDays (isRoundTrip : bool) (dateRange : list Z) : list Z :=
  if isRoundTrip then slice dateRange 1 (-1) else sliceFrom dateRange 1.

(** [actualMiddleDays] of a round trip from [startT] to [endT]. *)
Definition interiorDayCount (startT endT : Z) : nat :=
  List.length (middleDays true
                 (buildDateRange parseDateString nextDay (DObj (ValidDate startT))
                                 (DObj (ValidDate endT)))).

Definition layOut (ts : TripState) (flightSel : option Flight) (hotelSel : option Hotel)
           (allActivities : list Activity) (returnFlight : option Flight)
           (startT endT : Z) : list Day :=
  let mustDoActivities := ts_mustDoActivities ts in
  let dateRange :=
    buildDateRange parseDateString nextDay (DObj (ValidDate startT)) (DObj (ValidDate endT)) in
  let daysDiff := List.length dateRange in
  let isRoundTrip := negb (endT =? startT)%Z in
  let first :=
    match dateRange with
    | d0 :: _ => [ {| day := None; dateObj := d0; items := day1Items flightSel hotelSel |} ]
    | [] => []
    end in
  let middle :=
    if (1 <? daysDiff)%nat then
      let mids := middleDays isRoundTrip dateRange in
      let actualMiddleDays := List.length mids in
      let regular := regularActivities mustDoActivities allActivities in
      let mustDoDistribution := distribute actualMiddleDays 0 mustDoActivities in
      let filtered := filteredRegularActivities (ts_preferences ts) regular in
      mapi (fun currentDate i =>
              {| day := None; dateObj := currentDate;
                 items := interiorItems hotelSel mustDoDistribution filtered
                                        actualMiddleDays i |}) mids
    else [] in
  let final :=
    if andb isRoundTrip (0 <? List.length dateRange)%nat then
      [ {| day := None; dateObj := last dateRange 0%Z; items := lastDayItems returnFlight |} ]
    else [] in
  numberDays (sortDays (first ++ middle ++ final)).

(** [createDayByDayItinerary(flight, hotel, selectedActivity, allActivities,
     routeInfo, startDate, endDate, returnFlight)].  [selectedActivity]
    is never read and [routeInfo] only fills [details]; the trip store
    loaded by [loadTripState()] is the argument [ts]. *)
Definition createDayByDayItinerary (ts : TripState)
           (flightSel : option Flight) (hotelSel : option Hotel)
           (allActivities : list Activity)
           (startDate endDate : DateArg) (returnFlight : option Flight)
  : Result (list Day) :=
  match resolveWindow ts startDate endDate with
  | Throw msg => Throw msg
  | Return (startT, endT) =>
      Return (layOut ts flightSel hotelSel allActivities returnFlight startT endT)
  end.
End Host.

End Assembler.

(* ===================================================================== *)
(** * The assembler, legacy copy (ItineraryPage.jsx 3844-4057) *)
(* ===================================================================== *)

Module Legacy.
Import JsString JsDate JsArray Itinerary.

(** [Math.ceil(a / b)] on integers, [b] positive. *)
Definition ceilZ (a b : Z) : Z := (- ((- a) / b))%Z.

(** The legacy first day always carries a flight item, built with
    optional chaining from a possibly missing flight. *)
Definition day1Items (flightSel : option Flight) (hotelSel : option Hotel) : list Item :=
  let air := match flightSel with Some f => airline f | None => None end in
  let num := match flightSel with Some f => flightNumber f | None => None end in
  let dep := match flightSel with Some f => departure f | None => None end in
  plain flight (orElse air "Flight" ++ " " ++ orElse num "")%string (orElse dep "TBD")
    :: hotelItems hotelSel "Check-in".

Definition activityItem (act : Activity) (idx : nat) : Item :=
  plain activity (orElse (act_name act) "Activity")
        (if (idx =? 0)%nat then "Morning" else "Afternoon").

(** [returnFlight || {}] then the same time extraction as the current
    copy; the title falls back to ['Return'] and ['Flight']. *)
Definition returnItem (returnFlight : option Flight) : Item :=
  let f := match returnFlight with
           | Some f => f
           | None => mkFlight None None None None None
           end in
  plain flight (orElse (airline f) "Return" ++ " " ++ orElse (flightNumber f) "Flight")%string
        (flightTime f).

(** One pass of the middle-day loop, for the counter [i]. *)
Definition middleDay (hotelSel : option Hotel) (allActivities : list Activity)
           (maxMiddleDays : nat) (startT endT : Z) (i : nat) : list Day :=
  let currentDate := (startT + Z.of_nat i * msPerDay)%Z in
  if (utcDay currentDate =? utcDay endT)%Z then []
  else
    let activitiesPerDay := ceilDiv (List.length allActivities) maxMiddleDays in
    let startIdx := ((i - 1) * activitiesPerDay)%nat in
    let endIdx := (startIdx + activitiesPerDay)%nat in
    let dayActivities := slice allActivities (Z.of_nat startIdx) (Z.of_nat endIdx) in
    [ {| day := None; dateObj := currentDate;
         items := mapi activityItem dayActivities ++ hotelItems hotelSel "Overnight" |} ].

Definition layOut (flightSel : option Flight) (hotelSel : option Hotel)
           (allActivities : list Activity) (returnFlight : option Flight)
           (startT endT : Z) : list Day :=
  let isRoundTrip := negb (endT =? startT)%Z in
  let daysDiff :=
    if isRoundTrip then Z.max 1 (ceilZ (endT - startT) msPerDay) else 1%Z in
  let first := [ {| day := None; dateObj := startT; items := day1Items flightSel hotelSel |} ] in
  let middle :=
    if andb isRoundTrip (1 <? daysDiff)%Z then
      let maxMiddleDays := Z.to_nat (Z.min (daysDiff - 1) 5) in
      flat_map (middleDay hotelSel allActivities maxMiddleDays startT endT)
               (seq 1 maxMiddleDays)
    else [] in
  let final :=
    if andb isRoundTrip (startT <? endT)%Z then
      [ {| day := None; dateObj := endT; items := [returnItem returnFlight] |} ]
    else [] in
  numberDays (sortDays (first ++ middle ++ final)).

(** A date the legacy copy can put on a day: the start, one of the five
    days after it, or the end. *)
Definition legacyDate (startT endT t : Z) : Prop :=
  t = endT \/ exists i, (0 <= i <= 5)%Z /\ t = (startT + i * msPerDay)%Z.

Section Host.
Variable parseDateString : string -> option Z.

(** [x instanceof Date ? x : (x ? parseDate(x) : null)] *)
Definition resolveDate (param : DateArg) : option Date :=
  match param with
  | DObj d => Some d
  | _ => if truthyArg param then parseDate parseDateString param else None
  end.

(** The legacy [createDayByDayItinerary]: no trip store, dates from the
    parameters only. *)
Definition createDayByDayItinerary
           (flightSel : option Flight) (hotelSel : option Hotel)
           (allActivities : list Activity)
           (startDate endDate : DateArg) (returnFlight : option Flight)
  : Result (list Day) :=
  match validTime (resolveDate startDate) with
  | None => Throw "Invalid start date"
  | Some startT =>
      let endT := match validTime (resolveDate endDate) with
                  | Some e => e
                  | None => startT
                  end in
      Return (layOut flightSel hotelSel allActivities returnFlight startT endT)
  end.
End Host.

End Legacy.

(* ===================================================================== *)
(** * Cost extraction (ItineraryPage.jsx 2247-2255) *)
(* ===================================================================== *)

Module Cost.
Import JsString.

(** A JavaScript number: a finite value, [NaN] or an infinity.  Finite
    doubles are read as the rationals they denote. *)
Inductive JsNum : Type :=
| Fin (q : Q)
| NaN
| PosInf
| NegInf.

(** A JavaScript value as far as prices use them. *)
#[warnings="-register-all"] Inductive JsVal : Type :=
| VUndefined
| VNull
| VBool (b : bool)
| VNum (n : JsNum)
| VStr (s : string)
| VObj (fields : list (string * JsVal)).

(** Truthiness: [undefined], [null], [false], [0], [NaN] and [''] are
    falsy. *)
Definition truthyVal (v : JsVal) : bool :=
  match v with
  | VUndefined | VNull => false
  | VBool b => b
  | VNum (Fin q) => negb (Qeq_bool q 0)
  | VNum NaN => false
  | VNum _ => true
  | VStr s => truthy s
  | VObj _ => true
  end.

Fixpoint lookup (fields : list (string * JsVal)) (key : string) : JsVal :=
  match fields with
  | [] => VUndefined
  | (k, v) :: r => if String.eqb k key then v else lookup r key
  end.

(** Property read [v.key]: a [TypeError] on [null] and [undefined],
    [undefined] on the other primitives. *)
Definition getProp (v : JsVal) (key : string) : Result JsVal :=
  match v with
  | VUndefined | VNull => Throw "TypeError"
  | VObj fields => Return (lookup fields key)
  | _ => Return VUndefined
  end.

(** [a || b] *)
Definition orVal (a b : JsVal) : JsVal := if truthyVal a then a else b.

Definition isFiniteNonNegative (v : JsVal) : bool :=
  match v with
  | VNum (Fin q) => Qle_bool 0 q
  | _ => false
  end.

(** [String(v)] for the primitives [parseFloat] may receive here. *)
Definition toStringPrim (v : JsVal) : string :=
  match v with
  | VUndefined => "undefined"
  | VNull => "null"
  | VBool true => "true"
  | VBool false => "false"
  | VStr s => s
  | _ => ""
  end.

(** [isNaN(parsed) ? 0 : parsed] *)
Definition nanToZero (parsed : JsNum) : JsNum :=
  match parsed with
  | NaN => Fin 0
  | _ => parsed
  end.

Section Host.
(** The global [parseFloat] on strings. *)
Variable parseFloat : string -> JsNum.

(** [extractPrice(item)] *)
Definition extractPrice (item : JsVal) : Result JsVal :=
  if negb (truthyVal item) then Return (VNum (Fin 0))
  else
    match getProp item "price" with
    | Throw msg => Throw msg
    | Return price =>
        match price with
        | VNum n => Return (VNum n)
        | VNull => Throw "TypeError"
        | VObj fields =>
            Return (orVal (lookup fields "amount")
                      (orVal (lookup fields "total")
                         (orVal (lookup fields "value") (VNum (Fin 0)))))
        | other => Return (VNum (nanToZero (parseFloat (toStringPrim other))))
        end
    end.
End Host.

(** A host [parseFloat] restricted to unsigned decimal integers, for
    running the examples: anything else is [NaN]. *)
Fixpoint digitsValue (s : string) (acc : Z) : option Z :=
  match s with
  | EmptyString => Some acc
  | String c r =>
      let n := nat_of_ascii c in
      if andb (48 <=? n)%nat (n <=? 57)%nat
      then digitsValue r (acc * 10 + Z.of_nat (n - 48))%Z
      else None
  end.

Definition parseDigits (s : string) : JsNum :=
  match s with
  | EmptyString => NaN
  | _ => match digitsValue s 0%Z with
         | Some z => Fin (inject_Z z)
         | None => NaN
         end
  end.

End Cost.

(* ===================================================================== *)
(** * The budget-constrained selector *)
(* ===================================================================== *)

Module Selector.

(** Modelled from the spec: the scored candidate of the data model as the
    selector reads it, its price and its composite score [total]; the
    scoring itself belongs to the same absent backend. *)
Record ScoredCandidate : Type := mkScored {
  price : Q;
  total : Q
}.

(** Modelled from the spec: a combination of the absent selector, one
    slot per pool, [None] for an empty pool. *)
Definition Combination : Type :=
  (option ScoredCandidate * option ScoredCandidate * option ScoredCandidate)%type.

Inductive ErrorKind : Type := NoCombinationWithinBudget.

Definition slots (pool : list ScoredCandidate) : list (option ScoredCandidate) :=
  match pool with
  | [] => [None]
  | _ => map Some pool
  end.

Definition combinations (flights hotels activities : list ScoredCandidate)
  : list Combination :=
  flat_map (fun f =>
    flat_map (fun h =>
      map (fun a => (f, h, a)) (slots activities)) (slots hotels)) (slots flights).

Definition slotPrice (o : option ScoredCandidate) : Q :=
  match o with Some c => price c | None => 0 end.

Definition slotScore (o : option ScoredCandidate) : Q :=
  match o with Some c => total c | None => 0 end.

Definition slotCount (o : option ScoredCandidate) : Q :=
  match o with Some _ => 1 | None => 0 end.

Definition summedPrice (c : Combination) : Q :=
  let '(f, h, a) := c in slotPrice f + slotPrice h + slotPrice a.

(** Modelled from the spec: the mean of the composite scores, taken over
    the filled slots since a null slot is excluded from scoring. *)
Definition meanScore (c : Combination) : Q :=
  let '(f, h, a) := c in
  (slotScore f + slotScore h + slotScore a) / (slotCount f + slotCount h + slotCount a).

Definition withinBudget (userBudget : Q) (c : Combination) : bool :=
  Qle_bool (summedPrice c) userBudget.

Definition Qlt_bool (a b : Q) : bool := negb (Qle_bool b a).

(** Modelled from the spec: [c] beats the best so far with a higher mean,
    or with the same mean at a lower summed price (the tie-break). *)
Definition better (c best : Combination) : bool :=
  orb (Qlt_bool (meanScore best) (meanScore c))
      (andb (Qeq_bool (meanScore c) (meanScore best))
            (Qlt_bool (summedPrice c) (summedPrice best))).

Definition pick (best : option Combination) (c : Combination) : option Combination :=
  match best with
  | None => Some c
  | Some b => if better c b then Some c else Some b
  end.

(** Modelled from the spec: the implementation of the optimize operation
    ([/api/generateOptimalItinerary]) is a backend service that is not
    among the front-end sources; only its callers and its documentation
    are.  Following the component design: enumerate the Cartesian product
    of the three pools (an empty pool gives a null slot, left out of the
    price sum and of the scoring), keep the combinations whose summed
    price is at most [userBudget], and among them take the one with the
    highest mean composite score, ties going to the lowest summed price;
    with no survivor, fail with [NoCombinationWithinBudget]. *)
Definition CandidateSelector (flights hotels activities : list ScoredCandidate)
           (userBudget : Q) : ErrorKind + Combination :=
  match fold_left pick
                  (filter (withinBudget userBudget) (combinations flights hotels activities))
                  None with
  | Some c => inr c
  | None => inl NoCombinationWithinBudget
  end.

(** A slot filled from a pool: one of its candidates, or nothing when
    the pool is empty. *)
Definition chosenFrom (pool : list ScoredCandidate) (o : option ScoredCandidate) : Prop :=
  match o with
  | Some x => In x pool
  | None => pool = []
  end.

(** [c] is at least as good a choice as [c']: a strictly higher mean
    score, or the same mean at a summed price that is not higher. *)
Definition noWorse (c c' : Combination) : Prop :=
  meanScore c' < meanScore c
  \/ (meanScore c' == meanScore c /\ summedPrice c <= summedPrice c').

End Selector.

(* ===================================================================== *)
(** * Concrete inputs for the examples *)
(* ===================================================================== *)

Module Examples.
Import JsString JsDate Itinerary.

(** A host parser for the examples: it understands nothing. *)
Definition parsesNothing (_ : string) : option Z := None.

(** 2025-11-20T00:00:00Z *)
Definition nov20 : Z := 1763596800000.

(** A host in UTC, or in any time zone that keeps one offset: the next
    local day is 24 hours later. *)
Definition utcNextDay (t : Z) : Z := (t + msPerDay)%Z.

(** 2025-11-02T06:00:00Z, when the clocks of New York go back an hour. *)
Definition clocksGoBack : Z := 1762063200000.

(** A host in New York in the autumn of 2025: the local day on which the
    clocks go back lasts 25 hours, so from a time before the change the
    same wall-clock time on the next day is 25 hours later when that day
    lies after the change. *)
Definition newYorkNextDay (t : Z) : Z :=
  if andb (t <? clocksGoBack)%Z (clocksGoBack <=? t + msPerDay)%Z
  then (t + 25 * msPerHour)%Z
  else (t + msPerDay)%Z.

(** 2025-10-30T04:00:00Z, midnight in New York. *)
Definition oct30NewYork : Z := 1761796800000.

Definition incoming (n : string) : TripStore.IncomingActivity :=
  TripStore.mkIncoming (Some n) None None None None.

Definition entry (n : string) : TripStore.MustDoActivity :=
  TripStore.mkMustDo n None None None None (Some "t0").

(** The three flights of the scenario, with arbitrary composite scores. *)
Definition flightsAt (t500 t650 t900 : Q) : list Selector.ScoredCandidate :=
  [Selector.mkScored 500 t500; Selector.mkScored 650 t650; Selector.mkScored 900 t900].

Definition mustDo (n : string) : TripStore.MustDoActivity :=
  TripStore.mkMustDo n None None None None None.

Definition offer (n c : string) : Activity :=
  mkActivity (Some n) (Some c) None None None.

Definition onDay (k : Z) : DateArg := DObj (ValidDate (nov20 + k * msPerDay)).

(** A trip store without dates: the window comes from the arguments. *)
Definition storeWith (mustDos : list TripStore.MustDoActivity) (prefs : option Preferences)
  : TripState :=
  {| ts_startDate := DNull; ts_endDate := DNull;
     ts_mustDoActivities := mustDos; ts_preferences := prefs |}.

Definition threeMustDos : list TripStore.MustDoActivity :=
  [mustDo "Louvre"; mustDo "Eiffel Tower"; mustDo "Seine Cruise"].

Definition beachOnly : option Preferences :=
  Some {| guidedTour := false; categories := ["beach"] |}.

Definition titled (ttl : string) (d : Day) : bool :=
  existsb (fun it => String.eqb (title it) ttl) (items d).

Definition twoOffers : list Activity :=
  [offer "City Museum" "museum"; offer "Food tour" "food"].

End Examples.

(* ===================================================================== *)
(** * Vocabulary for the properties of a day *)
(* ===================================================================== *)

Module DayVocabulary.
Import JsString Itinerary.

(** The five labels [getTimeSlotForCategory] chooses from. *)
Definition slotLabels : list string :=
  ["Morning"; "Afternoon"; "Evening"; "Lunch"; "Dinner"].

Definition isOfType (ty : ItemType) (it : Item) : bool := ItemType_eqb (type it) ty.

(** How many items of a type a day carries. *)
Definition countOfType (ty : ItemType) (its : list Item) : nat :=
  List.length (filter (isOfType ty) its).

(** The title a regular activity is shown under: [activity.name || 'Activity']. *)
Definition activityTitle (act : Activity) : string := orElse (act_name act) "Activity".

(** Distinct time labels, all among the five slot labels. *)
Definition wellSlotted (its : list Item) : Prop :=
  NoDup (map time its) /\ Forall (fun it => In (time it) slotLabels) its.

Definition bit (b : bool) : nat := if b then 1%nat else 0%nat.

(** The titles of the activity items of an itinerary, day after day. *)
Definition activityTitles (days : list Day) : list string :=
  List.concat (map (fun d => map title (filter (isOfType activity) (items d))) days).

End DayVocabulary.

(* ===================================================================== *)
(** * The trip store: selections, filters and preferences (tripState.js) *)
(* ===================================================================== *)

Module StoreOps.
Import JsString Cost.

(** A plain object, as the finite map from its keys to their values: an
    association list read at the first occurrence of a key, so the latest
    assignment comes first.  The order of the properties, which this module
    never observes, is not kept.  The store is read back through
    [JSON.parse], so stored values are plain data. *)
Definition Obj : Type := list (string * JsVal).

(** [o[key] = v] *)
Definition setProp (o : Obj) (key : string) (v : JsVal) : Obj := (key, v) :: o.

(** [{ ...a, ...b }]: the properties of [b] are assigned over those of
    [a]. *)
Definition spread (a b : Obj) : Obj := b ++ a.

(** [{ ...p1, ...p2, ... }] *)
Definition objectOf (parts : list Obj) : Obj := fold_left spread parts [].

(** [key in o] *)
Definition hasKey (o : Obj) (key : string) : bool :=
  existsb (fun kv => String.eqb (fst kv) key) o.

(** [a === b].  Two objects are never the same reference here: one side is
    always freshly parsed from the session storage. *)
Definition strictEq (a b : JsVal) : bool :=
  match a, b with
  | VUndefined, VUndefined => true
  | VNull, VNull => true
  | VBool x, VBool y => Bool.eqb x y
  | VNum (Fin x), VNum (Fin y) => Qeq_bool x y
  | VNum PosInf, VNum PosInf => true
  | VNum NegInf, VNum NegInf => true
  | VStr x, VStr y => String.eqb x y
  | _, _ => false
  end.

(** [Array.prototype.findIndex], [None] for [-1]. *)
Fixpoint findIndex {A : Type} (p : A -> bool) (l : list A) : option nat :=
  match l with
  | [] => None
  | x :: r => if p x then Some 0%nat else option_map S (findIndex p r)
  end.

(** [list[index] = v] for an index in range. *)
Fixpoint setAt {A : Type} (l : list A) (index : nat) (v : A) : list A :=
  match l, index with
  | [], _ => []
  | _ :: r, O => v :: r
  | x :: r, S i => x :: setAt r i v
  end.

Definition idOf (o : Obj) : JsVal := lookup o "id".

(** [upsertItem(items, item)] (tripState.js 71-80); [items] is [None] when
    it is not an array, [now] is [new Date().toISOString()]. *)
Definition upsertItem (now : string) (items : option (list Obj)) (item : Obj) : list Obj :=
  let list := match items with Some l => l | None => [] end in
  match findIndex (fun existing => strictEq (idOf existing) (idOf item)) list with
  | Some index =>
      setAt list index
        (setProp (objectOf [nth index list []; item]) "updatedAt" (VStr now))
  | None => list ++ [setProp (objectOf [item]) "updatedAt" (VStr now)]
  end.

(** The three selection lists of the trip state. *)
Record Selections : Type := mkSelections {
  flights : list Obj;
  accommodation : list Obj;
  activities : list Obj
}.

(** The selection part of [recordTripSelection(category, selection)]
    (tripState.js 107-124): [selection] is [None] for [null] and
    [undefined]. *)
Definition recordTripSelection (now : string) (state : Selections)
           (category : string) (selection : option Obj) : Selections :=
  match selection with
  | None => state
  | Some sel =>
      if negb (truthy category) then state
      else
        let normalizedSelection :=
          setProp (setProp (objectOf [sel]) "category" (VStr category))
                  "recordedAt" (VStr now) in
        if String.eqb category "flight" then
          mkSelections (upsertItem now (Some (flights state)) normalizedSelection)
                       (accommodation state) (activities state)
        else if String.eqb category "hotel" then
          mkSelections (flights state)
                       (upsertItem now (Some (accommodation state)) normalizedSelection)
                       (activities state)
        else if String.eqb category "activity" then
          mkSelections (flights state) (accommodation state)
                       (upsertItem now (Some (activities state)) normalizedSelection)
        else state
  end.

(** No two entries carry the same id. *)
Definition distinctIds (l : list Obj) : Prop :=
  forall i j, (i < j < List.length l)%nat ->
    strictEq (idOf (nth i l [])) (idOf (nth j l [])) = false.

(** ** Filters and the budget (tripState.js 205-231) *)

(** [defaultTripState.filters] *)
Definition defaultFilters : Obj := [("activityBudgetMax", VNull)].

(** The [filters] that [saveTripState] writes for a state carrying
    [filters]. *)
Definition savedFilters (filters : Obj) : Obj := objectOf [defaultFilters; filters].

(** [updateTripFilters(partial)] on the stored filters; [partial] is an
    object. *)
Definition updateTripFilters (now : string) (stored : Obj) (partial : Obj) : Obj :=
  savedFilters
    (setProp (objectOf [defaultFilters; stored; partial]) "updatedAt" (VStr now)).

Definition isDigitOrDot (c : ascii) : bool :=
  let n := nat_of_ascii c in
  orb (andb (48 <=? n)%nat (n <=? 57)%nat) (n =? 46)%nat.

(** [s.replace(/[^0-9.]/g, '')] *)
Fixpoint keepDigitsAndDots (s : string) : string :=
  match s with
  | EmptyString => EmptyString
  | String c r => if isDigitOrDot c then String c (keepDigitsAndDots r)
                  else keepDigitsAndDots r
  end.

(** [String(v)] for plain data other than numbers. *)
Definition stringOf (v : JsVal) : string :=
  match v with
  | VObj _ => "[object Object]"
  | _ => toStringPrim v
  end.

(** [Number.isFinite(n) && n > 0] *)
Definition finitePositive (n : JsNum) : bool :=
  match n with
  | Fin q => negb (Qle_bool q 0)
  | _ => false
  end.

Section Host.
(** [Number] on strings. *)
Variable toNumber : string -> JsNum.

Definition budgetNumber (amount : JsVal) : JsNum :=
  match amount with
  | VNum n => n
  | other => toNumber (keepDigitsAndDots (stringOf other))
  end.

(** [recordBudgetConstraint(amount)], on the stored filters. *)
Definition recordBudgetConstraint (now : string) (stored : Obj) (amount : JsVal) : Obj :=
  let numeric := budgetNumber amount in
  if negb (finitePositive numeric) then stored
  else updateTripFilters now stored
         [("activityBudgetMax", VNum numeric); ("budget", VNum numeric)].
End Host.

(** ** Preferred categories (tripState.js 258-283) *)

(** [set.add(x)] on a [Set] kept in insertion order. *)
Definition setAdd (s : list string) (x : string) : list string :=
  if existsb (String.eqb x) s then s else s ++ [x].

(** [new Set([...l])] *)
Definition setOf (l : list string) : list string := fold_left setAdd l [].

(** One iteration of the [forEach] over [partial.categories]. *)
Definition addCategory (merged : list string) (category : JsVal) : list string :=
  match category with
  | VStr s => if truthy (trim s) then setAdd merged (toLowerCase (trim s)) else merged
  | _ => merged
  end.

(** The [categories] written by [updateTripPreferences(partial)], given
    the stored ones; [incoming] is [None] when [partial.categories] is not
    an array. *)
Definition mergedCategories (stored : list string) (incoming : option (list JsVal))
  : list string :=
  let merged := setOf stored in
  match incoming with
  | Some cats => fold_left addCategory cats merged
  | None => merged
  end.

(** A host [Number] restricted to unsigned decimal integers and the empty
    string, which [Number] reads as 0, for running the examples. *)
Definition numberOfDigits (s : string) : JsNum :=
  match s with
  | EmptyString => Fin 0
  | _ => parseDigits s
  end.

End StoreOps.

(* ===================================================================== *)
(** * Facts: date ranges *)
(* ===================================================================== *)

Module JsDateFacts.
Import JsString JsDate Examples.

Lemma msPerDay_pos : (0 < msPerDay)%Z.
Proof. reflexivity. Qed.

Lemma msPerHour_pos : (0 < msPerHour)%Z.
Proof. reflexivity. Qed.

Lemma daysFrom_S start k :
  daysFrom start (S k) = start :: daysFrom (start + msPerDay) k.
Proof.
  unfold daysFrom. simpl seq. simpl map. f_equal.
  - lia.
  - rewrite <- seq_shift, map_map. apply map_ext. intro i. lia.
Qed.

Lemma dayCount_step cur endT :
  (cur <= endT)%Z -> dayCount cur endT = S (dayCount (cur + msPerDay) endT).
Proof.
  intro Hle. unfold dayCount.
  replace (endT - cur)%Z with ((endT - (cur + msPerDay)) + 1 * msPerDay)%Z by lia.
  rewrite Z.div_add by (pose proof msPerDay_pos; lia).
  assert (H : (-1 <= (endT - (cur + msPerDay)) / msPerDay)%Z).
  { apply Z.div_le_lower_bound; [apply msPerDay_pos | lia]. }
  rewrite <- Z2Nat.inj_succ by lia. f_equal; lia.
Qed.

Lemma dayCount_past cur endT : (endT < cur)%Z -> dayCount cur endT = 0%nat.
Proof.
  intro Hlt. unfold dayCount.
  assert (H : ((endT - cur) / msPerDay < 0)%Z).
  { apply Z.div_lt_upper_bound; [apply msPerDay_pos | lia]. }
  lia.
Qed.

Lemma rangeFuel_past cur endT : (endT < cur)%Z -> rangeFuel cur endT = 0%nat.
Proof.
  intro Hlt. unfold rangeFuel.
  assert (H : ((endT - cur) / msPerHour < 0)%Z).
  { apply Z.div_lt_upper_bound; [apply msPerHour_pos | lia]. }
  lia.
Qed.

Lemma rangeFuel_positive cur endT : (cur <= endT)%Z -> (1 <= rangeFuel cur endT)%nat.
Proof.
  intro Hle. unfold rangeFuel.
  assert (H : (0 <= (endT - cur) / msPerHour)%Z).
  { apply Z.div_pos; [lia | apply msPerHour_pos]. }
  lia.
Qed.

Lemma rangeFuel_same s : rangeFuel s s = 1%nat.
Proof. unfold rangeFuel. now rewrite Z.sub_diag. Qed.

(** A step of an hour or more uses up one iteration at least. *)
Lemma rangeFuel_next cur next endT :
  (cur + msPerHour <= next)%Z -> (cur <= endT)%Z ->
  (S (rangeFuel next endT) <= rangeFuel cur endT)%nat.
Proof.
  intros Hstep Hle. unfold rangeFuel. pose proof msPerHour_pos as Hpos.
  assert (H0 : (0 <= (endT - cur) / msPerHour)%Z) by (apply Z.div_pos; lia).
  assert (H1 : ((endT - next) / msPerHour <= (endT - cur) / msPerHour - 1)%Z).
  { replace ((endT - cur) / msPerHour - 1)%Z
      with ((endT - cur + (- 1) * msPerHour) / msPerHour)%Z
      by (rewrite Z.div_add by lia; lia).
    apply Z.div_le_mono; lia. }
  lia.
Qed.

Lemma dayCount_le_rangeFuel s e : (dayCount s e <= rangeFuel s e)%nat.
Proof.
  unfold dayCount, rangeFuel.
  destruct (Z.le_gt_cases s e) as [Hle | Hgt].
  - assert (H : ((e - s) / msPerDay <= (e - s) / msPerHour)%Z).
    { apply Z.div_le_compat_l; [lia |]. split; [reflexivity | discriminate]. }
    lia.
  - assert (H : ((e - s) / msPerDay < 0)%Z).
    { apply Z.div_lt_upper_bound; [apply msPerDay_pos | lia]. }
    lia.
Qed.

Lemma daysFrom_length start k : List.length (daysFrom start k) = k.
Proof. unfold daysFrom. now rewrite length_map, length_seq. Qed.

Lemma daysFrom_nth start k i d :
  (i < k)%nat -> nth i (daysFrom start k) d = (start + Z.of_nat i * msPerDay)%Z.
Proof.
  intro Hi. unfold daysFrom.
  set (f := fun i => (start + Z.of_nat i * msPerDay)%Z).
  rewrite (nth_indep _ d (f 0%nat)) by now rewrite length_map, length_seq.
  rewrite (map_nth f), seq_nth by assumption. reflexivity.
Qed.

Lemma daysFrom_ascending k : forall start, StronglySorted Z.lt (daysFrom start k).
Proof.
  induction k as [| k IH]; intro start.
  - constructor.
  - rewrite daysFrom_S. constructor; [apply IH |].
    apply Forall_forall. intros x Hx. unfold daysFrom in Hx.
    apply in_map_iff in Hx. destruct Hx as [i [<- _]].
    pose proof msPerDay_pos. nia.
Qed.

Lemma daysFrom_last start k d :
  last (daysFrom start (S k)) d = (start + Z.of_nat k * msPerDay)%Z.
Proof.
  unfold daysFrom. rewrite seq_S, map_app. simpl. apply last_last.
Qed.

Lemma fixedOffset_advances nextDay : fixedOffset nextDay -> advances nextDay.
Proof. intros H t. rewrite H. unfold msPerHour, msPerDay. lia. Qed.

Lemma utc_fixedOffset : fixedOffset utcNextDay.
Proof. intro t. reflexivity. Qed.

Lemma utc_advances : advances utcNextDay.
Proof. apply fixedOffset_advances, utc_fixedOffset. Qed.

Lemma newYork_advances : advances newYorkNextDay.
Proof.
  intro t. unfold newYorkNextDay, msPerHour, msPerDay.
  destruct (_ && _); lia.
Qed.

Lemma last_cons_default {A : Type} (x d d' : A) (l : list A) :
  l <> [] -> last (x :: l) d = last l d'.
Proof.
  revert x. induction l as [| y l IH]; intros x Hne; [contradiction |].
  destruct l as [| z l]; [reflexivity |].
  change (last (x :: y :: z :: l) d) with (last (y :: z :: l) d).
  change (last (y :: z :: l) d') with (last (z :: l) d').
  rewrite (IH y) by discriminate. reflexivity.
Qed.

Section Host.
Variable parseDateString : string -> option Z.
Variable nextDay : Z -> Z.

(** The first entry is the start as soon as the start is not after the
    end, whatever the host. *)
Lemma dateLoop_head fuel cur endT :
  (cur <= endT)%Z ->
  dateLoop nextDay (S fuel) cur endT = cur :: dateLoop nextDay fuel (nextDay cur) endT.
Proof. intro Hle. simpl. destruct (Z.leb_spec cur endT); [reflexivity | lia]. Qed.

Lemma dateLoop_past fuel cur endT :
  (endT < cur)%Z -> dateLoop nextDay fuel cur endT = [].
Proof.
  intro Hlt. destruct fuel; [reflexivity |]. simpl.
  destruct (Z.leb_spec cur endT); [lia | reflexivity].
Qed.

Lemma buildDateRange_valid startDate endDate s e :
  validTime (toDate parseDateString startDate) = Some s ->
  validTime (toDate parseDateString endDate) = Some e ->
  buildDateRange parseDateString nextDay startDate endDate
  = dateLoop nextDay (rangeFuel s e) s e.
Proof. intros Hs He. unfold buildDateRange. now rewrite Hs, He. Qed.

Lemma buildDateRange_objects s e :
  buildDateRange parseDateString nextDay (DObj (ValidDate s)) (DObj (ValidDate e))
  = dateLoop nextDay (rangeFuel s e) s e.
Proof. now apply buildDateRange_valid. Qed.

Lemma buildDateRange_single startDate endDate s :
  validTime (toDate parseDateString startDate) = Some s ->
  validTime (toDate parseDateString endDate) = None
  \/ validTime (toDate parseDateString endDate) = Some s ->
  buildDateRange parseDateString nextDay startDate endDate = [s].
Proof.
  intros Hs [Hnone | Hsame]; unfold buildDateRange; rewrite Hs.
  - rewrite Hnone. rewrite rangeFuel_same. simpl. now rewrite Z.leb_refl.
  - rewrite Hsame. rewrite rangeFuel_same. simpl. now rewrite Z.leb_refl.
Qed.

Section Advancing.
(** The host's [setDate(getDate() + 1)] moves the clock forward. *)
Hypothesis Hadv : advances nextDay.

(** With at least [rangeFuel] iterations allowed, the loop stops on its
    own test: more fuel changes nothing. *)
Lemma dateLoop_enough f1 : forall f2 cur endT,
  (rangeFuel cur endT <= f1)%nat -> (rangeFuel cur endT <= f2)%nat ->
  dateLoop nextDay f1 cur endT = dateLoop nextDay f2 cur endT.
Proof.
  induction f1 as [| f1 IH]; intros f2 cur endT H1 H2.
  - destruct (Z.le_gt_cases cur endT) as [Hle | Hgt].
    + pose proof (rangeFuel_positive _ _ Hle). lia.
    + now rewrite !dateLoop_past by lia.
  - destruct (Z.le_gt_cases cur endT) as [Hle | Hgt].
    + pose proof (rangeFuel_next cur (nextDay cur) endT (Hadv cur) Hle) as Hnext.
      destruct f2 as [| f2]; [lia |].
      rewrite !dateLoop_head by assumption. f_equal. apply IH; lia.
    + now rewrite !dateLoop_past by lia.
Qed.

Lemma dateLoop_bounds fuel : forall cur endT,
  Forall (fun t => (cur <= t <= endT)%Z) (dateLoop nextDay fuel cur endT).
Proof.
  induction fuel as [| fuel IH]; intros cur endT; simpl; [constructor |].
  destruct (Z.leb_spec cur endT) as [Hle | Hgt]; [| constructor].
  constructor; [lia |].
  eapply Forall_impl; [| apply IH]. intros t Ht. cbv beta in Ht.
  pose proof (Hadv cur). pose proof msPerHour_pos. lia.
Qed.

Lemma dateLoop_ascending fuel : forall cur endT,
  StronglySorted Z.lt (dateLoop nextDay fuel cur endT).
Proof.
  induction fuel as [| fuel IH]; intros cur endT; simpl; [constructor |].
  destruct (Z.leb_spec cur endT) as [Hle | Hgt]; [| constructor].
  constructor; [apply IH |].
  eapply Forall_impl; [| apply dateLoop_bounds]. intros t Ht. cbv beta in Ht.
  pose proof (Hadv cur). pose proof msPerHour_pos. lia.
Qed.

(** The loop stops at the first day that lies after the end. *)
Lemma dateLoop_last fuel : forall cur endT,
  (rangeFuel cur endT <= fuel)%nat -> (cur <= endT)%Z ->
  (endT < nextDay (last (dateLoop nextDay fuel cur endT) cur))%Z.
Proof.
  induction fuel as [| fuel IH]; intros cur endT Hfuel Hle.
  - pose proof (rangeFuel_positive _ _ Hle). lia.
  - rewrite dateLoop_head by assumption.
    pose proof (rangeFuel_next cur (nextDay cur) endT (Hadv cur) Hle) as Hnext.
    destruct (Z.le_gt_cases (nextDay cur) endT) as [Hin | Hout].
    + rewrite (last_cons_default cur cur (nextDay cur)).
      * apply IH; [lia | assumption].
      * pose proof (rangeFuel_positive _ _ Hin).
        destruct fuel as [| fuel']; [lia |]. now rewrite dateLoop_head.
    + rewrite dateLoop_past by lia. simpl. lia.
Qed.

Lemma buildDateRange_ascending startDate endDate :
  StronglySorted Z.lt (buildDateRange parseDateString nextDay startDate endDate).
Proof.
  unfold buildDateRange.
  destruct (validTime (toDate parseDateString startDate)); [| constructor].
  apply dateLoop_ascending.
Qed.

End Advancing.

(** On a host with a fixed offset the range is the closed form: one entry
    for each whole 24 hours that fit. *)
Lemma dateLoop_fixed (Hfixed : fixedOffset nextDay) fuel : forall cur endT,
  (dayCount cur endT <= fuel)%nat ->
  dateLoop nextDay fuel cur endT = daysFrom cur (dayCount cur endT).
Proof.
  induction fuel as [| fuel IH]; intros cur endT Hfuel.
  - assert (dayCount cur endT = 0%nat) as -> by lia. reflexivity.
  - simpl. destruct (Z.leb_spec cur endT) as [Hle | Hgt].
    + rewrite (dayCount_step _ _ Hle) in *. rewrite daysFrom_S, Hfixed.
      f_equal. apply IH. lia.
    + rewrite dayCount_past by lia. reflexivity.
Qed.

Lemma buildDateRange_fixed startDate endDate s e :
  fixedOffset nextDay ->
  validTime (toDate parseDateString startDate) = Some s ->
  validTime (toDate parseDateString endDate) = Some e ->
  buildDateRange parseDateString nextDay startDate endDate = daysFrom s (dayCount s e).
Proof.
  intros Hfixed Hs He. rewrite (buildDateRange_valid _ _ _ _ Hs He).
  apply dateLoop_fixed; [assumption | apply dayCount_le_rangeFuel].
Qed.

Lemma buildDateRange_objects_fixed s e :
  fixedOffset nextDay ->
  buildDateRange parseDateString nextDay (DObj (ValidDate s)) (DObj (ValidDate e))
  = daysFrom s (dayCount s e).
Proof. intro Hfixed. now apply buildDateRange_fixed. Qed.

(** C4, with what depends on the host and on the time of day set apart.
    On a host whose [setDate(getDate() + 1)] moves the clock forward, for
    a start and an end that resolve to valid dates with the end not before
    the start, [buildDateRange] returns entries in strictly ascending
    order, the first being the start and none after the end.  When
    moreover the host's time zone keeps one UTC offset and the end is a
    whole number [n] of days after the start, it returns exactly [n + 1]
    entries, the time values [start + i] days for [i = 0..n], the last
    being the end.  When the end is missing, does not parse, or equals the
    start, the result is the one-element list [[start]]. *)
Theorem buildDateRange_whole_days startDate endDate s :
  advances nextDay ->
  validTime (toDate parseDateString startDate) = Some s ->
  (forall e,
      validTime (toDate parseDateString endDate) = Some e ->
      (s <= e)%Z ->
      let r := buildDateRange parseDateString nextDay startDate endDate in
      StronglySorted Z.lt r
      /\ hd_error r = Some s
      /\ (last r s <= e)%Z
      /\ (fixedOffset nextDay -> ((e - s) mod msPerDay = 0)%Z ->
          let n := Z.to_nat ((e - s) / msPerDay) in
          r = daysFrom s (S n)
          /\ List.length r = S n
          /\ last r s = e))
  /\ (validTime (toDate parseDateString endDate) = None
      \/ validTime (toDate parseDateString endDate) = Some s ->
      buildDateRange parseDateString nextDay startDate endDate = [s]).
Proof.
  intros Hadv Hs. split.
  - intros e He Hle r.
    assert (Hr : r = dateLoop nextDay (rangeFuel s e) s e).
    { unfold r. now apply buildDateRange_valid. }
    split; [rewrite Hr; now apply dateLoop_ascending |].
    split.
    { rewrite Hr. pose proof (rangeFuel_positive _ _ Hle) as Hpos.
      destruct (rangeFuel s e) as [| fuel]; [lia |].
      now rewrite dateLoop_head. }
    split.
    { pose proof (dateLoop_bounds Hadv (rangeFuel s e) s e) as Hb. rewrite <- Hr in Hb.
      destruct r as [| x r'] using rev_ind; [simpl; lia |].
      rewrite last_last. apply Forall_app in Hb. destruct Hb as [_ Hb].
      inversion Hb; subst. lia. }
    intros Hfixed Hmod n.
    assert (Hn0 : (0 <= (e - s) / msPerDay)%Z).
    { apply Z.div_pos; [lia | apply msPerDay_pos]. }
    assert (Hd : r = daysFrom s (S n)).
    { unfold r. rewrite (buildDateRange_fixed _ _ _ _ Hfixed Hs He).
      f_equal. unfold dayCount, n. rewrite <- Z2Nat.inj_succ by lia.
      f_equal; lia. }
    rewrite Hd. repeat split.
    + apply daysFrom_length.
    + rewrite daysFrom_last. unfold n. rewrite Z2Nat.id by lia.
      pose proof (Z.div_mod (e - s) msPerDay) as Hdm.
      pose proof msPerDay_pos. rewrite Hmod in Hdm. lia.
  - now apply buildDateRange_single.
Qed.
End Host.

Lemma buildDateRange_whole_days_witness :
  buildDateRange parsesNothing utcNextDay (DObj (ValidDate nov20))
                 (DObj (ValidDate (nov20 + 7 * msPerDay)))
  = daysFrom nov20 8
  /\ buildDateRange parsesNothing utcNextDay (DObj (ValidDate nov20)) DNull = [nov20]
  /\ hd_error (buildDateRange parsesNothing newYorkNextDay (DObj (ValidDate oct30NewYork))
                 (DObj (ValidDate (oct30NewYork + 7 * msPerDay))))
     = Some oct30NewYork.
Proof.
  pose proof (buildDateRange_whole_days parsesNothing utcNextDay
                (DObj (ValidDate nov20)) (DObj (ValidDate (nov20 + 7 * msPerDay)))
                nov20 utc_advances eq_refl) as [Hrange _].
  pose proof (buildDateRange_whole_days parsesNothing utcNextDay
                (DObj (ValidDate nov20)) DNull nov20 utc_advances eq_refl) as [_ Hone].
  pose proof (buildDateRange_whole_days parsesNothing newYorkNextDay
                (DObj (ValidDate oct30NewYork))
                (DObj (ValidDate (oct30NewYork + 7 * msPerDay)))
                oct30NewYork newYork_advances eq_refl) as [Hny _].
  split; [| split].
  - destruct (Hrange (nov20 + 7 * msPerDay)%Z eq_refl ltac:(vm_compute; discriminate))
      as [_ [_ [_ Hwhole]]].
    exact (proj1 (Hwhole utc_fixedOffset ltac:(vm_compute; reflexivity))).
  - apply Hone. left. reflexivity.
  - exact (proj1 (proj2 (Hny (oct30NewYork + 7 * msPerDay)%Z eq_refl
                           ltac:(vm_compute; discriminate)))).
Defined.

(** C4, counterexamples.  On a host in UTC, start 2025-11-20T23:00Z and
    end 2025-11-21T01:00Z are valid dates with end after start, on
    consecutive calendar days; the range has the single entry [start]: not
    two entries, and its last entry is neither the end nor on the end's
    calendar day.  On a host in New York, from midnight of 30 October 2025
    to exactly seven times 24 hours later, across the night the clocks go
    back, the range has seven entries, not eight, and its last entry is
    not the end. *)
Lemma buildDateRange_counterexample :
  (let s := (nov20 + 23 * 3600000)%Z in
   let e := (nov20 + 25 * 3600000)%Z in
   let r := buildDateRange parsesNothing utcNextDay (DObj (ValidDate s)) (DObj (ValidDate e)) in
   (s <= e)%Z
   /\ utcDay e = (utcDay s + 1)%Z
   /\ r = [s]
   /\ List.length r <> Z.to_nat (utcDay e - utcDay s + 1)
   /\ last r s <> e
   /\ utcDay (last r s) <> utcDay e)
  /\ (let s := oct30NewYork in
      let e := (oct30NewYork + 7 * msPerDay)%Z in
      let r := buildDateRange parsesNothing newYorkNextDay
                 (DObj (ValidDate s)) (DObj (ValidDate e)) in
      ((e - s) mod msPerDay = 0)%Z
      /\ List.length r = 7%nat
      /\ List.length r <> Z.to_nat ((e - s) / msPerDay + 1)
      /\ last r s = (oct30NewYork + 6 * msPerDay + msPerHour)%Z
      /\ last r s <> e).
Proof. vm_compute. repeat split; discriminate. Qed.

End JsDateFacts.

(* ===================================================================== *)
(** * Facts: the must-do store *)
(* ===================================================================== *)

Module TripStoreFacts.
Import JsString TripStore Examples.









(** Letters and blanks beyond ASCII: the name [ECOLE] with an upper-case
    E acute (U+00C9) is a duplicate of [ecole] with a lower-case e acute
    (U+00E9), and a leading no-break space (U+00A0) is trimmed. *)
Lemma accented_duplicate_rejected :
  let upper := String (ascii_of_nat 201) "COLE" in
  let lower := String (ascii_of_nat 233) "cole" in
  toLowerCase upper = lower
  /\ trim (String (ascii_of_nat 160) upper) = upper
  /\ recordMustDoActivities "t1" [entry lower] [incoming (String (ascii_of_nat 160) upper)]
     = [entry lower]
  /\ recordTripSelection_mustDo "t1" [entry lower] [incoming upper] = [entry lower].
Proof. vm_compute. repeat split. Qed.




End TripStoreFacts.

(* ===================================================================== *)
(** * Facts: cost extraction *)
(* ===================================================================== *)

Module CostFacts.
Import JsString Cost.

Section Host.
Variable parseFloat : string -> JsNum.

Lemma extractPrice_object fields :
  extractPrice parseFloat (VObj fields)
  = match lookup fields "price" with
    | VNum n => Return (VNum n)
    | VNull => Throw "TypeError"
    | VObj pf =>
        Return (orVal (lookup pf "amount")
                  (orVal (lookup pf "total")
                     (orVal (lookup pf "value") (VNum (Fin 0)))))
    | other => Return (VNum (nanToZero (parseFloat (toStringPrim other))))
    end.
Proof.
  unfold extractPrice. simpl.
  destruct (lookup fields "price"); reflexivity.
Qed.

(** C9, case by case.
    [extractPrice] returns 0 for a missing item; a
    numeric price as it is, whatever the number; for a nested price
    object the first truthy field among [amount], [total], [value] and 0
    when none is, so [{amount: q}] with [q] non-zero gives [q]; for a
    string price what [parseFloat] makes of it, with [NaN] replaced by
    0.  The result is therefore a finite number at least 0 whenever the
    numeric price, the chosen field or the parsed number is one. *)
Theorem extractPrice_coercion :
  (forall item, truthyVal item = false ->
                extractPrice parseFloat item = Return (VNum (Fin 0)))
  /\ (forall fields n,
         lookup fields "price" = VNum n ->
         extractPrice parseFloat (VObj fields) = Return (VNum n))
  /\ (forall fields pf,
         lookup fields "price" = VObj pf ->
         extractPrice parseFloat (VObj fields)
         = Return (orVal (lookup pf "amount")
                     (orVal (lookup pf "total")
                        (orVal (lookup pf "value") (VNum (Fin 0))))))
  /\ (forall fields pf q,
         lookup fields "price" = VObj pf ->
         lookup pf "amount" = VNum (Fin q) -> ~ q == 0 ->
         extractPrice parseFloat (VObj fields) = Return (VNum (Fin q)))
  /\ (forall fields s,
         lookup fields "price" = VStr s ->
         extractPrice parseFloat (VObj fields) = Return (VNum (nanToZero (parseFloat s)))
         /\ (parseFloat s = NaN ->
             extractPrice parseFloat (VObj fields) = Return (VNum (Fin 0))))
  /\ (forall fields n,
         lookup fields "price" = VNum n ->
         isFiniteNonNegative (VNum n) = true ->
         exists v, extractPrice parseFloat (VObj fields) = Return v
                   /\ isFiniteNonNegative v = true).
Proof.
  repeat split.
  - intros item Hfalsy. unfold extractPrice. now rewrite Hfalsy.
  - intros fields n Hp. now rewrite extractPrice_object, Hp.
  - intros fields pf Hp. now rewrite extractPrice_object, Hp.
  - intros fields pf q Hp Hamount Hq. rewrite extractPrice_object, Hp, Hamount.
    unfold orVal at 1. simpl.
    destruct (Qeq_bool q 0) eqn:Hz; [| reflexivity].
    apply Qeq_bool_iff in Hz. contradiction.
  - rewrite extractPrice_object, H. reflexivity.
  - intro Hnan. rewrite extractPrice_object, H. simpl. now rewrite Hnan.
  - intros fields n Hp Hfin. exists (VNum n). split; [| assumption].
    now rewrite extractPrice_object, Hp.
Qed.
End Host.

Lemma extractPrice_coercion_witness :
  extractPrice parseDigits (VObj [("price", VObj [("amount", VNum (Fin 120))])])
  = Return (VNum (Fin 120))
  /\ extractPrice parseDigits (VObj [("price", VStr "abc")]) = Return (VNum (Fin 0))
  /\ extractPrice parseDigits VNull = Return (VNum (Fin 0)).
Proof.
  pose proof (extractPrice_coercion parseDigits) as [Hmissing [_ [_ [Hamount [Hstr _]]]]].
  split; [| split].
  - apply (Hamount _ [("amount", VNum (Fin 120))] 120); [reflexivity | reflexivity |].
    intro H. discriminate H.
  - apply (Hstr [("price", VStr "abc")] "abc"); reflexivity.
  - apply Hmissing. reflexivity.
Defined.

(** C9, counterexample.  A numeric price of -5 is returned as it is, and
    so is [NaN]: neither is a finite number at least 0. *)
Lemma extractPrice_counterexample :
  extractPrice parseDigits (VObj [("price", VNum (Fin (-5)))]) = Return (VNum (Fin (-5)))
  /\ isFiniteNonNegative (VNum (Fin (-5))) = false
  /\ extractPrice parseDigits (VObj [("price", VNum NaN)]) = Return (VNum NaN)
  /\ isFiniteNonNegative (VNum NaN) = false.
Proof. repeat split. Qed.

End CostFacts.

(* ===================================================================== *)
(** * Facts: the selector *)
(* ===================================================================== *)

Module SelectorFacts.
Import Selector Examples.

Lemma Qlt_bool_iff a b : Qlt_bool a b = true <-> a < b.
Proof.
  unfold Qlt_bool. rewrite negb_true_iff. split.
  - intro H. apply Qnot_le_lt. intro Hle. apply Qle_bool_iff in Hle. congruence.
  - intro H. destruct (Qle_bool b a) eqn:E; [| reflexivity].
    apply Qle_bool_iff in E. exfalso. revert E. now apply Qlt_not_le.
Qed.

Lemma noWorse_refl c : noWorse c c.
Proof. right. split; [reflexivity | apply Qle_refl]. Qed.

Lemma noWorse_trans a b c : noWorse a b -> noWorse b c -> noWorse a c.
Proof.
  unfold noWorse. intros [Hab | [Hab Pab]] [Hbc | [Hbc Pbc]].
  - left. eapply Qlt_trans; eauto.
  - left. now rewrite Hbc.
  - left. now rewrite <- Hab.
  - right. split.
    + now rewrite Hbc.
    + eapply Qle_trans; eauto.
Qed.

Lemma better_true c b : better c b = true -> noWorse c b.
Proof.
  unfold better, noWorse. rewrite orb_true_iff, andb_true_iff.
  intros [H | [Heq Hlt]].
  - left. now apply Qlt_bool_iff.
  - right. apply Qeq_bool_iff in Heq. apply Qlt_bool_iff in Hlt. split.
    + now symmetry.
    + now apply Qlt_le_weak.
Qed.

Lemma better_false c b : better c b = false -> noWorse b c.
Proof.
  unfold better, noWorse. rewrite orb_false_iff, andb_false_iff.
  intros [Hmean Hrest].
  assert (Hle : meanScore c <= meanScore b).
  { apply Qnot_lt_le. intro H. apply Qlt_bool_iff in H. congruence. }
  destruct (Qeq_bool (meanScore c) (meanScore b)) eqn:Heq.
  - right. apply Qeq_bool_iff in Heq. split; [assumption |].
    destruct Hrest as [Hrest | Hrest]; [discriminate |].
    apply Qnot_lt_le. intro H. apply Qlt_bool_iff in H. congruence.
  - left. apply Qle_lt_or_eq in Hle. destruct Hle as [Hlt | Hq]; [assumption |].
    apply Qeq_bool_iff in Hq. congruence.
Qed.

(** The fold keeps a best-so-far that is one of the combinations seen and
    no worse than each of them. *)
Lemma pick_fold l : forall b0 r,
  fold_left pick l (Some b0) = Some r ->
  (r = b0 \/ In r l) /\ noWorse r b0 /\ forall c, In c l -> noWorse r c.
Proof.
  induction l as [| x l IH]; intros b0 r Hfold; simpl in Hfold.
  - injection Hfold as <-. repeat split; auto using noWorse_refl. intros c [].
  - destruct (better x b0) eqn:Hb.
    + destruct (IH _ _ Hfold) as [Hin [Hrx Hall]]. repeat split.
      * right. destruct Hin as [-> | Hin]; [now left | now right].
      * eapply noWorse_trans; [exact Hrx | now apply better_true].
      * intros c [<- | Hc]; auto.
    + destruct (IH _ _ Hfold) as [Hin [Hrb Hall]]. repeat split.
      * destruct Hin as [-> | Hin]; [now left | right; now right].
      * assumption.
      * intros c [<- | Hc]; auto.
        eapply noWorse_trans; [exact Hrb | now apply better_false].
Qed.

Lemma pick_fold_none l r :
  fold_left pick l None = Some r -> In r l /\ forall c, In c l -> noWorse r c.
Proof.
  destruct l as [| x l]; simpl; [discriminate |].
  intro Hfold. destruct (pick_fold _ _ _ Hfold) as [Hin [Hrx Hall]]. split.
  - destruct Hin as [-> | Hin]; [now left | now right].
  - intros c [<- | Hc]; auto.
Qed.

Lemma pick_fold_some l : forall b0, exists r, fold_left pick l (Some b0) = Some r.
Proof.
  induction l as [| x l IH]; intro b0; simpl.
  - now exists b0.
  - destruct (better x b0); apply IH.
Qed.

Lemma slots_chosen pool o : In o (slots pool) <-> chosenFrom pool o.
Proof.
  unfold slots, chosenFrom. destruct pool as [| x pool].
  - destruct o as [y |]; simpl; split.
    + intros [H | []]. discriminate H.
    + intros [].
    + reflexivity.
    + intros _. now left.
  - rewrite in_map_iff. destruct o as [y |]; split.
    + intros [z [Hz Hin]]. injection Hz as <-. exact Hin.
    + intro H. now exists y.
    + intros [z [Hz _]]. discriminate Hz.
    + discriminate.
Qed.

(** The enumeration is the whole Cartesian product of the pools. *)
Lemma combinations_all flights hotels activities f h a :
  In (f, h, a) (combinations flights hotels activities)
  <-> chosenFrom flights f /\ chosenFrom hotels h /\ chosenFrom activities a.
Proof.
  unfold combinations. rewrite <- !slots_chosen, in_flat_map. split.
  - intros [f0 [Hf H]]. apply in_flat_map in H. destruct H as [h0 [Hh H]].
    apply in_map_iff in H. destruct H as [a0 [Heq Ha]].
    injection Heq as <- <- <-. auto.
  - intros [Hf [Hh Ha]]. exists f. split; [exact Hf |].
    apply in_flat_map. exists h. split; [exact Hh |].
    apply in_map_iff. now exists a.
Qed.

Lemma chosen_filled pool o :
  pool <> [] -> chosenFrom pool o -> exists x, o = Some x /\ In x pool.
Proof.
  intros Hne H. destruct o as [x |]; [now exists x | contradiction].
Qed.

(** C1.  Whatever the pools and the budget: the combinations the selector
    chooses among are all the ways of taking one candidate from each pool
    (nothing from an empty pool).  With three pools that are not empty, a
    combination returned by the selector takes a flight, a hotel and an
    activity from the pools, the sum of their prices is at most
    [userBudget] (inclusive), and against every flight, hotel and activity
    of the pools whose prices sum to at most [userBudget] it has the
    higher mean of the three composite scores or, at equal mean, a price
    sum that is not higher.  A combination is returned exactly when one is
    within budget.  With a budget of 700, flights priced 500, 650 and 900,
    one hotel at 150 and one activity at 50, the combination returned is
    the one with the 500 flight, whatever the scores: the 900 flight is
    never selected. *)
Theorem CandidateSelector_optimal :
  (forall flights hotels activities f h a,
      In (f, h, a) (combinations flights hotels activities)
      <-> chosenFrom flights f /\ chosenFrom hotels h /\ chosenFrom activities a)
  /\ (forall flights hotels activities userBudget c,
         flights <> [] -> hotels <> [] -> activities <> [] ->
         CandidateSelector flights hotels activities userBudget = inr c ->
         exists f h a,
           c = (Some f, Some h, Some a)
           /\ In f flights /\ In h hotels /\ In a activities
           /\ price f + price h + price a <= userBudget
           /\ forall f' h' a',
                In f' flights -> In h' hotels -> In a' activities ->
                price f' + price h' + price a' <= userBudget ->
                (total f' + total h' + total a') / 3 < (total f + total h + total a) / 3
                \/ ((total f' + total h' + total a') / 3 == (total f + total h + total a) / 3
                    /\ price f + price h + price a <= price f' + price h' + price a'))
  /\ (forall flights hotels activities userBudget c,
         CandidateSelector flights hotels activities userBudget = inr c ->
         In c (combinations flights hotels activities)
         /\ summedPrice c <= userBudget
         /\ forall c', In c' (combinations flights hotels activities) ->
                       summedPrice c' <= userBudget ->
                       noWorse c c')
  /\ (forall flights hotels activities userBudget,
         (exists c, CandidateSelector flights hotels activities userBudget = inr c)
         <-> exists c', In c' (combinations flights hotels activities)
                        /\ summedPrice c' <= userBudget)
  /\ (forall t500 t650 t900 th ta,
         CandidateSelector (flightsAt t500 t650 t900) [mkScored 150 th] [mkScored 50 ta] 700
         = inr (Some (mkScored 500 t500), Some (mkScored 150 th), Some (mkScored 50 ta))).
Proof.
  assert (Hsound : forall flights hotels activities userBudget c,
             CandidateSelector flights hotels activities userBudget = inr c ->
             In c (combinations flights hotels activities)
             /\ summedPrice c <= userBudget
             /\ forall c', In c' (combinations flights hotels activities) ->
                           summedPrice c' <= userBudget ->
                           noWorse c c').
  { intros flights hotels activities userBudget c. unfold CandidateSelector.
    destruct (fold_left pick _ None) as [r |] eqn:Hfold; [| discriminate].
    intro H. injection H as <-.
    apply pick_fold_none in Hfold. destruct Hfold as [Hin Hall].
    apply filter_In in Hin. destruct Hin as [Hin Hbudget].
    repeat split; auto.
    + now apply Qle_bool_iff.
    + intros c' Hc' Hp. apply Hall. apply filter_In. split; auto.
      now apply Qle_bool_iff. }
  split; [exact combinations_all |].
  split; [| split; [exact Hsound | split]].
  - intros flights hotels activities userBudget c Hf Hh Ha Hsel.
    destruct (Hsound _ _ _ _ _ Hsel) as [Hin [Hprice Hbest]].
    destruct c as [[f h] a]. apply combinations_all in Hin.
    destruct Hin as [Cf [Ch Ca]].
    destruct (chosen_filled _ _ Hf Cf) as [xf [-> Hxf]].
    destruct (chosen_filled _ _ Hh Ch) as [xh [-> Hxh]].
    destruct (chosen_filled _ _ Ha Ca) as [xa [-> Hxa]].
    exists xf, xh, xa. split; [reflexivity |].
    split; [exact Hxf |]. split; [exact Hxh |]. split; [exact Hxa |].
    split; [exact Hprice |].
    intros f' h' a' Hf' Hh' Ha' Hp'.
    assert (Hn : noWorse (Some xf, Some xh, Some xa) (Some f', Some h', Some a')).
    { apply Hbest; [| exact Hp']. apply combinations_all. repeat split; assumption. }
    exact Hn.
  - intros flights hotels activities userBudget. split.
    + intros [c Hsel]. destruct (Hsound _ _ _ _ _ Hsel) as [Hin [Hprice _]].
      now exists c.
    + intros [c' [Hin Hp]]. unfold CandidateSelector.
      assert (Hsurv : In c' (filter (withinBudget userBudget)
                                    (combinations flights hotels activities))).
      { apply filter_In. split; auto. now apply Qle_bool_iff. }
      destruct (filter _ _) as [| x l]; [destruct Hsurv |].
      simpl. destruct (pick_fold_some l x) as [r ->]. now exists r.
  - intros. reflexivity.
Qed.

(** A request with four combinations within budget: the 400 flight wins
    on its score over the cheaper 300 flight, and between the two hotels
    of equal score the cheaper one is taken. *)
Lemma CandidateSelector_optimal_witness :
  let flights := [mkScored 300 (6 # 10); mkScored 400 (9 # 10); mkScored 900 1] in
  let hotels := [mkScored 150 (1 # 2); mkScored 250 (1 # 2)] in
  let activities := [mkScored 50 (1 # 2)] in
  CandidateSelector flights hotels activities 700
  = inr (Some (mkScored 400 (9 # 10)), Some (mkScored 150 (1 # 2)),
         Some (mkScored 50 (1 # 2)))
  /\ ((6 # 10) + (1 # 2) + (1 # 2)) / 3 < ((9 # 10) + (1 # 2) + (1 # 2)) / 3
  /\ 400 + 150 + 50 <= 400 + 250 + 50.
Proof.
  intros flights hotels activities.
  assert (Hsel : CandidateSelector flights hotels activities 700
                 = inr (Some (mkScored 400 (9 # 10)), Some (mkScored 150 (1 # 2)),
                        Some (mkScored 50 (1 # 2)))) by reflexivity.
  split; [exact Hsel |].
  destruct (proj1 (proj2 CandidateSelector_optimal) flights hotels activities 700 _
              ltac:(discriminate) ltac:(discriminate) ltac:(discriminate) Hsel)
    as [f [h [a [Hc [_ [_ [_ [_ Hbest]]]]]]]].
  injection Hc as <- <- <-. split.
  - destruct (Hbest (mkScored 300 (6 # 10)) (mkScored 150 (1 # 2)) (mkScored 50 (1 # 2))
                ltac:(simpl; tauto) ltac:(simpl; tauto) ltac:(simpl; tauto)
                ltac:(vm_compute; discriminate)) as [Hlt | [Heq _]].
    + exact Hlt.
    + vm_compute in Heq. discriminate Heq.
  - destruct (Hbest (mkScored 400 (9 # 10)) (mkScored 250 (1 # 2)) (mkScored 50 (1 # 2))
                ltac:(simpl; tauto) ltac:(simpl; tauto) ltac:(simpl; tauto)
                ltac:(vm_compute; discriminate)) as [Hlt | [_ Hle]].
    + vm_compute in Hlt. discriminate Hlt.
    + exact Hle.
Defined.

End SelectorFacts.

(* ===================================================================== *)
(** * Facts: arrays, sorting and numbering *)
(* ===================================================================== *)

Module ItineraryFacts.
Import JsString JsDate JsArray Itinerary JsDateFacts.

(** ** Slices *)

Lemma firstn_min_length {A : Type} (l : list A) n :
  firstn (Nat.min n (List.length l)) l = firstn n l.
Proof.
  destruct (Nat.le_ge_cases n (List.length l)) as [H | H].
  - now rewrite Nat.min_l.
  - rewrite Nat.min_r by assumption. now rewrite !firstn_all2 by lia.
Qed.

(** Between natural indices, [slice] is [firstn] after [skipn]. *)
Lemma slice_nat {A : Type} (l : list A) (a b : nat) :
  slice l (Z.of_nat a) (Z.of_nat b) = firstn (b - a) (skipn a l).
Proof.
  unfold slice, clampIndex.
  destruct (Z.ltb_spec (Z.of_nat a) 0) as [Ha | _]; [lia |].
  destruct (Z.ltb_spec (Z.of_nat b) 0) as [Hb | _]; [lia |].
  destruct (Nat.le_gt_cases (List.length l) a) as [Hlen | Hlen].
  - rewrite (skipn_all2 l) by lia.
    rewrite skipn_all2 by lia. now rewrite !firstn_nil.
  - replace (Z.to_nat (Z.min (Z.of_nat a) (Z.of_nat (List.length l)))) with a by lia.
    rewrite <- (firstn_min_length (skipn a l) (b - a)).
    f_equal. rewrite length_skipn. lia.
Qed.

Lemma daysFrom_snoc start k :
  daysFrom start (S k) = daysFrom start k ++ [(start + Z.of_nat k * msPerDay)%Z].
Proof. unfold daysFrom. now rewrite seq_S, map_app. Qed.

Lemma daysFrom_firstn k : forall start, firstn k (daysFrom start (S k)) = daysFrom start k.
Proof.
  induction k as [| k IH]; intro start.
  - reflexivity.
  - rewrite (daysFrom_S start (S k)), (daysFrom_S start k). simpl. now rewrite IH.
Qed.

(** The interior of a range: [dateRange.slice(1, -1)]. *)
Lemma slice_interior start k :
  slice (daysFrom start (S k)) 1 (-1) = daysFrom (start + msPerDay) (k - 1).
Proof.
  unfold slice. rewrite daysFrom_length.
  assert (H1 : clampIndex (Z.of_nat (S k)) 1 = 1%Z).
  { unfold clampIndex. destruct (Z.ltb_spec 1 0); lia. }
  assert (H2 : clampIndex (Z.of_nat (S k)) (-1) = Z.of_nat k).
  { unfold clampIndex. destruct (Z.ltb_spec (-1) 0); lia. }
  rewrite H1, H2.
  replace (Z.to_nat (Z.max (Z.of_nat k - 1) 0)) with (k - 1)%nat by lia.
  change (Z.to_nat 1) with 1%nat. rewrite daysFrom_S. simpl skipn.
  destruct k as [| k]; [reflexivity |].
  replace (S k - 1)%nat with k by lia. apply daysFrom_firstn.
Qed.

(** ** Indexed maps *)

Lemma mapFrom_length {A B : Type} (f : A -> nat -> B) (l : list A) :
  forall idx, List.length (mapFrom f l idx) = List.length l.
Proof. induction l as [| x l IH]; intro idx; simpl; auto. Qed.

Lemma mapFrom_app {A B : Type} (f : A -> nat -> B) (l1 l2 : list A) :
  forall idx, mapFrom f (l1 ++ l2) idx
              = mapFrom f l1 idx ++ mapFrom f l2 (idx + List.length l1).
Proof.
  induction l1 as [| x l1 IH]; intro idx; simpl.
  - now rewrite Nat.add_0_r.
  - rewrite IH. do 3 f_equal. lia.
Qed.

Lemma mapFrom_map {A B C : Type} (g : B -> C) (f : A -> nat -> B) (l : list A) :
  forall idx, map g (mapFrom f l idx) = mapFrom (fun x i => g (f x i)) l idx.
Proof. induction l as [| x l IH]; intro idx; simpl; [| rewrite IH]; reflexivity. Qed.

Lemma mapFrom_const {A B : Type} (g : A -> B) (l : list A) :
  forall idx, mapFrom (fun x _ => g x) l idx = map g l.
Proof. induction l as [| x l IH]; intro idx; simpl; [| rewrite IH]; reflexivity. Qed.

Lemma mapFrom_index {A B : Type} (g : nat -> B) (l : list A) :
  forall idx, mapFrom (fun _ i => g i) l idx = map g (seq idx (List.length l)).
Proof. induction l as [| x l IH]; intro idx; simpl; [| rewrite IH]; reflexivity. Qed.

(** ** The final sort and numbering *)

Lemma insertDay_after d : forall sorted,
  Forall (fun x => (dateObj x <= dateObj d)%Z) sorted ->
  insertDay d sorted = sorted ++ [d].
Proof.
  induction sorted as [| x r IH]; intro Hall; simpl.
  - reflexivity.
  - inversion Hall as [| ? ? Hx Hr]; subst.
    destruct (Z.leb_spec (dateObj x) (dateObj d)); [| lia].
    now rewrite IH.
Qed.

Lemma sorted_prefix_le (l1 : list Z) x l2 :
  StronglySorted Z.le (l1 ++ x :: l2) -> Forall (fun y => (y <= x)%Z) l1.
Proof.
  induction l1 as [| y l1 IH]; intro Hs; simpl in *.
  - constructor.
  - apply StronglySorted_inv in Hs. destruct Hs as [Hs Hall]. constructor.
    + rewrite Forall_forall in Hall. apply Hall. apply in_or_app. right. now left.
    + now apply IH.
Qed.

Lemma sort_fold_sorted l : forall acc,
  StronglySorted Z.le (map dateObj (acc ++ l)) ->
  fold_left (fun acc d => insertDay d acc) l acc = acc ++ l.
Proof.
  induction l as [| d l IH]; intros acc Hs; simpl.
  - now rewrite app_nil_r.
  - rewrite insertDay_after.
    + rewrite IH; rewrite <- app_assoc; [reflexivity | exact Hs].
    + rewrite map_app in Hs. simpl in Hs. apply sorted_prefix_le in Hs.
      rewrite Forall_map in Hs. exact Hs.
Qed.

(** Days pushed in ascending date order are left in place by the sort. *)
Lemma sortDays_sorted l :
  StronglySorted Z.le (map dateObj l) -> sortDays l = l.
Proof. intro Hs. unfold sortDays. now rewrite sort_fold_sorted. Qed.

Lemma insertDay_length d : forall sorted,
  List.length (insertDay d sorted) = S (List.length sorted).
Proof.
  induction sorted as [| x r IH]; simpl; auto.
  destruct (dateObj x <=? dateObj d)%Z; simpl; auto.
Qed.

Lemma sortDays_length l : List.length (sortDays l) = List.length l.
Proof.
  unfold sortDays.
  assert (H : forall acc, List.length (fold_left (fun acc d => insertDay d acc) l acc)
                          = (List.length acc + List.length l)%nat).
  { induction l as [| d l IH]; intro acc; simpl; [lia |].
    rewrite IH, insertDay_length. lia. }
  now rewrite H.
Qed.

Lemma insertDay_In x d : forall sorted,
  In x (insertDay d sorted) <-> x = d \/ In x sorted.
Proof.
  induction sorted as [| y r IH]; simpl.
  - intuition.
  - destruct (dateObj y <=? dateObj d)%Z; simpl; rewrite ?IH; intuition.
Qed.

Lemma sortDays_In x l : In x (sortDays l) <-> In x l.
Proof.
  unfold sortDays.
  assert (H : forall acc, In x (fold_left (fun acc d => insertDay d acc) l acc)
                          <-> In x acc \/ In x l).
  { induction l as [| d l IH]; intro acc; simpl; [intuition |].
    rewrite IH, insertDay_In. intuition. }
  rewrite H. simpl. intuition.
Qed.

Lemma numberDays_length l : List.length (numberDays l) = List.length l.
Proof. apply mapFrom_length. Qed.

Lemma numberDays_unfold l : numberDays l = mapFrom numbered l 0.
Proof. reflexivity. Qed.

Lemma numbered_items l : forall idx, map items (mapFrom numbered l idx) = map items l.
Proof. induction l as [| d l IH]; intro idx; simpl; [| rewrite IH]; reflexivity. Qed.

Lemma numbered_dateObj l : forall idx, map dateObj (mapFrom numbered l idx) = map dateObj l.
Proof. induction l as [| d l IH]; intro idx; simpl; [| rewrite IH]; reflexivity. Qed.

Lemma numbered_day l : forall idx,
  map day (mapFrom numbered l idx)
  = map (fun i => Some (i + 1)%nat) (seq idx (List.length l)).
Proof. induction l as [| d l IH]; intro idx; simpl; [| rewrite IH]; reflexivity. Qed.

Lemma numberDays_items l : map items (numberDays l) = map items l.
Proof. rewrite numberDays_unfold. apply numbered_items. Qed.

Lemma numberDays_dateObj l : map dateObj (numberDays l) = map dateObj l.
Proof. rewrite numberDays_unfold. apply numbered_dateObj. Qed.

Lemma numberDays_day l :
  map day (numberDays l) = map (fun i => Some (i + 1)%nat) (seq 0 (List.length l)).
Proof. rewrite numberDays_unfold. apply numbered_day. Qed.

Lemma numberDays_cons d l :
  numberDays (d :: l)
  = {| day := Some 1%nat; dateObj := dateObj d; items := items d |}
      :: tl (numberDays (d :: l)).
Proof. reflexivity. Qed.

Lemma numberDays_last l d dflt :
  last (numberDays (l ++ [d])) dflt
  = {| day := Some (List.length l + 1)%nat; dateObj := dateObj d; items := items d |}.
Proof.
  unfold numberDays, mapi. rewrite mapFrom_app. simpl. apply last_last.
Qed.

End ItineraryFacts.

(* ===================================================================== *)
(** * Facts: the current assembler *)
(* ===================================================================== *)

Module AssemblerFacts.
Import JsString JsDate JsArray Itinerary Assembler Examples JsDateFacts ItineraryFacts.
Import TripStore(MustDoActivity).

(** ** The distribution plan *)

Lemma firstn2_past {A : Type} (l : list A) k :
  (List.length l <= k)%nat -> firstn 2 (skipn k l) = [].
Proof. intro H. now rewrite skipn_all2. Qed.

(** Day [i] of the plan holds the next two must-do activities in list
    order, as long as any are left. *)
Lemma distribute_plan (l : list MustDoActivity) : forall D idx,
  distribute D idx l = map (fun i => firstn 2 (skipn (idx + 2 * i) l)) (seq 0 D).
Proof.
  induction D as [| D IH]; intro idx; [reflexivity |].
  cbn [distribute seq map].
  set (count := Nat.min 2 (List.length l - idx)).
  assert (Htail : forall idx', idx' = (idx + count)%nat ->
            distribute D idx' l
            = map (fun i => firstn 2 (skipn (idx + 2 * i) l)) (seq 1 D)).
  { intros idx' ->. rewrite IH, <- seq_shift, map_map. apply map_ext. intro i.
    destruct (Nat.le_gt_cases 2 (List.length l - idx)) as [Hfull | Hshort].
    - f_equal. f_equal. unfold count. lia.
    - rewrite !firstn2_past; [reflexivity | lia | unfold count; lia]. }
  destruct (Nat.ltb_spec 0 count) as [Hpos | Hzero].
  - f_equal.
    + rewrite slice_nat. replace (idx + count - idx)%nat with count by lia.
      rewrite Nat.add_0_r. unfold count.
      rewrite <- (length_skipn idx l). apply firstn_min_length.
    + now apply Htail.
  - f_equal.
    + rewrite Nat.add_0_r. symmetry. apply firstn2_past. unfold count in Hzero. lia.
    + apply Htail. lia.
Qed.

Lemma distribute_length (l : list MustDoActivity) D idx :
  List.length (distribute D idx l) = D.
Proof. now rewrite distribute_plan, length_map, length_seq. Qed.

Lemma distribute_nth (l : list MustDoActivity) D i :
  (i < D)%nat -> nth i (distribute D 0 l) [] = firstn 2 (skipn (2 * i) l).
Proof.
  intro Hi. rewrite distribute_plan.
  set (f := fun i => firstn 2 (skipn (0 + 2 * i) l)).
  rewrite (nth_indep _ [] (f 0%nat)) by now rewrite length_map, length_seq.
  rewrite (map_nth f), seq_nth by assumption. reflexivity.
Qed.

Lemma firstn_add {A : Type} a b : forall l : list A,
  firstn (a + b) l = firstn a l ++ firstn b (skipn a l).
Proof.
  induction a as [| a IH]; intro l; simpl; [reflexivity |].
  destruct l as [| x l]; simpl.
  - now rewrite firstn_nil.
  - now rewrite IH.
Qed.

(** Over [D] days the plan holds the first [2 * D] must-do activities,
    in order. *)
Lemma distribute_concat D : forall l : list MustDoActivity,
  List.concat (distribute D 0 l) = firstn (2 * D) l.
Proof.
  intro l. rewrite distribute_plan. revert l.
  induction D as [| D IH]; intro l; [reflexivity |].
  cbn [seq map List.concat]. rewrite <- seq_shift, map_map.
  replace (2 * S D)%nat with (2 + 2 * D)%nat by lia.
  rewrite firstn_add. f_equal.
  rewrite <- IH. f_equal. apply map_ext. intro i.
  cbn [Nat.add]. rewrite skipn_skipn. do 2 f_equal. lia.
Qed.

(** ** Items of an interior day *)

Lemma forEach_addMustDo (l : list MustDoActivity) : forall idx acc,
  exists placed,
    forEachFrom addMustDo l idx acc = acc ++ placed
    /\ map title placed = map TripStore.name l
    /\ Forall mustDoItem placed.
Proof.
  induction l as [| m l IH]; intros idx acc; simpl.
  - exists []. rewrite app_nil_r. repeat split; constructor.
  - destruct (IH (S idx) (addMustDo acc m idx)) as [placed [Heq [Ht Hall]]].
    eexists. split; [| split].
    + rewrite Heq. unfold addMustDo. rewrite <- app_assoc. simpl. reflexivity.
    + simpl. now rewrite Ht.
    + constructor; [| exact Hall]. repeat split.
Qed.

Lemma forEach_addRegular (l : list Activity) : forall idx acc,
  exists placed,
    forEachFrom addRegular l idx acc = acc ++ placed
    /\ List.length placed = List.length l
    /\ Forall regularItem placed.
Proof.
  induction l as [| a l IH]; intros idx acc; simpl.
  - exists []. rewrite app_nil_r. repeat split; constructor.
  - destruct (IH (S idx) (addRegular acc a idx)) as [placed [Heq [Hl Hall]]].
    eexists. split; [| split].
    + rewrite Heq. unfold addRegular. rewrite <- app_assoc. simpl. reflexivity.
    + simpl. now rewrite Hl.
    + constructor; [| exact Hall]. repeat split.
Qed.

(** An interior day is: its must-do items, then regular items (none when
    the filtered pool is empty), then the [Open Exploration] card when no
    activity was placed, then the hotel stay. *)
Lemma interiorItems_shape hotelSel dist filtered D i :
  exists mustDos regulars,
    interiorItems hotelSel dist filtered D i
    = mustDos ++ regulars
        ++ (if existsb realActivity (mustDos ++ regulars) then [] else [openExploration])
        ++ hotelItems hotelSel "Overnight"
    /\ map title mustDos = map TripStore.name (nth i dist [])
    /\ Forall mustDoItem mustDos
    /\ Forall regularItem regulars
    /\ (filtered = [] -> regulars = []).
Proof.
  unfold interiorItems, forEach.
  destruct (forEach_addMustDo (nth i dist []) 0 []) as [mustDos [Hm [Ht Hall]]].
  simpl in Hm. rewrite Hm.
  match goal with
  | |- context [if ?c then forEachFrom addRegular ?l 0%nat mustDos else mustDos] =>
      destruct c eqn:Hcond;
      [destruct (forEach_addRegular l 0 mustDos) as [regulars [Hr [Hlen Hreg]]] |]
  end.
  - exists mustDos, regulars. rewrite Hr. repeat split; auto.
    + destruct (existsb realActivity (mustDos ++ regulars));
        now rewrite <- ?app_assoc.
    + intros ->. simpl in Hcond. rewrite andb_false_r in Hcond. discriminate.
  - exists mustDos, []. rewrite app_nil_r. repeat split; auto.
    destruct (existsb realActivity mustDos); now rewrite <- ?app_assoc.
Qed.

Lemma sorted_lt_le l : StronglySorted Z.lt l -> StronglySorted Z.le l.
Proof.
  induction 1 as [| x l Hs IH Hall]; constructor; auto.
  eapply Forall_impl; [| exact Hall]. intros; lia.
Qed.

Lemma mapFrom_day_items (g : nat -> list Item) (l : list Z) : forall idx,
  map items (mapFrom (fun currentDate i =>
                        {| day := None; dateObj := currentDate; items := g i |}) l idx)
  = map g (seq idx (List.length l)).
Proof. induction l as [| x l IH]; intro idx; simpl; [| rewrite IH]; reflexivity. Qed.

Lemma mapFrom_day_dateObj (g : nat -> list Item) (l : list Z) : forall idx,
  map dateObj (mapFrom (fun currentDate i =>
                          {| day := None; dateObj := currentDate; items := g i |}) l idx)
  = l.
Proof. induction l as [| x l IH]; intro idx; simpl; [| rewrite IH]; reflexivity. Qed.

(** [l.slice(1, -1)]: the list without its first and its last entry. *)
Lemma slice_inner {A : Type} (x : A) (l : list A) :
  slice (x :: l) 1 (-1) = firstn (List.length l - 1) l.
Proof.
  unfold slice. cbn [List.length].
  assert (H1 : clampIndex (Z.of_nat (S (List.length l))) 1 = 1%Z).
  { unfold clampIndex. destruct (Z.ltb_spec 1 0); lia. }
  assert (H2 : clampIndex (Z.of_nat (S (List.length l))) (-1) = Z.of_nat (List.length l)).
  { unfold clampIndex. destruct (Z.ltb_spec (-1) 0); lia. }
  rewrite H1, H2.
  replace (Z.to_nat (Z.max (Z.of_nat (List.length l) - 1) 0))
    with (List.length l - 1)%nat by lia.
  reflexivity.
Qed.

Lemma inner_then_last (x : Z) (l : list Z) d :
  l <> [] -> firstn (List.length l - 1) l ++ [last (x :: l) d] = l.
Proof.
  intro Hne. rewrite (JsDateFacts.last_cons_default x d d l Hne).
  replace (List.length l - 1)%nat with (pred (List.length l)) by lia.
  rewrite <- removelast_firstn_len. symmetry. now apply app_removelast_last.
Qed.

Lemma pushed_dates ts flightSel hotelSel allActivities returnFlight x l :
  map dateObj (pushed ts flightSel hotelSel allActivities returnFlight (x :: l))
  = x :: match l with [] => [x] | _ => l end.
Proof.
  unfold pushed, mapi. cbn [map hd]. rewrite map_app. cbn [map dateObj].
  rewrite mapFrom_day_dateObj, slice_inner. f_equal.
  destruct l as [| y l']; [reflexivity |].
  now apply inner_then_last.
Qed.

Lemma pushed_sorted ts flightSel hotelSel allActivities returnFlight x l :
  StronglySorted Z.lt (x :: l) ->
  StronglySorted Z.le
    (map dateObj (pushed ts flightSel hotelSel allActivities returnFlight (x :: l))).
Proof.
  intro Hs. rewrite pushed_dates. destruct l as [| y l'].
  - repeat constructor. lia.
  - now apply sorted_lt_le.
Qed.

Lemma pushed_items ts flightSel hotelSel allActivities returnFlight x l :
  let D := List.length (slice (x :: l) 1 (-1)) in
  map items (pushed ts flightSel hotelSel allActivities returnFlight (x :: l))
  = day1Items flightSel hotelSel
      :: map (interiorItems hotelSel (planOf ts D) (poolOf ts allActivities) D) (seq 0 D)
      ++ [lastDayItems returnFlight].
Proof.
  intro D. unfold pushed, mapi. cbn [map items]. rewrite map_app. cbn [map items].
  now rewrite mapFrom_day_items.
Qed.

Section Host.
Variable parseDateString : string -> option Z.
Variable nextDay : Z -> Z.

(** The range of a window whose end is not before its start begins with
    the start. *)
Lemma range_begins startT endT :
  (startT <= endT)%Z ->
  exists rest,
    buildDateRange parseDateString nextDay (DObj (ValidDate startT)) (DObj (ValidDate endT))
    = startT :: rest.
Proof.
  intro Hle. rewrite buildDateRange_objects.
  pose proof (rangeFuel_positive _ _ Hle) as Hpos.
  destruct (rangeFuel startT endT) as [| fuel]; [lia |].
  rewrite dateLoop_head by assumption. eauto.
Qed.

(** Start and end at the same instant: the single day 1. *)
Lemma layOut_one_way ts flightSel hotelSel allActivities returnFlight startT :
  layOut parseDateString nextDay ts flightSel hotelSel allActivities returnFlight
         startT startT
  = [ {| day := Some 1%nat; dateObj := startT; items := day1Items flightSel hotelSel |} ].
Proof.
  unfold layOut.
  rewrite (buildDateRange_single parseDateString nextDay
             (DObj (ValidDate startT)) (DObj (ValidDate startT)) startT eq_refl
             (or_intror eq_refl)).
  now rewrite Z.eqb_refl.
Qed.

(** An end before the start: the range is empty and so is the result. *)
Lemma layOut_backwards ts flightSel hotelSel allActivities returnFlight startT endT :
  (endT < startT)%Z ->
  layOut parseDateString nextDay ts flightSel hotelSel allActivities returnFlight
         startT endT = [].
Proof.
  intro Hlt. unfold layOut. rewrite buildDateRange_objects, dateLoop_past by lia.
  simpl. now rewrite andb_false_r.
Qed.

Section Advancing.
(** The host's [setDate(getDate() + 1)] moves the clock forward. *)
Hypothesis Hadv : advances nextDay.

(** A round trip: day 1, the interior days, the last day, in that
    order; the sort leaves them in place. *)
Lemma layOut_round_trip ts flightSel hotelSel allActivities returnFlight startT endT :
  (startT < endT)%Z ->
  layOut parseDateString nextDay ts flightSel hotelSel allActivities returnFlight
         startT endT
  = numberDays (pushed ts flightSel hotelSel allActivities returnFlight
                       (buildDateRange parseDateString nextDay
                          (DObj (ValidDate startT)) (DObj (ValidDate endT)))).
Proof.
  intro Hlt. unfold layOut.
  pose proof (buildDateRange_ascending parseDateString nextDay Hadv
                (DObj (ValidDate startT)) (DObj (ValidDate endT))) as Hsorted.
  destruct (range_begins startT endT ltac:(lia)) as [rest Hr].
  rewrite Hr in *.
  destruct (Z.eqb_spec endT startT) as [Heq | _]; [lia |].
  cbn [negb andb List.length]. change (0 <? S (List.length rest))%nat with true.
  cbv iota.
  assert (Hmid :
    (if (1 <? S (List.length rest))%nat
     then let mids := middleDays true (startT :: rest) in
          mapi (fun currentDate i =>
                  {| day := None; dateObj := currentDate;
                     items := interiorItems hotelSel
                                (distribute (List.length mids) 0 (ts_mustDoActivities ts))
                                (filteredRegularActivities (ts_preferences ts)
                                   (regularActivities (ts_mustDoActivities ts) allActivities))
                                (List.length mids) i |}) mids
     else [])
    = mapi (fun currentDate i =>
              {| day := None; dateObj := currentDate;
                 items := interiorItems hotelSel
                            (planOf ts (List.length (slice (startT :: rest) 1 (-1))))
                            (poolOf ts allActivities)
                            (List.length (slice (startT :: rest) 1 (-1))) i |})
           (slice (startT :: rest) 1 (-1))).
  { destruct (Nat.ltb_spec 1 (S (List.length rest))) as [Hk | Hk].
    - reflexivity.
    - rewrite slice_inner. replace (List.length rest - 1)%nat with 0%nat by lia.
      reflexivity. }
  cbv zeta in Hmid |- *. rewrite Hmid.
  f_equal. apply sortDays_sorted.
  exact (pushed_sorted ts flightSel hotelSel allActivities returnFlight startT rest Hsorted).
Qed.

Lemma layOut_items ts flightSel hotelSel allActivities returnFlight startT endT :
  (startT < endT)%Z ->
  let D := interiorDayCount parseDateString nextDay startT endT in
  map items (layOut parseDateString nextDay ts flightSel hotelSel allActivities returnFlight
                    startT endT)
  = day1Items flightSel hotelSel
      :: map (interiorItems hotelSel (planOf ts D) (poolOf ts allActivities) D) (seq 0 D)
      ++ [lastDayItems returnFlight].
Proof.
  intros Hlt D. unfold D, interiorDayCount, middleDays.
  rewrite layOut_round_trip, numberDays_items by assumption.
  destruct (range_begins startT endT ltac:(lia)) as [rest ->].
  apply pushed_items.
Qed.

Lemma layOut_length ts flightSel hotelSel allActivities returnFlight startT endT :
  (startT < endT)%Z ->
  List.length (layOut parseDateString nextDay ts flightSel hotelSel allActivities returnFlight
                      startT endT)
  = (interiorDayCount parseDateString nextDay startT endT + 2)%nat.
Proof.
  intro Hlt.
  rewrite <- (length_map items), layOut_items by assumption.
  cbn [List.length]. rewrite length_app, length_map, length_seq. simpl. lia.
Qed.

Lemma layOut_interior ts flightSel hotelSel allActivities returnFlight startT endT i :
  (startT < endT)%Z ->
  let D := interiorDayCount parseDateString nextDay startT endT in
  (i < D)%nat ->
  items (nth (S i) (layOut parseDateString nextDay ts flightSel hotelSel allActivities
                           returnFlight startT endT) noDay)
  = interiorItems hotelSel (planOf ts D) (poolOf ts allActivities) D i.
Proof.
  intros Hlt D Hi.
  rewrite <- (map_nth items), layOut_items by assumption. fold D.
  cbn [nth]. rewrite app_nth1 by now rewrite length_map, length_seq.
  set (g := interiorItems hotelSel (planOf ts D) (poolOf ts allActivities) D).
  rewrite (nth_indep _ _ (g 0%nat)) by now rewrite length_map, length_seq.
  rewrite (map_nth g), seq_nth by assumption. reflexivity.
Qed.

Lemma createDayByDayItinerary_resolved ts flightSel hotelSel allActivities
      startDate endDate returnFlight startT endT :
  resolveWindow parseDateString ts startDate endDate = Return (startT, endT) ->
  createDayByDayItinerary parseDateString nextDay ts flightSel hotelSel allActivities
                          startDate endDate returnFlight
  = Return (layOut parseDateString nextDay ts flightSel hotelSel allActivities returnFlight
                   startT endT).
Proof. intro H. unfold createDayByDayItinerary. now rewrite H. Qed.

End Advancing.
End Host.

(** ** Must-do items of a day *)

Lemma filter_all {A : Type} (f : A -> bool) (l : list A) :
  Forall (fun x => f x = true) l -> filter f l = l.
Proof.
  induction 1 as [| x l Hx _ IH]; simpl; [reflexivity |]. now rewrite Hx, IH.
Qed.

Lemma filter_none {A : Type} (f : A -> bool) (l : list A) :
  Forall (fun x => f x = false) l -> filter f l = [].
Proof.
  induction 1 as [| x l Hx _ IH]; simpl; [reflexivity |]. now rewrite Hx, IH.
Qed.

Lemma hotelItems_not_mustDo hotelSel tm : filter isMustDo (hotelItems hotelSel tm) = [].
Proof. unfold hotelItems. now destruct (hotelPresent hotelSel). Qed.

Lemma interiorItems_mustDo hotelSel dist filtered D i :
  map title (filter isMustDo (interiorItems hotelSel dist filtered D i))
  = map TripStore.name (nth i dist []).
Proof.
  destruct (interiorItems_shape hotelSel dist filtered D i)
    as [mustDos [regulars [Heq [Ht [Hm [Hr _]]]]]].
  rewrite Heq, !filter_app, hotelItems_not_mustDo.
  rewrite (filter_all isMustDo mustDos)
    by (eapply Forall_impl; [| exact Hm]; intros it H; apply H).
  rewrite (filter_none isMustDo regulars)
    by (eapply Forall_impl; [| exact Hr]; intros it H; apply H).
  destruct (existsb realActivity (mustDos ++ regulars)); simpl;
    now rewrite app_nil_r.
Qed.

Lemma day1Items_not_mustDo flightSel hotelSel :
  filter isMustDo (day1Items flightSel hotelSel) = [].
Proof.
  unfold day1Items. rewrite filter_app, hotelItems_not_mustDo.
  destruct flightSel as [f |]; [destruct (realFlight f) |]; reflexivity.
Qed.

Lemma lastDayItems_not_mustDo returnFlight :
  filter isMustDo (lastDayItems returnFlight) = [].
Proof.
  unfold lastDayItems.
  destruct returnFlight as [f |]; [destruct (realFlight f) |]; reflexivity.
Qed.

Section Claims.
Variable parseDateString : string -> option Z.
Variable nextDay : Z -> Z.
(** The host's [setDate(getDate() + 1)] moves the clock forward. *)
Hypothesis Hadv : advances nextDay.

Lemma interior_mustDoTitles ts flightSel hotelSel allActivities returnFlight s e i :
  (s < e)%Z ->
  (i < interiorDayCount parseDateString nextDay s e)%nat ->
  mustDoTitles (nth (S i) (layOut parseDateString nextDay ts flightSel hotelSel allActivities
                                  returnFlight s e) noDay)
  = map TripStore.name (firstn 2 (skipn (2 * i) (ts_mustDoActivities ts))).
Proof.
  intros Hlt Hi. unfold mustDoTitles.
  rewrite layOut_interior, interiorItems_mustDo by assumption.
  unfold planOf. now rewrite distribute_nth.
Qed.

(** What the distribution loop does.  For a round trip with [D] interior
    days and [M] must-do activities, the must-do activities are dealt
    out in list order, two to an interior day from the first interior
    day on, until none is left: interior day [i], counting from 0,
    receives [min 2 (M - 2 i)] of them.  That is [min 2 (ceil (M / D))]
    on every interior day when [M = 0], [D = 1] or [M >= 2 D]. *)
Theorem must_do_per_day ts flightSel hotelSel allActivities startDate endDate
        returnFlight s e :
  resolveWindow parseDateString ts startDate endDate = Return (s, e) ->
  (s < e)%Z ->
  let D := interiorDayCount parseDateString nextDay s e in
  let M := List.length (ts_mustDoActivities ts) in
  exists days,
    createDayByDayItinerary parseDateString nextDay ts flightSel hotelSel allActivities
                            startDate endDate returnFlight = Return days
    /\ List.length days = (D + 2)%nat
    /\ (forall i, (i < D)%nat ->
                  List.length (mustDoTitles (nth (S i) days noDay))
                  = Nat.min 2 (M - 2 * i))
    /\ (M = 0%nat \/ D = 1%nat \/ (2 * D <= M)%nat ->
        forall i, (i < D)%nat ->
                  List.length (mustDoTitles (nth (S i) days noDay))
                  = Nat.min 2 (mustDoPerDay M D)).
Proof.
  intros Hres Hlt D M.
  assert (Hcount : forall i, (i < D)%nat ->
            List.length (mustDoTitles
                           (nth (S i) (layOut parseDateString nextDay ts flightSel hotelSel
                                              allActivities returnFlight s e) noDay))
            = Nat.min 2 (M - 2 * i)).
  { intros i Hi. rewrite interior_mustDoTitles by assumption.
    rewrite length_map, length_firstn, length_skipn. reflexivity. }
  exists (layOut parseDateString nextDay ts flightSel hotelSel allActivities returnFlight s e).
  split; [apply createDayByDayItinerary_resolved; exact Hres |].
  split; [now apply layOut_length |]. split; [exact Hcount |].
  clearbody D M. intros Hcase i Hi. rewrite Hcount by assumption.
  unfold mustDoPerDay, JsArray.ceilDiv.
  destruct (Nat.ltb_spec 0 D) as [HD | HD]; [| lia].
  destruct Hcase as [HM | [HD1 | Hfull]].
  - rewrite HM. simpl (0 - _)%nat. rewrite Nat.div_small by lia. reflexivity.
  - rewrite HD1 in *. assert (i = 0%nat) as -> by lia.
    replace (M + 1 - 1)%nat with M by lia. rewrite Nat.div_1_r. f_equal. lia.
  - assert (2 <= (M + D - 1) / D)%nat by (apply Nat.div_le_lower_bound; lia).
    lia.
Qed.

Lemma map_nth_seq {A : Type} (d : A) : forall l : list A,
  map (fun i => nth i l d) (seq 0 (List.length l)) = l.
Proof.
  induction l as [| x l IH]; [reflexivity |].
  cbn [List.length seq map nth]. rewrite <- seq_shift, map_map. simpl. now rewrite IH.
Qed.

(** All must-do items of the itinerary, day after day: the first [2 D]
    must-do activities, in list order. *)
Lemma all_mustDoTitles ts flightSel hotelSel allActivities returnFlight s e :
  (s < e)%Z ->
  List.concat (map mustDoTitles
                   (layOut parseDateString nextDay ts flightSel hotelSel allActivities
                           returnFlight s e))
  = map TripStore.name
        (firstn (2 * interiorDayCount parseDateString nextDay s e) (ts_mustDoActivities ts)).
Proof.
  intro Hlt.
  change mustDoTitles with (fun d => map title (filter isMustDo (items d))).
  rewrite <- (map_map items (fun its => map title (filter isMustDo its))).
  rewrite layOut_items by assumption.
  set (D := interiorDayCount parseDateString nextDay s e).
  cbn [map]. rewrite map_app, map_map. cbn [map].
  rewrite day1Items_not_mustDo, lastDayItems_not_mustDo. cbn [map List.concat].
  rewrite concat_app. cbn [List.concat]. rewrite !app_nil_r.
  rewrite (map_ext _ (fun i => map TripStore.name (nth i (planOf ts D) [])))
    by (intro i; apply interiorItems_mustDo).
  rewrite <- (map_map (fun i => nth i (planOf ts D) []) (map TripStore.name)).
  replace (seq 0 D) with (seq 0 (List.length (planOf ts D)))
    by (unfold planOf; now rewrite distribute_length).
  rewrite map_nth_seq, <- concat_map. unfold planOf. now rewrite distribute_concat.
Qed.

Lemma count_concat_zero (ls : list (list string)) x :
  count_occ string_dec (List.concat ls) x = 0%nat ->
  forall j, count_occ string_dec (nth j ls []) x = 0%nat.
Proof.
  induction ls as [| l ls IH]; intros Hc j.
  - now destruct j.
  - simpl in Hc. rewrite count_occ_app in Hc. destruct j as [| j]; simpl.
    + lia.
    + apply IH. lia.
Qed.

Lemma count_concat_one (ls : list (list string)) x :
  count_occ string_dec (List.concat ls) x = 1%nat ->
  exists i, (i < List.length ls)%nat
            /\ count_occ string_dec (nth i ls []) x = 1%nat
            /\ forall j, j <> i -> count_occ string_dec (nth j ls []) x = 0%nat.
Proof.
  induction ls as [| l ls IH]; intro Hc; [discriminate |].
  simpl in Hc. rewrite count_occ_app in Hc.
  destruct (count_occ string_dec l x) as [| [| n]] eqn:Hl.
  - destruct (IH Hc) as [i [Hi [Hone Hrest]]]. exists (S i). repeat split.
    + simpl. lia.
    + exact Hone.
    + intros [| j] Hj; simpl; [exact Hl |]. apply Hrest. lia.
  - exists 0%nat. repeat split.
    + simpl. lia.
    + exact Hl.
    + intros [| j] Hj; [lia |]. simpl. apply count_concat_zero. lia.
  - lia.
Qed.

(** C2, within the cap of two a day.
    For a round trip with [D] interior days, the
    must-do items placed on the days of the itinerary are, in order,
    the first [2 D] must-do activities of the list, each placed once;
    later ones are left out.  So when there are at most [2 D] must-do
    activities (with pairwise different names), each of them appears in
    the items of exactly one day: once there and on no other day.
    The host's [setDate(getDate() + 1)] is taken to move the clock
    forward, as the date loop needs to terminate. *)
Theorem must_do_exactly_once ts flightSel hotelSel allActivities startDate endDate
        returnFlight s e :
  resolveWindow parseDateString ts startDate endDate = Return (s, e) ->
  (s < e)%Z ->
  let D := interiorDayCount parseDateString nextDay s e in
  let mustDos := ts_mustDoActivities ts in
  exists days,
    createDayByDayItinerary parseDateString nextDay ts flightSel hotelSel allActivities
                            startDate endDate returnFlight = Return days
    /\ List.concat (map mustDoTitles days)
       = map TripStore.name (firstn (2 * D) mustDos)
    /\ ((List.length mustDos <= 2 * D)%nat ->
        NoDup (map TripStore.name mustDos) ->
        forall m, In m mustDos ->
          exists i, (i < List.length days)%nat
            /\ count_occ string_dec (mustDoTitles (nth i days noDay))
                         (TripStore.name m) = 1%nat
            /\ forall j, j <> i ->
                  count_occ string_dec (mustDoTitles (nth j days noDay))
                            (TripStore.name m) = 0%nat).
Proof.
  intros Hres Hlt D mustDos.
  exists (layOut parseDateString nextDay ts flightSel hotelSel allActivities returnFlight s e).
  split; [apply createDayByDayItinerary_resolved; exact Hres |].
  split; [now apply all_mustDoTitles |].
  intros Hfit Hnd m Hm.
  pose proof (all_mustDoTitles ts flightSel hotelSel allActivities returnFlight s e Hlt)
    as Hall.
  fold D mustDos in Hall. rewrite firstn_all2 in Hall by assumption.
  assert (Hone : count_occ string_dec
                   (List.concat (map mustDoTitles
                      (layOut parseDateString nextDay ts flightSel hotelSel allActivities
                              returnFlight s e))) (TripStore.name m) = 1%nat).
  { rewrite Hall. apply NoDup_count_occ'; [exact Hnd | now apply in_map]. }
  destruct (count_concat_one _ _ Hone) as [i [Hi [Hat Hrest]]].
  rewrite length_map in Hi.
  exists i. split; [exact Hi | split].
  - rewrite <- Hat. change (@nil string) with (mustDoTitles noDay).
    now rewrite map_nth.
  - intros j Hj. rewrite <- (Hrest j Hj). change (@nil string) with (mustDoTitles noDay).
    now rewrite map_nth.
Qed.

(** C6, without fallback.
    When the preference filter leaves no regular
    activity, there is no fallback to the unfiltered pool: every interior
    day is built from the empty pool, so each activity item on it is a
    must-do item or the [Open Exploration] card, and an interior day
    without must-do items consists of that card and the hotel stay.
    The host's [setDate(getDate() + 1)] is taken to move the clock
    forward, as the date loop needs to terminate. *)
Theorem empty_filter_no_fallback ts flightSel hotelSel allActivities startDate endDate
        returnFlight s e :
  resolveWindow parseDateString ts startDate endDate = Return (s, e) ->
  (s < e)%Z ->
  poolOf ts allActivities = [] ->
  let D := interiorDayCount parseDateString nextDay s e in
  exists days,
    createDayByDayItinerary parseDateString nextDay ts flightSel hotelSel allActivities
                            startDate endDate returnFlight = Return days
    /\ forall i, (i < D)%nat ->
         let its := items (nth (S i) days noDay) in
         its = interiorItems hotelSel (planOf ts D) [] D i
         /\ Forall (fun it => type it = activity ->
                              isMustDo it = true \/ isOpenExploration it = true) its
         /\ (nth i (planOf ts D) [] = [] ->
             its = openExploration :: hotelItems hotelSel "Overnight").
Proof.
  intros Hres Hlt Hpool D.
  exists (layOut parseDateString nextDay ts flightSel hotelSel allActivities returnFlight s e).
  split; [apply createDayByDayItinerary_resolved; exact Hres |].
  intros i Hi its. unfold its. rewrite layOut_interior by assumption. fold D.
  rewrite Hpool. split; [reflexivity |].
  destruct (interiorItems_shape hotelSel (planOf ts D) [] D i)
    as [mustDos [regulars [Heq [Ht [Hm [_ Hnone]]]]]].
  rewrite (Hnone eq_refl) in Heq. rewrite app_nil_r in Heq. simpl in Heq.
  rewrite Heq. split.
  - apply Forall_app. split.
    + eapply Forall_impl; [| exact Hm]. intros it [H _] _. now left.
    + apply Forall_app. split.
      * destruct (existsb realActivity mustDos);
          [constructor | constructor; [intros _; now right | constructor]].
      * unfold hotelItems. destruct (hotelPresent hotelSel);
          [constructor; [intro H; discriminate H | constructor] | constructor].
  - intro Hempty. rewrite Hempty in Ht.
    destruct mustDos as [| x r]; [reflexivity | discriminate].
Qed.

Lemma resolveDate_absent tripDate param :
  truthyArg tripDate = false -> truthyArg param = false ->
  resolveDate parseDateString tripDate param = None.
Proof.
  intros Ht Hp. unfold resolveDate, orArg. rewrite Ht, Hp.
  destruct param; [reflexivity | discriminate | reflexivity].
Qed.

(** C5.  A one-way trip is, as the code tests it, a window whose end
    date does not resolve to a valid date (it is missing, does not parse
    or is an invalid date) or resolves to the very instant of the start
    (the caller passes the departure date as end date when there is no
    return).  For every such window the assembled itinerary has exactly
    one day; and it is assembled whenever the start date resolves: the
    single day is day 1, on the start date. *)
Theorem one_way_single_day ts flightSel hotelSel allActivities startDate endDate
        returnFlight :
  validTime (resolveDate parseDateString (ts_endDate ts) endDate) = None
  \/ validTime (resolveDate parseDateString (ts_endDate ts) endDate)
     = validTime (resolveDate parseDateString (ts_startDate ts) startDate) ->
  (forall days,
      createDayByDayItinerary parseDateString nextDay ts flightSel hotelSel allActivities
                              startDate endDate returnFlight = Return days ->
      List.length days = 1%nat)
  /\ (forall s,
         validTime (resolveDate parseDateString (ts_startDate ts) startDate) = Some s ->
         createDayByDayItinerary parseDateString nextDay ts flightSel hotelSel allActivities
                                 startDate endDate returnFlight
         = Return [ {| day := Some 1%nat; dateObj := s;
                       items := day1Items flightSel hotelSel |} ]).
Proof.
  intros Hend.
  assert (Hcase : forall s,
             validTime (resolveDate parseDateString (ts_startDate ts) startDate) = Some s ->
             createDayByDayItinerary parseDateString nextDay ts flightSel hotelSel
                                     allActivities startDate endDate returnFlight
             = Return [ {| day := Some 1%nat; dateObj := s;
                           items := day1Items flightSel hotelSel |} ]).
  { intros s Hs. unfold createDayByDayItinerary, resolveWindow. rewrite Hs.
    destruct Hend as [Hnone | Hsame].
    - rewrite Hnone. now rewrite layOut_one_way.
    - rewrite Hsame, Hs. now rewrite layOut_one_way. }
  split; [| exact Hcase].
  intros days Hdays.
  destruct (validTime (resolveDate parseDateString (ts_startDate ts) startDate))
    as [s |] eqn:Hs.
  - rewrite (Hcase s eq_refl) in Hdays. injection Hdays as <-. reflexivity.
  - unfold createDayByDayItinerary, resolveWindow in Hdays. rewrite Hs in Hdays.
    discriminate.
Qed.

Lemma day1Items_placeholder flightSel hotelSel :
  flightMissing flightSel = true ->
  hd_error (day1Items flightSel hotelSel) = Some flightNeeded.
Proof.
  unfold flightMissing, day1Items.
  destruct flightSel as [f |]; [destruct (realFlight f); [discriminate |] |]; reflexivity.
Qed.

Lemma lastDayItems_placeholder returnFlight :
  flightMissing returnFlight = true -> lastDayItems returnFlight = [returnFlightNeeded].
Proof.
  unfold flightMissing, lastDayItems.
  destruct returnFlight as [f |]; [destruct (realFlight f); [discriminate |] |];
    reflexivity.
Qed.

(** C8, for a window that does not run backwards.
    The assembler throws exactly when the start date
    does not resolve; a missing outbound flight, return flight or hotel
    never makes it throw.  When the start resolves and the end, if any,
    is not before it, the itinerary starts with day 1 on the start date,
    whose first item is the [Flight Needed] placeholder when no real
    outbound flight is given; and on a round trip the last day, at least
    day 2, consists of the [Return Flight Needed] placeholder when no
    real return flight is given.
    The host's [setDate(getDate() + 1)] is taken to move the clock
    forward, as the date loop needs to terminate. *)
Theorem missing_parts_degrade ts flightSel hotelSel allActivities startDate endDate
        returnFlight :
  ((exists msg,
       createDayByDayItinerary parseDateString nextDay ts flightSel hotelSel allActivities
                               startDate endDate returnFlight = Throw msg)
   <-> validTime (resolveDate parseDateString (ts_startDate ts) startDate) = None)
  /\ (forall s e,
         resolveWindow parseDateString ts startDate endDate = Return (s, e) ->
         (s <= e)%Z ->
         exists d1 rest,
           createDayByDayItinerary parseDateString nextDay ts flightSel hotelSel allActivities
                                   startDate endDate returnFlight = Return (d1 :: rest)
           /\ day d1 = Some 1%nat
           /\ dateObj d1 = s
           /\ items d1 = day1Items flightSel hotelSel
           /\ (flightMissing flightSel = true ->
               hd_error (items d1) = Some flightNeeded)
           /\ (e <> s ->
               rest <> []
               /\ day (last rest noDay) = Some (S (List.length rest))
               /\ items (last rest noDay) = lastDayItems returnFlight
               /\ (flightMissing returnFlight = true ->
                   items (last rest noDay) = [returnFlightNeeded]))).
Proof.
  split.
  - unfold createDayByDayItinerary, resolveWindow.
    destruct (validTime (resolveDate parseDateString (ts_startDate ts) startDate))
      as [s |].
    + destruct (validTime (resolveDate parseDateString (ts_endDate ts) endDate));
        split; [intros [msg H] | | intros [msg H] |]; discriminate.
    + split; [reflexivity | intros _; eexists; reflexivity].
  - intros s e Hres Hle.
    rewrite (createDayByDayItinerary_resolved _ _ _ _ _ _ _ _ _ _ _ Hres).
    destruct (Z.eq_dec e s) as [-> | Hne].
    + rewrite layOut_one_way. eexists. exists []. split; [reflexivity |].
      do 3 (split; [reflexivity |]).
      split; [apply day1Items_placeholder | contradiction].
    + rewrite layOut_round_trip by (assumption || lia).
      destruct (range_begins parseDateString nextDay s e Hle) as [range Hr]. rewrite Hr.
      unfold pushed. rewrite numberDays_unfold. cbn [mapFrom hd]. rewrite mapFrom_app.
      cbn [mapFrom].
      match goal with
      | |- context [mapFrom numbered ?l 1] => set (mid := mapFrom numbered l 1);
                                               set (len := List.length l)
      end.
      assert (Hlen : List.length mid = len) by apply mapFrom_length.
      eexists. eexists. split; [reflexivity |].
      do 3 (split; [reflexivity |]).
      split; [apply day1Items_placeholder |].
      intros _. rewrite last_last. unfold numbered. cbn [day items].
      split; [| split; [| split]].
      * intro H0. apply (f_equal (@List.length Day)) in H0.
        rewrite length_app in H0. simpl in H0. lia.
      * rewrite length_app, Hlen. simpl. f_equal; lia.
      * reflexivity.
      * apply lastDayItems_placeholder.
Qed.
End Claims.

Ltac distinct_strings :=
  repeat (constructor; [simpl; intuition discriminate |]); constructor.

Lemma must_do_per_day_witness :
  exists days,
    createDayByDayItinerary parsesNothing utcNextDay (storeWith threeMustDos None) None None []
                            (onDay 0) (onDay 3) None = Return days
    /\ List.length (mustDoTitles (nth 1 days noDay)) = 2%nat
    /\ List.length (mustDoTitles (nth 2 days noDay)) = 1%nat.
Proof.
  destruct (must_do_per_day parsesNothing utcNextDay JsDateFacts.utc_advances (storeWith threeMustDos None) None None []
              (onDay 0) (onDay 3) None nov20 (nov20 + 3 * msPerDay)%Z eq_refl eq_refl)
    as [days [Hdays [_ [Hcount _]]]].
  exists days. split; [exact Hdays |]. split.
  - apply (Hcount 0%nat). vm_compute. lia.
  - apply (Hcount 1%nat). vm_compute. lia.
Defined.

(** C3.  Each interior day should receive [min 2 (ceil (M / D))] must-do
    activities.  With two must-do activities and two interior days that is
    one a day, and [mustDoPerDay] computes this 1; the loop does not read
    it: the first interior day receives both activities and the second
    none. *)
Theorem must_do_distribution_front_loaded :
  exists days,
    createDayByDayItinerary parsesNothing utcNextDay
      (storeWith [mustDo "Louvre"; mustDo "Eiffel Tower"] None) None None []
      (onDay 0) (onDay 3) None = Return days
    /\ interiorDayCount parsesNothing utcNextDay nov20 (nov20 + 3 * msPerDay) = 2%nat
    /\ Nat.min 2 (mustDoPerDay 2 2) = 1%nat
    /\ mustDoTitles (nth 1 days noDay) = ["Louvre"; "Eiffel Tower"]
    /\ mustDoTitles (nth 2 days noDay) = [].
Proof. eexists. split; [vm_compute; reflexivity |]. repeat split. Qed.

Lemma must_do_exactly_once_witness :
  exists days,
    createDayByDayItinerary parsesNothing utcNextDay (storeWith threeMustDos None) None None []
                            (onDay 0) (onDay 3) None = Return days
    /\ List.concat (map mustDoTitles days) = ["Louvre"; "Eiffel Tower"; "Seine Cruise"]
    /\ exists i, count_occ string_dec (mustDoTitles (nth i days noDay)) "Seine Cruise"
                 = 1%nat.
Proof.
  destruct (must_do_exactly_once parsesNothing utcNextDay JsDateFacts.utc_advances (storeWith threeMustDos None) None None []
              (onDay 0) (onDay 3) None nov20 (nov20 + 3 * msPerDay)%Z eq_refl eq_refl)
    as [days [Hdays [Hall Honce]]].
  exists days. split; [exact Hdays |]. split; [exact Hall |].
  destruct (Honce ltac:(vm_compute; lia) ltac:(distinct_strings)
                  (mustDo "Seine Cruise") ltac:(simpl; tauto))
    as [i [_ [Hone _]]].
  exists i. exact Hone.
Defined.

(** C2, counterexample.  Three must-do activities and a three-day window
    (one interior day): the third activity, "Seine Cruise", is on no day
    of the itinerary. *)
Lemma must_do_exactly_once_counterexample :
  exists days,
    createDayByDayItinerary parsesNothing utcNextDay (storeWith threeMustDos None) None None []
                            (onDay 0) (onDay 2) None = Return days
    /\ interiorDayCount parsesNothing utcNextDay nov20 (nov20 + 2 * msPerDay) = 1%nat
    /\ In (mustDo "Seine Cruise") threeMustDos
    /\ List.length days = 3%nat
    /\ existsb (titled "Seine Cruise") days = false.
Proof.
  eexists. split; [vm_compute; reflexivity |].
  repeat split. simpl. tauto.
Qed.

Lemma empty_filter_no_fallback_witness :
  exists days,
    createDayByDayItinerary parsesNothing utcNextDay (storeWith [] beachOnly) None None
                            [offer "City Museum" "museum"] (onDay 0) (onDay 2) None
    = Return days
    /\ items (nth 1 days noDay) = [openExploration].
Proof.
  destruct (empty_filter_no_fallback parsesNothing utcNextDay JsDateFacts.utc_advances (storeWith [] beachOnly) None None
              [offer "City Museum" "museum"] (onDay 0) (onDay 2) None
              nov20 (nov20 + 2 * msPerDay)%Z eq_refl eq_refl eq_refl)
    as [days [Hdays Hint]].
  exists days. split; [exact Hdays |].
  destruct (Hint 0%nat ltac:(vm_compute; lia)) as [_ [_ Hcard]].
  apply Hcard. reflexivity.
Defined.

(** C6, counterexample.  The pool holds "City Museum", the only stated
    category is "beach", so the filter leaves nothing; the interior day
    then carries the [Open Exploration] card alone, not the activity of
    the unfiltered pool. *)
Lemma empty_filter_counterexample :
  let pool := [offer "City Museum" "museum"] in
  exists days,
    createDayByDayItinerary parsesNothing utcNextDay (storeWith [] beachOnly) None None pool
                            (onDay 0) (onDay 2) None = Return days
    /\ regularActivities [] pool = pool
    /\ filteredRegularActivities beachOnly (regularActivities [] pool) = []
    /\ items (nth 1 days noDay) = [openExploration]
    /\ existsb (titled "City Museum") days = false.
Proof. eexists. split; [vm_compute; reflexivity |]. repeat split. Qed.

Lemma one_way_single_day_witness :
  createDayByDayItinerary parsesNothing utcNextDay (storeWith [] None) None None []
                          (onDay 0) (onDay 0) None
  = Return [ {| day := Some 1%nat; dateObj := nov20; items := [flightNeeded] |} ]
  /\ createDayByDayItinerary parsesNothing utcNextDay (storeWith [] None) None None []
                             (onDay 0) DNull None
     = Return [ {| day := Some 1%nat; dateObj := nov20; items := [flightNeeded] |} ]
  /\ createDayByDayItinerary parsesNothing utcNextDay (storeWith [] None) None None []
                             (onDay 0) (DStr "whenever") None
     = Return [ {| day := Some 1%nat; dateObj := nov20; items := [flightNeeded] |} ].
Proof.
  split; [| split].
  - exact (proj2 (one_way_single_day parsesNothing utcNextDay (storeWith [] None) None None []
                    (onDay 0) (onDay 0) None (or_intror eq_refl)) nov20 eq_refl).
  - exact (proj2 (one_way_single_day parsesNothing utcNextDay (storeWith [] None) None None []
                    (onDay 0) DNull None (or_introl eq_refl)) nov20 eq_refl).
  - exact (proj2 (one_way_single_day parsesNothing utcNextDay (storeWith [] None) None None []
                    (onDay 0) (DStr "whenever") None (or_introl eq_refl)) nov20 eq_refl).
Defined.

Lemma missing_parts_degrade_witness :
  exists d1 rest,
    createDayByDayItinerary parsesNothing utcNextDay (storeWith [] None) None None []
                            (onDay 0) (onDay 7) None = Return (d1 :: rest)
    /\ hd_error (items d1) = Some flightNeeded
    /\ items (last rest noDay) = [returnFlightNeeded].
Proof.
  destruct (proj2 (missing_parts_degrade parsesNothing utcNextDay JsDateFacts.utc_advances (storeWith [] None) None None []
                     (onDay 0) (onDay 7) None)
                  nov20 (nov20 + 7 * msPerDay)%Z eq_refl
                  ltac:(vm_compute; discriminate))
    as [d1 [rest [Hdays [_ [_ [_ [Hfirst Hlast]]]]]]].
  exists d1, rest. split; [exact Hdays |]. split; [apply Hfirst; reflexivity |].
  destruct (Hlast ltac:(vm_compute; discriminate)) as [_ [_ [_ Hret]]].
  apply Hret. reflexivity.
Defined.

(** C8, counterexample.  The start date parses and the end date lies a
    week before it: nothing is thrown, but the itinerary is empty, so
    there is no day 1 to carry the placeholder. *)
Lemma missing_parts_counterexample :
  validTime (resolveDate parsesNothing DNull (onDay 7)) = Some (nov20 + 7 * msPerDay)%Z
  /\ createDayByDayItinerary parsesNothing utcNextDay (storeWith [] None) None None []
                             (onDay 7) (onDay 0) None = Return [].
Proof. split; vm_compute; reflexivity. Qed.

End AssemblerFacts.

(* ===================================================================== *)
(** * Facts: the legacy copy against the current one *)
(* ===================================================================== *)

Module LegacyFacts.
Import JsString JsDate JsArray Itinerary Examples JsDateFacts ItineraryFacts AssemblerFacts.

Lemma flat_map_short {A B : Type} (f : A -> list B) (l : list A) :
  (forall x, List.length (f x) <= 1)%nat ->
  (List.length (flat_map f l) <= List.length l)%nat.
Proof.
  intro Hf. induction l as [| x l IH]; simpl; [lia |].
  rewrite length_app. specialize (Hf x). lia.
Qed.

Lemma middleDay_short hotelSel allActivities maxMiddleDays startT endT i :
  (List.length (Legacy.middleDay hotelSel allActivities maxMiddleDays startT endT i) <= 1)%nat.
Proof.
  unfold Legacy.middleDay.
  destruct (utcDay (startT + Z.of_nat i * msPerDay) =? utcDay endT)%Z; simpl; lia.
Qed.

Lemma middleDay_date hotelSel allActivities maxMiddleDays startT endT i d :
  In d (Legacy.middleDay hotelSel allActivities maxMiddleDays startT endT i) ->
  dateObj d = (startT + Z.of_nat i * msPerDay)%Z.
Proof.
  unfold Legacy.middleDay.
  destruct (utcDay (startT + Z.of_nat i * msPerDay) =? utcDay endT)%Z; simpl.
  - intros [].
  - intros [<- | []]. reflexivity.
Qed.

(** The legacy copy never lays out more than seven days. *)
Lemma legacy_layOut_length flightSel hotelSel allActivities returnFlight startT endT :
  (List.length (Legacy.layOut flightSel hotelSel allActivities returnFlight startT endT)
   <= 7)%nat.
Proof.
  unfold Legacy.layOut.
  rewrite numberDays_length, sortDays_length. cbn [List.length app].
  rewrite length_app.
  match goal with
  | |- (S (List.length ?middle + List.length ?final) <= 7)%nat =>
      assert (Hm : (List.length middle <= 5)%nat);
      [| assert (Hf : (List.length final <= 1)%nat); [| lia]]
  end.
  - destruct (negb (endT =? startT)%Z && (1 <? _)%Z); [| simpl; lia].
    eapply Nat.le_trans; [apply flat_map_short; intro; apply middleDay_short |].
    rewrite length_seq. lia.
  - destruct (negb (endT =? startT)%Z && (startT <? endT)%Z); simpl; lia.
Qed.

Lemma legacy_layOut_dates flightSel hotelSel allActivities returnFlight startT endT :
  Forall (Legacy.legacyDate startT endT)
         (map dateObj
              (Legacy.layOut flightSel hotelSel allActivities returnFlight startT endT)).
Proof.
  unfold Legacy.layOut. cbv zeta. rewrite numberDays_dateObj.
  apply Forall_forall. intros t Ht. apply in_map_iff in Ht.
  destruct Ht as [d [Hdt Hd]]. subst t. apply (proj1 (sortDays_In _ _)) in Hd.
  apply in_app_or in Hd. destruct Hd as [[Hfirst | []] | Hd].
  - subst d. right. exists 0%Z. simpl. split; lia.
  - apply in_app_or in Hd. destruct Hd as [Hd | Hd].
    + destruct (negb (endT =? startT)%Z && (1 <? _)%Z); [| destruct Hd].
      apply in_flat_map in Hd. destruct Hd as [i [Hi Hd]].
      apply in_seq in Hi. apply middleDay_date in Hd.
      right. exists (Z.of_nat i). split; [lia | exact Hd].
    + destruct (negb (endT =? startT)%Z && (startT <? endT)%Z); [| destruct Hd].
      destruct Hd as [Hlast | []]. subst d. now left.
Qed.

Section Host.
Variable parseDateString : string -> option Z.
Variable nextDay : Z -> Z.
(** The host's [setDate(getDate() + 1)] moves the clock forward. *)
Hypothesis Hadv : advances nextDay.

(** When the day after the start is still within the window, the current
    copy lays out one day per entry of the date range. *)
Lemma current_layOut_dates ts flightSel hotelSel allActivities returnFlight startT endT :
  (nextDay startT <= endT)%Z ->
  map dateObj (Assembler.layOut parseDateString nextDay ts flightSel hotelSel allActivities
                                returnFlight startT endT)
  = buildDateRange parseDateString nextDay (DObj (ValidDate startT)) (DObj (ValidDate endT)).
Proof.
  intro Hday. pose proof (Hadv startT) as Hstep. pose proof msPerHour_pos.
  assert (Hle : (startT <= endT)%Z) by lia.
  rewrite layOut_round_trip, numberDays_dateObj by (assumption || lia).
  rewrite buildDateRange_objects.
  pose proof (rangeFuel_next startT (nextDay startT) endT Hstep Hle) as Hnext.
  pose proof (rangeFuel_positive _ _ Hday) as Hpos.
  destruct (rangeFuel startT endT) as [| fuel]; [lia |].
  rewrite dateLoop_head by assumption.
  destruct fuel as [| fuel]; [lia |].
  rewrite dateLoop_head by assumption.
  now rewrite pushed_dates.
Qed.

(** C10, with the host and the time of day set apart.  Given the same
    resolved window, the two copies are not equivalent.  The legacy copy
    returns at most seven days for any window, each dated at the start, at
    one of the five days after it, or at the end.  The current copy, on a
    host whose clock advances and for a window that holds the day after
    the start, returns exactly one day per entry of the date range.  On a
    host whose time zone keeps one UTC offset that range has
    [(end - start) / msPerDay + 1] entries, so for every window that ends
    seven times 24 hours or more after its start the current copy returns
    at least eight days and the two day counts differ. *)
Theorem copies_disagree_on_long_windows ts flightSel hotelSel allActivities
        startDate endDate returnFlight s e :
  Assembler.resolveWindow parseDateString ts startDate endDate = Return (s, e) ->
  validTime (Legacy.resolveDate parseDateString startDate) = Some s ->
  validTime (Legacy.resolveDate parseDateString endDate) = Some e ->
  exists legacyDays currentDays,
    Legacy.createDayByDayItinerary parseDateString flightSel hotelSel allActivities
                                   startDate endDate returnFlight = Return legacyDays
    /\ Assembler.createDayByDayItinerary parseDateString nextDay ts flightSel hotelSel
                                        allActivities startDate endDate returnFlight
       = Return currentDays
    /\ (List.length legacyDays <= 7)%nat
    /\ Forall (Legacy.legacyDate s e) (map dateObj legacyDays)
    /\ ((nextDay s <= e)%Z ->
        map dateObj currentDays
        = buildDateRange parseDateString nextDay (DObj (ValidDate s)) (DObj (ValidDate e)))
    /\ (fixedOffset nextDay ->
        ((msPerDay <= e - s)%Z ->
         List.length currentDays = Z.to_nat ((e - s) / msPerDay + 1))
        /\ ((7 * msPerDay <= e - s)%Z ->
            (8 <= List.length currentDays)%nat
            /\ List.length legacyDays <> List.length currentDays)).
Proof.
  intros Hres Hs He.
  exists (Legacy.layOut flightSel hotelSel allActivities returnFlight s e).
  exists (Assembler.layOut parseDateString nextDay ts flightSel hotelSel allActivities
                           returnFlight s e).
  pose proof (legacy_layOut_length flightSel hotelSel allActivities returnFlight s e)
    as Hcap.
  assert (Hlen : fixedOffset nextDay -> (msPerDay <= e - s)%Z ->
            List.length (Assembler.layOut parseDateString nextDay ts flightSel hotelSel
                                          allActivities returnFlight s e)
            = Z.to_nat ((e - s) / msPerDay + 1)).
  { intros Hfixed Hday.
    rewrite <- (length_map dateObj), current_layOut_dates by (rewrite Hfixed; lia).
    rewrite (buildDateRange_objects_fixed _ _ _ _ Hfixed), daysFrom_length.
    reflexivity. }
  split; [| split; [| split; [| split; [| split]]]].
  - unfold Legacy.createDayByDayItinerary. now rewrite Hs, He.
  - apply createDayByDayItinerary_resolved. exact Hres.
  - exact Hcap.
  - apply legacy_layOut_dates.
  - apply current_layOut_dates.
  - intro Hfixed. split; [now apply Hlen |].
    intro Hweek. pose proof msPerDay_pos.
    assert (7 <= (e - s) / msPerDay)%Z by (apply Z.div_le_lower_bound; lia).
    rewrite (Hlen Hfixed) by lia. split; lia.
Qed.
End Host.

Lemma copies_disagree_witness :
  exists legacyDays currentDays,
    Legacy.createDayByDayItinerary parsesNothing None None [] (onDay 0) (onDay 9) None
    = Return legacyDays
    /\ Assembler.createDayByDayItinerary parsesNothing utcNextDay (storeWith [] None) None None []
                                        (onDay 0) (onDay 9) None = Return currentDays
    /\ (List.length legacyDays <= 7)%nat
    /\ (8 <= List.length currentDays)%nat
    /\ List.length legacyDays <> List.length currentDays.
Proof.
  destruct (copies_disagree_on_long_windows parsesNothing utcNextDay utc_advances
              (storeWith [] None) None None []
              (onDay 0) (onDay 9) None nov20 (nov20 + 9 * msPerDay)%Z
              eq_refl eq_refl eq_refl)
    as [legacyDays [currentDays [Hl [Hc [Hcap [_ [_ Hlong]]]]]]].
  exists legacyDays, currentDays.
  split; [exact Hl |]. split; [exact Hc |]. split; [exact Hcap |].
  exact (proj2 (Hlong utc_fixedOffset) ltac:(vm_compute; discriminate)).
Defined.

(** C10, counterexamples.  On a host in UTC, from 2025-11-20T23:00Z to
    2025-11-27T01:00Z, a window of eight calendar dates, the current copy
    returns seven days, not one per calendar date, and so does the legacy
    copy: the day counts do not differ.  On a host in New York, from
    midnight of 30 October 2025 to exactly seven times 24 hours later,
    across the night the clocks go back, both copies return seven days
    again. *)
Lemma copies_disagree_counterexample :
  (let s := (nov20 + 23 * msPerHour)%Z in
   let e := (nov20 + 7 * msPerDay + msPerHour)%Z in
   exists legacyDays currentDays,
     Legacy.createDayByDayItinerary parsesNothing None None []
       (DObj (ValidDate s)) (DObj (ValidDate e)) None = Return legacyDays
     /\ Assembler.createDayByDayItinerary parsesNothing utcNextDay (storeWith [] None)
          None None [] (DObj (ValidDate s)) (DObj (ValidDate e)) None = Return currentDays
     /\ (utcDay e - utcDay s + 1 = 8)%Z
     /\ List.length currentDays = 7%nat
     /\ List.length legacyDays = 7%nat)
  /\ (let s := oct30NewYork in
      let e := (oct30NewYork + 7 * msPerDay)%Z in
      exists legacyDays currentDays,
        Legacy.createDayByDayItinerary parsesNothing None None []
          (DObj (ValidDate s)) (DObj (ValidDate e)) None = Return legacyDays
        /\ Assembler.createDayByDayItinerary parsesNothing newYorkNextDay (storeWith [] None)
             None None [] (DObj (ValidDate s)) (DObj (ValidDate e)) None = Return currentDays
        /\ (7 * msPerDay <= e - s)%Z
        /\ List.length currentDays = 7%nat
        /\ List.length legacyDays = 7%nat).
Proof.
  split.
  - eexists. eexists. split; [vm_compute; reflexivity |].
    split; [vm_compute; reflexivity |]. repeat split.
  - eexists. eexists. split; [vm_compute; reflexivity |].
    split; [vm_compute; reflexivity |].
    split; [vm_compute; discriminate | split; reflexivity].
Qed.

End LegacyFacts.

(* ===================================================================== *)
(** * More facts: the final sort and numbering *)
(* ===================================================================== *)

Module NumberingFacts.
Import JsString JsDate JsArray Itinerary JsDateFacts ItineraryFacts.

Lemma insertDay_perm d : forall sorted, Permutation (insertDay d sorted) (d :: sorted).
Proof.
  induction sorted as [| x r IH]; simpl.
  - apply Permutation_refl.
  - destruct (dateObj x <=? dateObj d)%Z.
    + eapply perm_trans; [apply perm_skip; exact IH | apply perm_swap].
    + apply Permutation_refl.
Qed.

Lemma insertDay_sorted d : forall sorted,
  StronglySorted Z.le (map dateObj sorted) ->
  StronglySorted Z.le (map dateObj (insertDay d sorted)).
Proof.
  induction sorted as [| x r IH]; intro Hs; simpl.
  - repeat constructor.
  - simpl in Hs. apply StronglySorted_inv in Hs. destruct Hs as [Hr Hall].
    destruct (Z.leb_spec (dateObj x) (dateObj d)) as [Hle | Hgt]; simpl.
    + constructor; [now apply IH |].
      apply Forall_forall. intros t Ht. apply in_map_iff in Ht.
      destruct Ht as [y [Hy Hin]]. subst t.
      apply (Permutation_in _ (insertDay_perm d r)) in Hin.
      destruct Hin as [Hd | Hin]; [subst y; exact Hle |].
      rewrite Forall_forall in Hall. apply Hall. now apply in_map.
    + constructor; [constructor; assumption |].
      constructor; [lia |].
      eapply Forall_impl; [| exact Hall]. intros; lia.
Qed.

Lemma sort_fold_perm l : forall acc,
  Permutation (fold_left (fun acc d => insertDay d acc) l acc) (acc ++ l).
Proof.
  induction l as [| d l IH]; intro acc; simpl.
  - rewrite app_nil_r. apply Permutation_refl.
  - eapply perm_trans; [apply IH |].
    eapply perm_trans; [apply Permutation_app_tail, insertDay_perm |].
    simpl. apply Permutation_middle.
Qed.

Lemma sortDays_perm l : Permutation (sortDays l) l.
Proof. unfold sortDays. apply (sort_fold_perm l []). Qed.

Lemma sort_fold_ascending l : forall acc,
  StronglySorted Z.le (map dateObj acc) ->
  StronglySorted Z.le (map dateObj (fold_left (fun acc d => insertDay d acc) l acc)).
Proof.
  induction l as [| d l IH]; intros acc Hs; simpl; [exact Hs |].
  apply IH. now apply insertDay_sorted.
Qed.

Lemma sortDays_ascending l : StronglySorted Z.le (map dateObj (sortDays l)).
Proof. unfold sortDays. apply sort_fold_ascending. constructor. Qed.

(** X1.  Whatever the order in which the days were pushed, after the sort and
    the numbering the days are the same days (same dates and items), their
    dates ascend, and their numbers are 1, 2, ..., N in that order. *)
Theorem numbering_dense_and_ascending (days : list Day) :
  let result := numberDays (sortDays days) in
  map day result = map (fun i => Some (i + 1)%nat) (seq 0 (List.length days))
  /\ StronglySorted Z.le (map dateObj result)
  /\ Permutation (map (fun d => (dateObj d, items d)) result)
                 (map (fun d => (dateObj d, items d)) days).
Proof.
  intro result. unfold result. split; [| split].
  - now rewrite numberDays_day, sortDays_length.
  - rewrite numberDays_dateObj. apply sortDays_ascending.
  - eapply perm_trans; [| apply Permutation_map, sortDays_perm].
    rewrite numberDays_unfold. generalize 0%nat. generalize (sortDays days).
    induction l as [| d l IH]; intro idx; simpl; [constructor |].
    apply perm_skip, IH.
Qed.

Section Host.
Variable parseDateString : string -> option Z.
Variable nextDay : Z -> Z.

(** X2.  Every itinerary returned by either copy of the assembler has its days
    numbered 1, 2, ..., N from the first to the last, with dates that never
    decrease. *)
Theorem itinerary_days_numbered ts flightSel hotelSel allActivities startDate endDate
        returnFlight days :
  Assembler.createDayByDayItinerary parseDateString nextDay ts flightSel hotelSel allActivities
                                    startDate endDate returnFlight = Return days
  \/ Legacy.createDayByDayItinerary parseDateString flightSel hotelSel allActivities
                                    startDate endDate returnFlight = Return days ->
  map day days = map (fun i => Some (i + 1)%nat) (seq 0 (List.length days))
  /\ StronglySorted Z.le (map dateObj days).
Proof.
  assert (Hgen : forall pushed, days = numberDays (sortDays pushed) ->
            map day days = map (fun i => Some (i + 1)%nat) (seq 0 (List.length days))
            /\ StronglySorted Z.le (map dateObj days)).
  { intros pushed ->. split.
    - now rewrite numberDays_day, numberDays_length.
    - rewrite numberDays_dateObj. apply sortDays_ascending. }
  intros [Hcur | Hleg].
  - unfold Assembler.createDayByDayItinerary in Hcur.
    destruct (Assembler.resolveWindow parseDateString ts startDate endDate)
      as [[s e] | msg]; [| discriminate].
    injection Hcur as <-. eapply Hgen. unfold Assembler.layOut. reflexivity.
  - unfold Legacy.createDayByDayItinerary in Hleg.
    destruct (validTime (Legacy.resolveDate parseDateString startDate)) as [s |];
      [| discriminate].
    injection Hleg as <-. eapply Hgen. unfold Legacy.layOut. reflexivity.
Qed.
End Host.

Lemma itinerary_days_numbered_witness :
  exists days,
    Assembler.createDayByDayItinerary Examples.parsesNothing Examples.utcNextDay
      (Examples.storeWith Examples.threeMustDos None) None None []
      (Examples.onDay 0) (Examples.onDay 3) None = Return days
    /\ map day days = [Some 1%nat; Some 2%nat; Some 3%nat; Some 4%nat].
Proof.
  eexists. split; [vm_compute; reflexivity |].
  exact (proj1 (itinerary_days_numbered Examples.parsesNothing Examples.utcNextDay
                  (Examples.storeWith Examples.threeMustDos None) None None []
                  (Examples.onDay 0) (Examples.onDay 3) None _ (or_introl eq_refl))).
Defined.

End NumberingFacts.

(* ===================================================================== *)
(** * More facts: time slots *)
(* ===================================================================== *)

Module SlotFacts.
Import JsString Itinerary DayVocabulary.

Lemma slotTaken_false_iff existing slot :
  slotTaken existing slot = false <-> ~ In slot existing.
Proof.
  unfold slotTaken. split.
  - intros H Hin. assert (existsb (String.eqb slot) existing = true).
    { apply existsb_exists. exists slot. split; [assumption | apply String.eqb_refl]. }
    congruence.
  - intro Hn. destruct (existsb (String.eqb slot) existing) eqn:E; [| reflexivity].
    apply existsb_exists in E. destruct E as [x [Hx Heq]].
    apply String.eqb_eq in Heq. subst x. contradiction.
Qed.

Lemma getAvailableSlot_preferred existing preferred :
  slotTaken existing preferred = false -> getAvailableSlot existing preferred = preferred.
Proof. intro H. unfold getAvailableSlot. now rewrite H. Qed.

Ltac slot_cases :=
  repeat match goal with
         | |- context [alternatives ?p] =>
             let v := eval vm_compute in (alternatives p) in
             change (alternatives p) with v
         end;
  cbn -[String.eqb];
  repeat match goal with
         | |- context [String.eqb ?x ?y] =>
             lazymatch x with context [String.eqb _ _] => fail | _ => idtac end;
             lazymatch y with context [String.eqb _ _] => fail | _ => idtac end;
             let E := fresh "E" in
             destruct (String.eqb_spec x y) as [E | E];
             [try discriminate E; try subst | try (exfalso; apply E; reflexivity)];
             try match goal with
                 | H : ?u <> ?u |- _ => exfalso; apply H; reflexivity
                 end;
             cbn -[String.eqb]
         end;
  try reflexivity.

(** With at most two slots taken, a label and its two alternatives cannot
    all be taken: the slot returned is free. *)
Lemma getAvailableSlot_free existing preferred :
  In preferred slotLabels -> (List.length existing <= 2)%nat ->
  slotTaken existing (getAvailableSlot existing preferred) = false.
Proof.
  intros Hp Hlen.
  destruct existing as [| a [| b [| c r]]]; [| | | simpl in Hlen; lia].
  - reflexivity.
  - simpl in Hp. unfold getAvailableSlot, slotTaken.
    destruct Hp as [<- | [<- | [<- | [<- | [<- | []]]]]]; slot_cases.
  - simpl in Hp. unfold getAvailableSlot, slotTaken.
    destruct Hp as [<- | [<- | [<- | [<- | [<- | []]]]]]; slot_cases.
Qed.

Lemma getAvailableSlot_label existing preferred :
  In preferred slotLabels -> In (getAvailableSlot existing preferred) slotLabels.
Proof.
  intro Hp. unfold getAvailableSlot.
  destruct (negb (slotTaken existing preferred)); [exact Hp |].
  destruct (find _ (alternatives preferred)) as [slot |] eqn:Hf; [| exact Hp].
  apply find_some in Hf. destruct Hf as [Hin _].
  simpl in Hp. destruct Hp as [<- | [<- | [<- | [<- | [<- | []]]]]];
    simpl in Hin; unfold slotLabels; simpl; tauto.
Qed.

(** The slot chosen for an activity is [getAvailableSlot] of one of the
    five labels. *)
Lemma getTimeSlotForCategory_preferred category duration index existing :
  exists preferred,
    In preferred slotLabels
    /\ getTimeSlotForCategory category duration index existing
       = getAvailableSlot existing preferred.
Proof.
  unfold getTimeSlotForCategory.
  repeat match goal with
         | |- context [if ?c then _ else _] => destruct c
         end;
    try (eexists; split; [| reflexivity]; unfold slotLabels; simpl; tauto).
  assert (Hmod : (index mod 3 < 3)%nat) by (apply Nat.mod_upper_bound; lia).
  eexists. split; [| reflexivity].
  destruct (index mod 3)%nat as [| [| [| n]]]; unfold slotLabels; simpl; try tauto. lia.
Qed.

Lemma slot_of_day category duration index existing :
  (List.length existing <= 2)%nat ->
  In (getTimeSlotForCategory category duration index existing) slotLabels
  /\ ~ In (getTimeSlotForCategory category duration index existing) existing.
Proof.
  intro Hlen.
  destruct (getTimeSlotForCategory_preferred category duration index existing)
    as [preferred [Hp ->]].
  split; [now apply getAvailableSlot_label |].
  apply slotTaken_false_iff. now apply getAvailableSlot_free.
Qed.

(** X3.  Whatever the category, the duration and the index, the slot given to an
    activity is one of the five labels, and it is a slot no earlier item of
    the day holds as long as at most two slots are taken. *)
Theorem time_slot_never_conflicts category duration index existing :
  (List.length existing <= 2)%nat ->
  let slot := getTimeSlotForCategory category duration index existing in
  In slot slotLabels /\ ~ In slot existing.
Proof.
  intros Hlen slot. unfold slot.
  destruct (getTimeSlotForCategory_preferred category duration index existing)
    as [preferred [Hp ->]].
  split; [now apply getAvailableSlot_label |].
  apply slotTaken_false_iff. now apply getAvailableSlot_free.
Qed.

Lemma time_slot_never_conflicts_witness :
  getTimeSlotForCategory (Some "Museum") None 0 ["Morning"; "Afternoon"] = "Evening"
  /\ ~ In (getTimeSlotForCategory (Some "Museum") None 0 ["Morning"; "Afternoon"])
          ["Morning"; "Afternoon"].
Proof.
  split; [reflexivity |].
  exact (proj2 (time_slot_never_conflicts (Some "Museum") None 0 ["Morning"; "Afternoon"]
                  (le_n 2))).
Defined.

End SlotFacts.

(* ===================================================================== *)
(** * More facts: what a day of the itinerary carries *)
(* ===================================================================== *)

Module DayFacts.
Import JsString JsDate JsArray Itinerary Assembler DayVocabulary.
Import JsDateFacts ItineraryFacts AssemblerFacts SlotFacts.
Import TripStore(MustDoActivity).

Lemma wellSlotted_nil : wellSlotted [].
Proof. split; constructor. Qed.

Lemma wellSlotted_push its it :
  wellSlotted its -> In (time it) slotLabels -> ~ In (time it) (map time its) ->
  wellSlotted (its ++ [it]).
Proof.
  intros [Hnd Hall] Hlabel Hfresh. split.
  - rewrite map_app. simpl. apply NoDup_app; auto.
    + constructor; [intros [] | constructor].
    + intros x Hx [<- | []]. contradiction.
  - apply Forall_app. split; [exact Hall | constructor; [exact Hlabel | constructor]].
Qed.

(** Placing must-do activities on a day that ends up with at most three
    items: as many items as activities, with their names as titles, and no
    two items of the day in the same slot. *)
Lemma forEach_addMustDo_slots (l : list MustDoActivity) : forall idx acc,
  (List.length acc + List.length l <= 3)%nat -> wellSlotted acc ->
  exists placed,
    forEachFrom addMustDo l idx acc = acc ++ placed
    /\ map title placed = map TripStore.name l
    /\ Forall mustDoItem placed
    /\ wellSlotted (acc ++ placed).
Proof.
  induction l as [| m l IH]; intros idx acc Hlen Hws; simpl.
  - exists []. rewrite app_nil_r. repeat split; try constructor; apply Hws.
  - simpl in Hlen.
    destruct (slot_of_day
                (orOpt (TripStore.category m) (TripStore.type_ m)) (TripStore.duration m)
                idx (map time acc)) as [Hlabel Hfresh];
      [rewrite length_map; lia |].
    destruct (IH (S idx) (addMustDo acc m idx)) as [placed [Heq [Ht [Hall Hws']]]].
    + unfold addMustDo. rewrite length_app. simpl. lia.
    + unfold addMustDo. now apply wellSlotted_push.
    + unfold addMustDo in Heq, Hws'. rewrite <- app_assoc in Heq, Hws'.
      eexists. split; [exact Heq | split; [| split; [| exact Hws']]].
      * simpl. now rewrite Ht.
      * constructor; [| exact Hall]. repeat split.
Qed.

Lemma forEach_addRegular_slots (l : list Activity) : forall idx acc,
  (List.length acc + List.length l <= 3)%nat -> wellSlotted acc ->
  exists placed,
    forEachFrom addRegular l idx acc = acc ++ placed
    /\ map title placed = map activityTitle l
    /\ Forall regularItem placed
    /\ wellSlotted (acc ++ placed).
Proof.
  induction l as [| a l IH]; intros idx acc Hlen Hws; simpl.
  - exists []. rewrite app_nil_r. repeat split; try constructor; apply Hws.
  - simpl in Hlen.
    destruct (slot_of_day
                (orOpt (act_category a) (act_type a))
                (orOpt (act_minimumDuration a) (act_duration a))
                idx (map time acc)) as [Hlabel Hfresh];
      [rewrite length_map; lia |].
    destruct (IH (S idx) (addRegular acc a idx)) as [placed [Heq [Ht [Hall Hws']]]].
    + unfold addRegular. rewrite length_app. simpl. lia.
    + unfold addRegular. now apply wellSlotted_push.
    + unfold addRegular in Heq, Hws'. rewrite <- app_assoc in Heq, Hws'.
      eexists. split; [exact Heq | split; [| split; [| exact Hws']]].
      * simpl. now rewrite Ht.
      * constructor; [| exact Hall]. repeat split.
Qed.

Lemma in_firstn {A : Type} n (l : list A) x : In x (firstn n l) -> In x l.
Proof. intro H. rewrite <- (firstn_skipn n l). apply in_or_app. now left. Qed.

Lemma in_skipn {A : Type} n (l : list A) x : In x (skipn n l) -> In x l.
Proof. intro H. rewrite <- (firstn_skipn n l). apply in_or_app. now right. Qed.

Lemma realActivity_all its :
  Forall (fun it => mustDoItem it \/ regularItem it) its ->
  Forall (fun it => realActivity it = true) its.
Proof.
  intro H. eapply Forall_impl; [| exact H].
  intros it [[_ [Ht Ho]] | [_ [Ht Ho]]]; unfold realActivity; now rewrite Ht, Ho.
Qed.

Lemma existsb_all_true {A : Type} (f : A -> bool) (l : list A) :
  Forall (fun x => f x = true) l ->
  existsb f l = match l with [] => false | _ => true end.
Proof. intro H. destruct H as [| x l Hx _]; simpl; [reflexivity | now rewrite Hx]. Qed.

(** An interior day built from a plan entry of at most two must-do
    activities: must-do items, then regular items taken from the filtered
    pool, at most two together and in pairwise different slots; the
    [Open Exploration] card exactly when there is neither; the hotel stay
    last. *)
Lemma interiorItems_layout hotelSel dist filtered D i :
  (List.length (nth i dist []) <= 2)%nat ->
  exists mustDos regulars taken,
    interiorItems hotelSel dist filtered D i
    = (mustDos ++ regulars)
        ++ match mustDos ++ regulars with [] => [openExploration] | _ => [] end
        ++ hotelItems hotelSel "Overnight"
    /\ map title mustDos = map TripStore.name (nth i dist [])
    /\ Forall mustDoItem mustDos
    /\ map title regulars = map activityTitle taken
    /\ incl taken filtered
    /\ Forall regularItem regulars
    /\ (List.length (mustDos ++ regulars) <= 2)%nat
    /\ wellSlotted (mustDos ++ regulars).
Proof.
  intro Hplan. unfold interiorItems, forEach.
  destruct (forEach_addMustDo_slots (nth i dist []) 0 [] ltac:(simpl; lia) wellSlotted_nil)
    as [mustDos [Hm [Htm [Hallm Hwsm]]]].
  simpl in Hm, Hwsm. rewrite Hm.
  assert (Hlm : List.length mustDos = List.length (nth i dist [])).
  { rewrite <- (length_map title), Htm. apply length_map. }
  match goal with
  | |- context [if ?c then forEachFrom addRegular ?l 0%nat mustDos else mustDos] =>
      set (cond := c); set (taken := l)
  end.
  assert (Htaken : (List.length taken <= 2 - List.length mustDos)%nat /\ incl taken filtered).
  { unfold taken. rewrite slice_nat. split.
    - rewrite length_firstn. lia.
    - intros x Hx. apply in_firstn, in_skipn in Hx. exact Hx. }
  destruct Htaken as [Hlt Hincl].
  assert (Hboth : forall regulars,
            Forall regularItem regulars ->
            existsb realActivity (mustDos ++ regulars)
            = match mustDos ++ regulars with [] => false | _ => true end).
  { intros regulars Hr. apply existsb_all_true, realActivity_all, Forall_app. split.
    - eapply Forall_impl; [| exact Hallm]. now left.
    - eapply Forall_impl; [| exact Hr]. now right. }
  destruct cond.
  - destruct (forEach_addRegular_slots taken 0 mustDos ltac:(lia) Hwsm)
      as [regulars [Hr [Htr [Hallr Hwsr]]]].
    rewrite Hr. exists mustDos, regulars, taken.
    assert (Hlr : List.length regulars = List.length taken).
    { rewrite <- (length_map title), Htr. apply length_map. }
    rewrite (Hboth regulars Hallr).
    split; [destruct (mustDos ++ regulars); now rewrite <- ?app_assoc |].
    split; [exact Htm |]. split; [exact Hallm |]. split; [exact Htr |].
    split; [exact Hincl |]. split; [exact Hallr |].
    split; [rewrite length_app; lia | exact Hwsr].
  - exists mustDos, [], []. rewrite app_nil_r.
    pose proof (Hboth [] (Forall_nil _)) as Hex. rewrite app_nil_r in Hex. rewrite Hex.
    split; [destruct mustDos; now rewrite <- ?app_assoc |].
    split; [exact Htm |]. split; [exact Hallm |]. split; [reflexivity |].
    split; [intros x [] |]. split; [constructor |].
    split; [lia | exact Hwsm].
Qed.

Lemma planOf_short ts D i : (List.length (nth i (planOf ts D) []) <= 2)%nat.
Proof.
  unfold planOf. destruct (Nat.lt_ge_cases i D) as [Hi | Hi].
  - rewrite distribute_nth by assumption. rewrite length_firstn. lia.
  - rewrite nth_overflow by (rewrite distribute_length; lia). simpl. lia.
Qed.

Lemma hotelItems_cases hotelSel tm :
  hotelItems hotelSel tm = []
  \/ exists h, hotelPresent hotelSel = Some h /\ hotelItems hotelSel tm = [hotelItem h tm].
Proof.
  unfold hotelItems. destruct (hotelPresent hotelSel) as [h |]; [right; eauto | now left].
Qed.

Lemma filter_app3 {A : Type} (f : A -> bool) (a b c : list A) :
  filter f (a ++ b ++ c) = filter f a ++ filter f b ++ filter f c.
Proof. now rewrite !filter_app. Qed.

Lemma hotelItems_filters hotelSel tm :
  filter realActivity (hotelItems hotelSel tm) = []
  /\ filter (isOfType activity) (hotelItems hotelSel tm) = []
  /\ filter (isOfType flight) (hotelItems hotelSel tm) = []
  /\ filter (isOfType hotel) (hotelItems hotelSel tm) = hotelItems hotelSel tm
  /\ ~ In openExploration (hotelItems hotelSel tm)
  /\ (forall t, In t (map time (hotelItems hotelSel tm)) -> t = tm)
  /\ NoDup (map time (hotelItems hotelSel tm)).
Proof.
  destruct (hotelItems_cases hotelSel tm) as [-> | [h [_ ->]]]; simpl.
  - repeat split; auto; try constructor. intros t [].
  - repeat split; auto.
    + intros [H | []]. discriminate H.
    + intros t [<- | []]. reflexivity.
    + constructor; [intros [] | constructor].
Qed.

Section InteriorDay.
Variable acts : list Item.
Variable hotelSel : option Hotel.
Hypothesis Hacts : Forall (fun it => mustDoItem it \/ regularItem it) acts.
Hypothesis Hslots : wellSlotted acts.

Let card : list Item := match acts with [] => [openExploration] | _ => [] end.
Let its : list Item := acts ++ card ++ hotelItems hotelSel "Overnight".

Lemma day_real : filter realActivity its = acts.
Proof.
  unfold its. rewrite !filter_app.
  rewrite (filter_all realActivity acts) by (apply realActivity_all, Hacts).
  destruct (hotelItems_filters hotelSel "Overnight") as [-> _].
  unfold card. destruct acts; simpl; now rewrite ?app_nil_r.
Qed.

Lemma day_activities : filter (isOfType activity) its = acts ++ card.
Proof.
  unfold its. rewrite !filter_app.
  destruct (hotelItems_filters hotelSel "Overnight") as [_ [-> _]].
  rewrite app_nil_r. f_equal.
  - apply filter_all. eapply Forall_impl; [| exact Hacts].
    intros it [[_ [Ht _]] | [_ [Ht _]]]; unfold isOfType; now rewrite Ht.
  - unfold card. now destruct acts.
Qed.

Lemma day_flights : filter (isOfType flight) its = [].
Proof.
  unfold its. rewrite !filter_app.
  destruct (hotelItems_filters hotelSel "Overnight") as [_ [_ [-> _]]].
  rewrite (filter_none (isOfType flight) acts).
  - unfold card. now destruct acts.
  - eapply Forall_impl; [| exact Hacts].
    intros it [[_ [Ht _]] | [_ [Ht _]]]; unfold isOfType; now rewrite Ht.
Qed.

Lemma day_hotels : filter (isOfType hotel) its = hotelItems hotelSel "Overnight".
Proof.
  unfold its. rewrite !filter_app.
  destruct (hotelItems_filters hotelSel "Overnight") as [_ [_ [_ [-> _]]]].
  rewrite (filter_none (isOfType hotel) acts).
  - unfold card. now destruct acts.
  - eapply Forall_impl; [| exact Hacts].
    intros it [[_ [Ht _]] | [_ [Ht _]]]; unfold isOfType; now rewrite Ht.
Qed.

Lemma day_card : In openExploration its <-> acts = [].
Proof.
  unfold its. split.
  - intro Hin. apply in_app_or in Hin. destruct Hin as [Hin | Hin].
    + exfalso. rewrite Forall_forall in Hacts.
      destruct (Hacts _ Hin) as [[_ [_ Ho]] | [_ [_ Ho]]]; discriminate Ho.
    + apply in_app_or in Hin. destruct Hin as [Hin | Hin].
      * unfold card in Hin. destruct acts; [reflexivity | destruct Hin].
      * exfalso. revert Hin. apply hotelItems_filters.
  - intro Hnil. apply in_or_app. right. apply in_or_app. left.
    unfold card. rewrite Hnil. now left.
Qed.

Lemma day_times : NoDup (map time its).
Proof.
  unfold its. rewrite !map_app.
  destruct (hotelItems_filters hotelSel "Overnight") as [_ [_ [_ [_ [_ [Hover Hnd]]]]]].
  destruct Hslots as [Hnodup Hlabels].
  assert (Hlab : forall t, In t (map time acts) -> In t slotLabels).
  { intros t Ht. apply in_map_iff in Ht. destruct Ht as [it [<- Hin]].
    rewrite Forall_forall in Hlabels. now apply Hlabels. }
  apply NoDup_app; [exact Hnodup | |].
  - apply NoDup_app; [unfold card; destruct acts; repeat constructor; intros [] | exact Hnd |].
    intros t Hc Hh. apply Hover in Hh. subst t.
    unfold card in Hc. destruct acts; simpl in Hc; intuition discriminate.
  - intros t Ht Hrest. apply Hlab in Ht. apply in_app_or in Hrest.
    assert (Hone : t = "All Day" \/ t = "Overnight").
    { destruct Hrest as [Hc | Hh]; [| right; now apply Hover].
      unfold card in Hc. destruct acts; simpl in Hc; intuition. }
    unfold slotLabels in Ht. simpl in Ht.
    destruct Hone; subst t; intuition discriminate.
Qed.
End InteriorDay.

(** What the layout of an interior day implies for its items. *)
Lemma interiorItems_summary hotelSel dist filtered D i :
  (List.length (nth i dist []) <= 2)%nat ->
  let its := interiorItems hotelSel dist filtered D i in
  (List.length (filter realActivity its) <= 2)%nat
  /\ (1 <= countOfType activity its)%nat
  /\ (In openExploration its <-> filter realActivity its = [])
  /\ NoDup (map time its)
  /\ countOfType flight its = 0%nat
  /\ countOfType hotel its = List.length (hotelItems hotelSel "Overnight").
Proof.
  intros Hplan its.
  destruct (interiorItems_layout hotelSel dist filtered D i Hplan)
    as [mustDos [regulars [taken [Heq [_ [Hm [_ [_ [Hr [Hlen Hws]]]]]]]]]].
  unfold its. rewrite Heq. clear Heq its.
  assert (Hacts : Forall (fun it => mustDoItem it \/ regularItem it) (mustDos ++ regulars)).
  { apply Forall_app. split; [eapply Forall_impl; [| exact Hm] | eapply Forall_impl; [| exact Hr]];
      intros it H; [now left | now right]. }
  unfold countOfType.
  rewrite (day_real _ hotelSel Hacts Hws), (day_activities _ hotelSel Hacts Hws),
    (day_flights _ hotelSel Hacts Hws), (day_hotels _ hotelSel Hacts Hws).
  split; [exact Hlen |]. split; [| split; [| split; [| split; reflexivity]]].
  - destruct (mustDos ++ regulars); simpl; lia.
  - apply (day_card _ hotelSel Hacts Hws).
  - apply (day_times _ hotelSel Hacts Hws).
Qed.

Lemma map_const_seq {A : Type} (c : A) (f : nat -> A) n : forall start,
  (forall i, f i = c) -> map f (seq start n) = repeat c n.
Proof.
  induction n as [| n IH]; intros start Hf; simpl; [reflexivity |].
  now rewrite Hf, IH.
Qed.

Lemma day1Items_counts flightSel hotelSel :
  countOfType flight (day1Items flightSel hotelSel) = bit (negb (flightMissing flightSel))
  /\ countOfType hotel (day1Items flightSel hotelSel)
     = List.length (hotelItems hotelSel "Check-in").
Proof.
  unfold countOfType, day1Items. rewrite !filter_app.
  destruct (hotelItems_filters hotelSel "Check-in") as [_ [_ [-> [-> _]]]].
  unfold flightMissing.
  destruct flightSel as [f |]; [destruct (realFlight f) |]; simpl; auto.
Qed.

Lemma lastDayItems_counts returnFlight :
  countOfType flight (lastDayItems returnFlight) = bit (negb (flightMissing returnFlight))
  /\ countOfType hotel (lastDayItems returnFlight) = 0%nat.
Proof.
  unfold countOfType, lastDayItems, flightMissing.
  destruct returnFlight as [f |]; [destruct (realFlight f) |]; simpl; auto.
Qed.

Lemma hotelItems_length hotelSel tm :
  List.length (hotelItems hotelSel tm)
  = bit (match hotelPresent hotelSel with Some _ => true | None => false end).
Proof. unfold hotelItems. now destruct (hotelPresent hotelSel). Qed.

Section Host.
Variable parseDateString : string -> option Z.
Variable nextDay : Z -> Z.
(** The host's [setDate(getDate() + 1)] moves the clock forward. *)
Hypothesis Hadv : advances nextDay.

(** X4.  On a round trip every interior day carries at least one activity item
    and at most two real activities, and the [Open Exploration] card is on
    the day exactly when no real activity is.
    The host's [setDate(getDate() + 1)] is taken to move the clock
    forward, as the date loop needs to terminate. *)
Theorem interior_day_load ts flightSel hotelSel allActivities startDate endDate
        returnFlight s e :
  resolveWindow parseDateString ts startDate endDate = Return (s, e) ->
  (s < e)%Z ->
  exists days,
    createDayByDayItinerary parseDateString nextDay ts flightSel hotelSel allActivities
                            startDate endDate returnFlight = Return days
    /\ forall i, (i < interiorDayCount parseDateString nextDay s e)%nat ->
         let its := items (nth (S i) days noDay) in
         (List.length (filter realActivity its) <= 2)%nat
         /\ (1 <= countOfType activity its)%nat
         /\ (In openExploration its <-> filter realActivity its = []).
Proof.
  intros Hres Hlt.
  exists (layOut parseDateString nextDay ts flightSel hotelSel allActivities returnFlight s e).
  split; [apply createDayByDayItinerary_resolved; exact Hres |].
  intros i Hi its. unfold its. rewrite layOut_interior by assumption.
  destruct (interiorItems_summary hotelSel
              (planOf ts (interiorDayCount parseDateString nextDay s e))
              (poolOf ts allActivities) (interiorDayCount parseDateString nextDay s e) i
              (planOf_short _ _ _)) as [H1 [H2 [H3 _]]].
  auto.
Qed.

(** X5.  On a round trip no two items of an interior day carry the same time
    label: the activities sit in different slots, apart from the card's
    [All Day] and the hotel's [Overnight].
    The host's [setDate(getDate() + 1)] is taken to move the clock
    forward, as the date loop needs to terminate. *)
Theorem interior_day_slots_distinct ts flightSel hotelSel allActivities startDate endDate
        returnFlight s e :
  resolveWindow parseDateString ts startDate endDate = Return (s, e) ->
  (s < e)%Z ->
  exists days,
    createDayByDayItinerary parseDateString nextDay ts flightSel hotelSel allActivities
                            startDate endDate returnFlight = Return days
    /\ forall i, (i < interiorDayCount parseDateString nextDay s e)%nat ->
         NoDup (map time (items (nth (S i) days noDay))).
Proof.
  intros Hres Hlt.
  exists (layOut parseDateString nextDay ts flightSel hotelSel allActivities returnFlight s e).
  split; [apply createDayByDayItinerary_resolved; exact Hres |].
  intros i Hi. rewrite layOut_interior by assumption.
  apply (interiorItems_summary hotelSel
           (planOf ts (interiorDayCount parseDateString nextDay s e))
           (poolOf ts allActivities) (interiorDayCount parseDateString nextDay s e) i
           (planOf_short _ _ _)).
Qed.

(** X6.  Must-do activities take precedence: a regular activity item on an
    interior day always comes from a provided activity whose name neither
    equals nor contains nor is contained in the name of any must-do
    activity, and which passes the preference filter.
    The host's [setDate(getDate() + 1)] is taken to move the clock
    forward, as the date loop needs to terminate. *)
Theorem regular_items_avoid_must_dos ts flightSel hotelSel allActivities startDate endDate
        returnFlight s e :
  resolveWindow parseDateString ts startDate endDate = Return (s, e) ->
  (s < e)%Z ->
  exists days,
    createDayByDayItinerary parseDateString nextDay ts flightSel hotelSel allActivities
                            startDate endDate returnFlight = Return days
    /\ forall i it,
         (i < interiorDayCount parseDateString nextDay s e)%nat ->
         In it (items (nth (S i) days noDay)) -> regularItem it ->
         exists act,
           In act allActivities
           /\ title it = activityTitle act
           /\ existsb (overlapsMustDo act) (ts_mustDoActivities ts) = false
           /\ matchesPreferences (ts_preferences ts) act = true.
Proof.
  intros Hres Hlt.
  exists (layOut parseDateString nextDay ts flightSel hotelSel allActivities returnFlight s e).
  split; [apply createDayByDayItinerary_resolved; exact Hres |].
  intros i it Hi Hin [Hnm [Hty Hno]]. rewrite layOut_interior in Hin by assumption.
  destruct (interiorItems_layout hotelSel
              (planOf ts (interiorDayCount parseDateString nextDay s e))
              (poolOf ts allActivities) (interiorDayCount parseDateString nextDay s e) i
              (planOf_short _ _ _))
    as [mustDos [regulars [taken [Heq [_ [Hm [Htitles [Hincl _]]]]]]]].
  rewrite Heq in Hin. clear Heq.
  assert (Hreg : In it regulars).
  { apply in_app_or in Hin. destruct Hin as [Hin | Hin].
    - apply in_app_or in Hin. destruct Hin as [Hin | Hin]; [| exact Hin].
      rewrite Forall_forall in Hm. destruct (Hm _ Hin) as [Hmd _]. congruence.
    - exfalso. apply in_app_or in Hin. destruct Hin as [Hin | Hin].
      + destruct (mustDos ++ regulars); [| destruct Hin].
        destruct Hin as [<- | []]. discriminate Hno.
      + destruct (hotelItems_cases hotelSel "Overnight") as [Hh | [h [_ Hh]]];
          rewrite Hh in Hin; [destruct Hin |].
        destruct Hin as [<- | []]. discriminate Hty. }
  assert (Ht : In (title it) (map activityTitle taken))
    by (rewrite <- Htitles; now apply in_map).
  apply in_map_iff in Ht. destruct Ht as [act [Hact Htaken]].
  apply Hincl in Htaken. unfold poolOf, filteredRegularActivities in Htaken.
  apply filter_In in Htaken. destruct Htaken as [Hregular Hpref].
  unfold regularActivities in Hregular. apply filter_In in Hregular.
  destruct Hregular as [Hall Hover].
  exists act. repeat split; auto. now apply negb_true_iff.
Qed.

(** X7.  On a round trip flight items sit only on the first and the last day,
    one each when a real flight is given and none otherwise; a selected
    hotel gives exactly one hotel item on every day but the last.
    The host's [setDate(getDate() + 1)] is taken to move the clock
    forward, as the date loop needs to terminate. *)
Theorem flights_and_hotel_placement ts flightSel hotelSel allActivities startDate endDate
        returnFlight s e :
  resolveWindow parseDateString ts startDate endDate = Return (s, e) ->
  (s < e)%Z ->
  let D := interiorDayCount parseDateString nextDay s e in
  let stay := bit (match hotelPresent hotelSel with Some _ => true | None => false end) in
  exists days,
    createDayByDayItinerary parseDateString nextDay ts flightSel hotelSel allActivities
                            startDate endDate returnFlight = Return days
    /\ map (fun d => countOfType flight (items d)) days
       = bit (negb (flightMissing flightSel)) :: repeat 0%nat D
           ++ [bit (negb (flightMissing returnFlight))]
    /\ map (fun d => countOfType hotel (items d)) days
       = stay :: repeat stay D ++ [0%nat].
Proof.
  intros Hres Hlt D stay.
  exists (layOut parseDateString nextDay ts flightSel hotelSel allActivities returnFlight s e).
  split; [apply createDayByDayItinerary_resolved; exact Hres |].
  assert (Hsum : forall i,
            countOfType flight (interiorItems hotelSel (planOf ts D)
                                              (poolOf ts allActivities) D i) = 0%nat
            /\ countOfType hotel (interiorItems hotelSel (planOf ts D)
                                                (poolOf ts allActivities) D i) = stay).
  { intro i.
    destruct (interiorItems_summary hotelSel (planOf ts D) (poolOf ts allActivities) D i
                (planOf_short _ _ _)) as [_ [_ [_ [_ [Hf Hh]]]]].
    split; [exact Hf |]. rewrite Hh. apply hotelItems_length. }
  destruct (day1Items_counts flightSel hotelSel) as [Hf1 Hh1].
  destruct (lastDayItems_counts returnFlight) as [Hfl Hhl].
  split.
  - rewrite <- (map_map items (countOfType flight)), layOut_items by assumption. fold D.
    cbn [map]. rewrite map_app, map_map. cbn [map]. rewrite Hf1, Hfl.
    f_equal. f_equal. apply map_const_seq. intro i. apply Hsum.
  - rewrite <- (map_map items (countOfType hotel)), layOut_items by assumption. fold D.
    cbn [map]. rewrite map_app, map_map. cbn [map]. rewrite Hh1, Hhl, hotelItems_length.
    f_equal. f_equal. apply map_const_seq. intro i. apply Hsum.
Qed.
End Host.

Lemma interior_day_load_witness :
  exists days,
    createDayByDayItinerary Examples.parsesNothing Examples.utcNextDay
      (Examples.storeWith Examples.threeMustDos None) None None Examples.twoOffers
      (Examples.onDay 0) (Examples.onDay 3) None = Return days
    /\ (List.length (filter realActivity (items (nth 2 days noDay))) <= 2)%nat.
Proof.
  destruct (interior_day_load Examples.parsesNothing Examples.utcNextDay JsDateFacts.utc_advances
              (Examples.storeWith Examples.threeMustDos None) None None Examples.twoOffers
              (Examples.onDay 0) (Examples.onDay 3) None
              Examples.nov20 (Examples.nov20 + 3 * msPerDay)%Z eq_refl eq_refl)
    as [days [Hdays Hload]].
  exists days. split; [exact Hdays |].
  exact (proj1 (Hload 1%nat ltac:(vm_compute; lia))).
Defined.

Lemma interior_day_slots_distinct_witness :
  exists days,
    createDayByDayItinerary Examples.parsesNothing Examples.utcNextDay
      (Examples.storeWith Examples.threeMustDos None) None None Examples.twoOffers
      (Examples.onDay 0) (Examples.onDay 3) None = Return days
    /\ NoDup (map time (items (nth 1 days noDay))).
Proof.
  destruct (interior_day_slots_distinct Examples.parsesNothing Examples.utcNextDay JsDateFacts.utc_advances
              (Examples.storeWith Examples.threeMustDos None) None None Examples.twoOffers
              (Examples.onDay 0) (Examples.onDay 3) None
              Examples.nov20 (Examples.nov20 + 3 * msPerDay)%Z eq_refl eq_refl)
    as [days [Hdays Hslots]].
  exists days. split; [exact Hdays |].
  exact (Hslots 0%nat ltac:(vm_compute; lia)).
Defined.

Lemma regular_items_avoid_must_dos_witness :
  exists act,
    In act Examples.twoOffers /\ activityTitle act = "Food tour"
    /\ existsb (overlapsMustDo act) Examples.threeMustDos = false.
Proof.
  destruct (regular_items_avoid_must_dos Examples.parsesNothing Examples.utcNextDay JsDateFacts.utc_advances
              (Examples.storeWith Examples.threeMustDos None) None None Examples.twoOffers
              (Examples.onDay 0) (Examples.onDay 3) None
              Examples.nov20 (Examples.nov20 + 3 * msPerDay)%Z eq_refl eq_refl)
    as [days [Hdays Hreg]].
  vm_compute in Hdays. injection Hdays as Hdays.
  destruct (Hreg 1%nat (plain activity "Food tour" "Lunch") ltac:(vm_compute; lia)
                 ltac:(rewrite <- Hdays; simpl; tauto) ltac:(repeat split))
    as [act [Hin [Htitle [Hover _]]]].
  exists act. repeat split; auto.
Defined.

Lemma flights_and_hotel_placement_witness :
  exists days,
    createDayByDayItinerary Examples.parsesNothing Examples.utcNextDay
      (Examples.storeWith Examples.threeMustDos None) None None Examples.twoOffers
      (Examples.onDay 0) (Examples.onDay 3) None = Return days
    /\ map (fun d => countOfType flight (items d)) days = [0; 0; 0; 0]%nat.
Proof.
  destruct (flights_and_hotel_placement Examples.parsesNothing Examples.utcNextDay JsDateFacts.utc_advances
              (Examples.storeWith Examples.threeMustDos None) None None Examples.twoOffers
              (Examples.onDay 0) (Examples.onDay 3) None
              Examples.nov20 (Examples.nov20 + 3 * msPerDay)%Z eq_refl eq_refl)
    as [days [Hdays [Hflights _]]].
  exists days. split; [exact Hdays | exact Hflights].
Defined.

End DayFacts.

(* ===================================================================== *)
(** * More facts: date ranges and date resolution *)
(* ===================================================================== *)

Module WindowFacts.
Import JsString JsDate JsArray Itinerary Assembler JsDateFacts ItineraryFacts AssemblerFacts.

Section Host.
Variable parseDateString : string -> option Z.
Variable nextDay : Z -> Z.

(** X8.  [buildDateRange] is empty when the start does not resolve or the end
    lies before the start.  On a host whose [setDate(getDate() + 1)] moves
    the clock forward, every entry lies between start and end, the first
    is the start, and the loop stops at the first day after the end: the
    day after the last entry lies after the end.  On a host whose time
    zone keeps one UTC offset, every entry is a whole number of 24-hour
    days after the start and the last entry is less than 24 hours before
    the end. *)
Theorem buildDateRange_bounds startDate endDate :
  (validTime (toDate parseDateString startDate) = None ->
   buildDateRange parseDateString nextDay startDate endDate = [])
  /\ (forall s e,
         validTime (toDate parseDateString startDate) = Some s ->
         validTime (toDate parseDateString endDate) = Some e ->
         let r := buildDateRange parseDateString nextDay startDate endDate in
         ((e < s)%Z -> r = [])
         /\ (advances nextDay ->
             Forall (fun t => (s <= t <= e)%Z) r
             /\ ((s <= e)%Z ->
                 hd_error r = Some s /\ (last r s <= e < nextDay (last r s))%Z))
         /\ (fixedOffset nextDay ->
             Forall (fun t => ((t - s) mod msPerDay = 0)%Z) r
             /\ ((s <= e)%Z -> (e - msPerDay < last r s)%Z))).
Proof.
  split.
  - intro Hs. unfold buildDateRange. now rewrite Hs.
  - intros s e Hs He r.
    assert (Hr : r = dateLoop nextDay (rangeFuel s e) s e).
    { unfold r. now apply buildDateRange_valid. }
    assert (Hgen : advances nextDay ->
              Forall (fun t => (s <= t <= e)%Z) r
              /\ ((s <= e)%Z ->
                  hd_error r = Some s /\ (last r s <= e < nextDay (last r s))%Z)).
    { intro Hadv. pose proof (dateLoop_bounds nextDay Hadv (rangeFuel s e) s e) as Hb.
      rewrite <- Hr in Hb. split; [exact Hb |].
      intro Hle. split; [| split].
      - rewrite Hr. pose proof (rangeFuel_positive _ _ Hle) as Hpos.
        destruct (rangeFuel s e) as [| fuel]; [lia |].
        now rewrite dateLoop_head.
      - destruct r as [| x r'] using rev_ind; [simpl; lia |].
        rewrite last_last. apply Forall_app in Hb. destruct Hb as [_ Hb].
        inversion Hb; subst. lia.
      - rewrite Hr. apply dateLoop_last; [assumption | lia | assumption]. }
    split; [| split; [exact Hgen |]].
    + intro Hlt. rewrite Hr. now apply dateLoop_past.
    + intro Hfixed. split.
      * unfold r. rewrite (buildDateRange_fixed _ _ _ _ _ _ Hfixed Hs He).
        apply Forall_forall. intros t Ht. unfold daysFrom in Ht.
        apply in_map_iff in Ht. destruct Ht as [i [Hti _]]. subst t.
        replace (s + Z.of_nat i * msPerDay - s)%Z with (Z.of_nat i * msPerDay)%Z by lia.
        apply Z.mod_mul. pose proof msPerDay_pos. lia.
      * intro Hle.
        destruct (Hgen (fixedOffset_advances _ Hfixed)) as [_ Hlast].
        destruct (Hlast Hle) as [_ [_ Hnext]]. rewrite Hfixed in Hnext. lia.
Qed.

Lemma resolveDate_stored tripDate param t :
  validTime (toDate parseDateString tripDate) = Some t ->
  validTime (resolveDate parseDateString tripDate param) = Some t.
Proof.
  unfold resolveDate, orArg, toDate, parseDate.
  destruct tripDate as [| [t0 |] | str]; cbn; try discriminate.
  - intro H. exact H.
  - destruct (truthy str) eqn:Hs; cbn; [| discriminate].
    rewrite Hs. now destruct (parseDateString str).
Qed.

(** X9.  A date of the trip store that resolves to a valid date always wins;
    the function argument is read only when the stored date is missing or
    does not resolve. *)
Theorem stored_date_takes_precedence tripDate param :
  validTime (resolveDate parseDateString tripDate param)
  = match validTime (toDate parseDateString tripDate) with
    | Some t => Some t
    | None => validTime (toDate parseDateString param)
    end.
Proof.
  unfold resolveDate, orArg, toDate, parseDate.
  destruct tripDate as [| [t |] | str]; destruct param as [| [t' |] | str']; cbn;
    repeat match goal with
           | |- context [truthy ?x] =>
               let H := fresh "H" in destruct (truthy x) eqn:H; cbn; rewrite ?H; cbn
           | |- context [parseDateString ?x] =>
               let H := fresh "H" in
               destruct (parseDateString x) eqn:H; cbn; rewrite ?H; cbn
           end;
    reflexivity.
Qed.

(** X10.  When the trip store holds an end date that resolves, the [endDate]
    argument has no influence on the itinerary: a one-way request after a
    round trip was stored is still laid out as that round trip. *)
Theorem stored_end_date_governs ts flightSel hotelSel allActivities startDate
        returnFlight e endDate endDate' :
  validTime (toDate parseDateString (ts_endDate ts)) = Some e ->
  createDayByDayItinerary parseDateString nextDay ts flightSel hotelSel allActivities
                          startDate endDate returnFlight
  = createDayByDayItinerary parseDateString nextDay ts flightSel hotelSel allActivities
                            startDate endDate' returnFlight.
Proof.
  intro He. unfold createDayByDayItinerary, resolveWindow.
  now rewrite !(resolveDate_stored _ _ e He).
Qed.
End Host.

Lemma buildDateRange_bounds_witness :
  buildDateRange Examples.parsesNothing Examples.utcNextDay (DStr "soon") (Examples.onDay 3)
  = []
  /\ buildDateRange Examples.parsesNothing Examples.utcNextDay (Examples.onDay 3)
       (Examples.onDay 0) = []
  /\ (let e := (Examples.oct30NewYork + 7 * msPerDay)%Z in
      let r := buildDateRange Examples.parsesNothing Examples.newYorkNextDay
                 (DObj (ValidDate Examples.oct30NewYork)) (DObj (ValidDate e)) in
      hd_error r = Some Examples.oct30NewYork
      /\ (last r Examples.oct30NewYork <= e
          < Examples.newYorkNextDay (last r Examples.oct30NewYork))%Z)
  /\ (let e := (Examples.nov20 + 3 * msPerDay + 5 * msPerHour)%Z in
      let r := buildDateRange Examples.parsesNothing Examples.utcNextDay
                 (Examples.onDay 0) (DObj (ValidDate e)) in
      (e - msPerDay < last r Examples.nov20)%Z).
Proof.
  split; [| split; [| split]].
  - exact (proj1 (buildDateRange_bounds Examples.parsesNothing Examples.utcNextDay
                    (DStr "soon") (Examples.onDay 3)) eq_refl).
  - exact (proj1 (proj2 (buildDateRange_bounds Examples.parsesNothing Examples.utcNextDay
                           (Examples.onDay 3) (Examples.onDay 0))
                        (Examples.nov20 + 3 * msPerDay)%Z Examples.nov20 eq_refl eq_refl)
                 eq_refl).
  - intros e r.
    destruct (proj2 (buildDateRange_bounds Examples.parsesNothing Examples.newYorkNextDay
                       (DObj (ValidDate Examples.oct30NewYork)) (DObj (ValidDate e)))
                    Examples.oct30NewYork e eq_refl eq_refl) as [_ [Hgen _]].
    exact (proj2 (Hgen newYork_advances) ltac:(vm_compute; discriminate)).
  - intros e r.
    destruct (proj2 (buildDateRange_bounds Examples.parsesNothing Examples.utcNextDay
                       (Examples.onDay 0) (DObj (ValidDate e)))
                    Examples.nov20 e eq_refl eq_refl) as [_ [_ Hfix]].
    exact (proj2 (Hfix utc_fixedOffset) ltac:(vm_compute; discriminate)).
Defined.

Lemma stored_end_date_governs_witness :
  let ts := {| ts_startDate := DNull; ts_endDate := Examples.onDay 2;
               ts_mustDoActivities := []; ts_preferences := None |} in
  createDayByDayItinerary Examples.parsesNothing Examples.utcNextDay ts None None [] (Examples.onDay 0) DNull None
  = createDayByDayItinerary Examples.parsesNothing Examples.utcNextDay ts None None [] (Examples.onDay 0)
                            (Examples.onDay 0) None.
Proof.
  intro ts.
  exact (stored_end_date_governs Examples.parsesNothing Examples.utcNextDay ts None None [] (Examples.onDay 0) None
           (Examples.nov20 + 2 * msPerDay)%Z DNull (Examples.onDay 0) eq_refl).
Defined.

End WindowFacts.

(* ===================================================================== *)
(** * More facts: when cost extraction throws *)
(* ===================================================================== *)

Module CostMoreFacts.
Import JsString Cost CostFacts.

Section Host.
Variable parseFloat : string -> JsNum.

(** X11.  [extractPrice] throws exactly for an item whose price is [null]; so
    behind the guard [if (x.price)], which a [null] price does not pass, it
    always returns. *)
Theorem extractPrice_throws_on_null_only item :
  ((exists msg, extractPrice parseFloat item = Throw msg)
   <-> exists fields, item = VObj fields /\ lookup fields "price" = VNull)
  /\ (forall fields,
         item = VObj fields -> truthyVal (lookup fields "price") = true ->
         exists v, extractPrice parseFloat item = Return v).
Proof.
  split; [split |].
  - intros [msg H]. destruct item as [| | b | n | str | fields];
      try (unfold extractPrice in H; simpl in H;
           repeat match type of H with
                  | context [if ?c then _ else _] => destruct c
                  end; discriminate H).
    exists fields. split; [reflexivity |].
    rewrite extractPrice_object in H.
    destruct (lookup fields "price"); try discriminate H. reflexivity.
  - intros [fields [-> Hnull]]. rewrite extractPrice_object, Hnull. eexists. reflexivity.
  - intros fields -> Htruthy. rewrite extractPrice_object.
    destruct (lookup fields "price"); try discriminate Htruthy; eexists; reflexivity.
Qed.
End Host.

Lemma extractPrice_throws_on_null_only_witness :
  exists v, extractPrice parseDigits (VObj [("price", VStr "80")]) = Return v.
Proof.
  exact (proj2 (extractPrice_throws_on_null_only parseDigits (VObj [("price", VStr "80")]))
               [("price", VStr "80")] eq_refl eq_refl).
Defined.

End CostMoreFacts.

(* ===================================================================== *)
(** * More facts: recording must-do activities *)
(* ===================================================================== *)

Module TripStoreMoreFacts.
Import JsString TripStore TripStoreFacts.

Lemma alreadyExists_app existing more n :
  alreadyExists (existing ++ more) n = orb (alreadyExists existing n) (alreadyExists more n).
Proof. unfold alreadyExists. apply existsb_app. Qed.

Lemma trimEnd_cons c r :
  trimEnd (String c r)
  = match trimEnd r with
    | EmptyString => if isWhiteSpace c then EmptyString else String c EmptyString
    | r' => String c r'
    end.
Proof. reflexivity. Qed.

Lemma trimEnd_idem s : trimEnd (trimEnd s) = trimEnd s.
Proof.
  induction s as [| c s IH]; [reflexivity |].
  rewrite trimEnd_cons. destruct (trimEnd s) as [| c' s'] eqn:E.
  - destruct (isWhiteSpace c) eqn:W; [reflexivity |].
    rewrite trimEnd_cons. simpl. now rewrite W.
  - rewrite trimEnd_cons, IH. reflexivity.
Qed.

Lemma trimStart_head s :
  trimStart s = EmptyString
  \/ exists c r, trimStart s = String c r /\ isWhiteSpace c = false.
Proof.
  induction s as [| c s IH]; [now left |]. simpl.
  destruct (isWhiteSpace c) eqn:W; [exact IH |].
  right. now exists c, s.
Qed.

Lemma trimEnd_head c r :
  isWhiteSpace c = false -> exists r', trimEnd (String c r) = String c r'.
Proof.
  intro W. rewrite trimEnd_cons. destruct (trimEnd r) as [| c' s'].
  - rewrite W. now exists EmptyString.
  - now exists (String c' s').
Qed.

Lemma trim_idem s : trim (trim s) = trim s.
Proof.
  unfold trim. destruct (trimStart_head s) as [-> | [c [r [-> W]]]]; [reflexivity |].
  destruct (trimEnd_head c r W) as [r' Hr]. rewrite Hr at 1.
  assert (Hs : trimStart (String c r') = String c r') by (simpl; now rewrite W).
  rewrite Hs, <- Hr. apply trimEnd_idem.
Qed.

Lemma recordOne_extends now existing a :
  exists added, recordOne now existing a = existing ++ added
                /\ (List.length added <= 1)%nat
                /\ Forall (fun e => recordedAt e = Some now /\ truthy (name e) = true
                                    /\ name e = trim (name e)
                                    /\ alreadyExists existing (name e) = false) added.
Proof.
  unfold recordOne.
  destruct (in_name a) as [n |]; [| exists []; rewrite app_nil_r; repeat split; auto].
  destruct (truthy n); simpl; [| exists []; rewrite app_nil_r; repeat split; auto].
  destruct (truthy (trim n)) eqn:Ht; simpl;
    [| exists []; rewrite app_nil_r; repeat split; auto].
  destruct (alreadyExists existing (trim n)) eqn:Hex;
    [exists []; rewrite app_nil_r; repeat split; auto |].
  exists [stamp a (trim n) now]. repeat split; auto.
  constructor; [| constructor]. simpl. repeat split; auto.
  symmetry. apply trim_idem.
Qed.

Lemma fold_recordOne_extends now activities : forall existing,
  exists added,
    fold_left (recordOne now) activities existing = existing ++ added
    /\ (List.length added <= List.length activities)%nat
    /\ Forall (fun e => recordedAt e = Some now /\ truthy (name e) = true
                        /\ name e = trim (name e)) added.
Proof.
  induction activities as [| a l IH]; intro existing; simpl.
  - exists []. rewrite app_nil_r. repeat split; auto.
  - destruct (recordOne_extends now existing a) as [one [Hone [Hlen1 Hall1]]].
    destruct (IH (recordOne now existing a)) as [more [Hmore [Hlen Hall]]].
    exists (one ++ more). rewrite Hmore, Hone, <- app_assoc. repeat split.
    + rewrite length_app. lia.
    + apply Forall_app. split; [| exact Hall].
      eapply Forall_impl; [| exact Hall1]. intros e [H1 [H2 [H3 _]]]. auto.
Qed.

(** X12.  Recording must-do activities never removes, reorders or alters what is
    stored: the result is the stored list followed by the accepted
    activities, at most one per incoming activity, each with a non-empty
    trimmed name and the time of recording. *)
Theorem recordMustDoActivities_appends now stored activities :
  exists added,
    recordMustDoActivities now stored activities = stored ++ added
    /\ (List.length added <= List.length activities)%nat
    /\ Forall (fun e => recordedAt e = Some now /\ truthy (name e) = true
                        /\ name e = trim (name e)) added.
Proof.
  unfold recordMustDoActivities. destruct activities as [| a l].
  - exists []. rewrite app_nil_r. repeat split; auto.
  - apply fold_recordOne_extends.
Qed.

(** Once handled, an activity is rejected by every later store that
    extends the result. *)
Lemma recordOne_settled now now' existing a more :
  recordOne now' (recordOne now existing a ++ more) a = recordOne now existing a ++ more.
Proof.
  unfold recordOne at 1.
  destruct (in_name a) as [n |] eqn:Hn; [| reflexivity].
  destruct (truthy n) eqn:Htn; simpl; [| reflexivity].
  destruct (truthy (trim n)) eqn:Ht; simpl; [| reflexivity].
  assert (Hex : alreadyExists (recordOne now existing a ++ more) (trim n) = true).
  { rewrite alreadyExists_app. apply orb_true_iff. left.
    unfold recordOne. rewrite Hn, Htn, Ht. simpl.
    destruct (alreadyExists existing (trim n)) eqn:E; [exact E |].
    rewrite alreadyExists_app, E. simpl. now rewrite String.eqb_refl. }
  now rewrite Hex.
Qed.

Lemma fold_recordOne_settled now now' activities : forall existing a more,
  In a activities ->
  recordOne now' (fold_left (recordOne now) activities existing ++ more) a
  = fold_left (recordOne now) activities existing ++ more.
Proof.
  induction activities as [| x l IH]; intros existing a more Hin; [destruct Hin |].
  simpl. destruct Hin as [-> | Hin].
  - destruct (fold_recordOne_extends now l (recordOne now existing a)) as [added [-> _]].
    rewrite <- app_assoc. apply recordOne_settled.
  - now apply IH.
Qed.

Lemma fold_fixed {A B : Type} (f : A -> B -> A) (l : list B) (st : A) :
  (forall x, In x l -> f st x = st) -> fold_left f l st = st.
Proof.
  induction l as [| x l IH]; intro H; simpl; [reflexivity |].
  rewrite (H x (or_introl eq_refl)). apply IH. intros y Hy. apply H. now right.
Qed.

(** X13.  Recording the same activities a second time, at whatever time, changes
    nothing. *)
Theorem recordMustDoActivities_idempotent now now' stored activities :
  recordMustDoActivities now' (recordMustDoActivities now stored activities) activities
  = recordMustDoActivities now stored activities.
Proof.
  unfold recordMustDoActivities. destruct activities as [| a l]; [reflexivity |].
  apply fold_fixed. intros x Hx.
  rewrite <- (app_nil_r (fold_left (recordOne now) (a :: l) stored)).
  now apply fold_recordOne_settled.
Qed.

End TripStoreMoreFacts.

(* ===================================================================== *)
(** * More facts: selections kept by id *)
(* ===================================================================== *)

Module SelectionFacts.
Import JsString Cost StoreOps.

Lemma lookup_app (o1 o2 : Obj) key :
  lookup (o1 ++ o2) key = if hasKey o1 key then lookup o1 key else lookup o2 key.
Proof.
  induction o1 as [| [k v] r IH]; [reflexivity |]. simpl.
  destruct (String.eqb k key); [reflexivity | exact IH].
Qed.

Lemma lookup_absent (o : Obj) key : hasKey o key = false -> lookup o key = VUndefined.
Proof.
  induction o as [| [k v] r IH]; [reflexivity |]. simpl.
  destruct (String.eqb k key); [discriminate | exact IH].
Qed.

Lemma lookup_setProp (o : Obj) k v key :
  lookup (setProp o k v) key = if String.eqb k key then v else lookup o key.
Proof. reflexivity. Qed.

Lemma lookup_objectOf1 (a : Obj) key : lookup (objectOf [a]) key = lookup a key.
Proof. unfold objectOf, spread. cbn [fold_left]. now rewrite app_nil_r. Qed.

Lemma lookup_objectOf2 (a b : Obj) key :
  lookup (objectOf [a; b]) key = if hasKey b key then lookup b key else lookup a key.
Proof.
  unfold objectOf, spread. cbn [fold_left]. now rewrite lookup_app, app_nil_r.
Qed.

Lemma lookup_other (o : Obj) k v key :
  key <> k -> lookup (setProp o k v) key = lookup o key.
Proof.
  intro H. rewrite lookup_setProp.
  destruct (String.eqb k key) eqn:E; [apply String.eqb_eq in E; congruence | reflexivity].
Qed.

Lemma Qeq_bool_trans x y z : Qeq_bool x y = true -> Qeq_bool y z = Qeq_bool x z.
Proof.
  intro H. apply Qeq_bool_iff in H.
  destruct (Qeq_bool y z) eqn:E1, (Qeq_bool x z) eqn:E2; try reflexivity.
  - apply Qeq_bool_iff in E1. assert (Hxz : x == z) by (now rewrite H).
    apply Qeq_bool_iff in Hxz. congruence.
  - apply Qeq_bool_iff in E2. assert (Hyz : y == z) by (now rewrite <- H).
    apply Qeq_bool_iff in Hyz. congruence.
Qed.

Lemma strictEq_sym a b : strictEq a b = strictEq b a.
Proof.
  destruct a as [| | x | [x | | |] | x | x], b as [| | y | [y | | |] | y | y];
    simpl; try reflexivity.
  - destruct x, y; reflexivity.
  - destruct (Qeq_bool x y) eqn:E1, (Qeq_bool y x) eqn:E2; try reflexivity.
    + apply Qeq_bool_iff in E1. symmetry in E1. apply Qeq_bool_iff in E1. congruence.
    + apply Qeq_bool_iff in E2. symmetry in E2. apply Qeq_bool_iff in E2. congruence.
  - apply String.eqb_sym.
Qed.

Lemma strictEq_trans a b c : strictEq a b = true -> strictEq b c = strictEq a c.
Proof.
  destruct a as [| | x | [x | | |] | x | x], b as [| | y | [y | | |] | y | y];
    simpl; try discriminate; try reflexivity; intro H.
  - apply Bool.eqb_prop in H. now subst.
  - destruct c as [| | z | [z | | |] | z | z]; simpl; try reflexivity.
    now apply Qeq_bool_trans.
  - apply String.eqb_eq in H. now subst.
Qed.

Lemma findIndex_Some {A : Type} (p : A -> bool) (d : A) : forall l index,
  findIndex p l = Some index ->
  (index < List.length l)%nat /\ p (nth index l d) = true
  /\ forall j, (j < index)%nat -> p (nth j l d) = false.
Proof.
  induction l as [| x r IH]; intros index H; simpl in H; [discriminate |].
  destruct (p x) eqn:Hp.
  - injection H as <-. simpl. repeat split; [lia | exact Hp | intros j Hj; lia].
  - destruct (findIndex p r) as [i |] eqn:E; [| discriminate].
    injection H as <-. destruct (IH i eq_refl) as [H1 [H2 H3]]. simpl.
    repeat split; [lia | exact H2 |].
    intros [| j] Hj; [exact Hp | apply H3; lia].
Qed.

Lemma findIndex_None {A : Type} (p : A -> bool) (d : A) : forall l,
  findIndex p l = None -> forall j, (j < List.length l)%nat -> p (nth j l d) = false.
Proof.
  induction l as [| x r IH]; intros H j Hj; simpl in *; [lia |].
  destruct (p x) eqn:Hp; [discriminate |].
  destruct (findIndex p r) eqn:E; [discriminate |].
  destruct j as [| j]; [exact Hp | apply IH; [reflexivity | lia]].
Qed.

Lemma findIndex_existsb {A : Type} (p : A -> bool) : forall l,
  existsb p l = match findIndex p l with Some _ => true | None => false end.
Proof.
  induction l as [| x r IH]; [reflexivity |]. simpl.
  destruct (p x); [reflexivity |]. simpl. rewrite IH. now destruct (findIndex p r).
Qed.

Lemma setAt_length {A : Type} (v : A) : forall l index,
  List.length (setAt l index v) = List.length l.
Proof.
  induction l as [| x r IH]; intros [| i]; simpl; try reflexivity. now rewrite IH.
Qed.

Lemma nth_setAt_same {A : Type} (v d : A) : forall l index,
  (index < List.length l)%nat -> nth index (setAt l index v) d = v.
Proof.
  induction l as [| x r IH]; intros [| i] H; simpl in *; try lia; [reflexivity |].
  apply IH. lia.
Qed.

Lemma setAt_In {A : Type} (v : A) : forall l index,
  (index < List.length l)%nat -> In v (setAt l index v).
Proof.
  induction l as [| x r IH]; intros [| i] H; simpl in *; try lia; [now left |].
  right. apply IH. lia.
Qed.

Lemma nth_setAt_other {A : Type} (v d : A) : forall l index j,
  j <> index -> nth j (setAt l index v) d = nth j l d.
Proof.
  induction l as [| x r IH]; intros [| i] [| j] H; simpl; try reflexivity;
    try contradiction. apply IH. congruence.
Qed.

(** The id of the entry [upsertItem] writes over a matching one. *)
Lemma merged_id now (existing item : Obj) other :
  strictEq (idOf existing) (idOf item) = true ->
  strictEq (idOf (setProp (objectOf [existing; item]) "updatedAt" (VStr now))) other
  = strictEq (idOf existing) other.
Proof.
  intro H. unfold idOf, setProp, objectOf, spread. simpl.
  rewrite lookup_app, app_nil_r.
  destruct (hasKey item "id"); [| reflexivity].
  apply strictEq_trans. exact H.
Qed.

Lemma appended_id now (item : Obj) :
  idOf (setProp (objectOf [item]) "updatedAt" (VStr now)) = idOf item.
Proof. unfold idOf, setProp, objectOf, spread. simpl. now rewrite app_nil_r. Qed.

Lemma upsertItem_distinct now l item :
  distinctIds l -> distinctIds (upsertItem now (Some l) item).
Proof.
  intros Hd. unfold upsertItem.
  destruct (findIndex (fun existing => strictEq (idOf existing) (idOf item)) l)
    as [index |] eqn:E.
  - destruct (@findIndex_Some Obj _ [] _ _ E) as [Hlt [Hm _]].
    intros i j Hij. rewrite setAt_length in Hij.
    destruct (Nat.eq_dec i index) as [-> | Hi].
    + rewrite nth_setAt_same by lia.
      rewrite nth_setAt_other by lia.
      rewrite merged_id by exact Hm. apply Hd. lia.
    + rewrite (nth_setAt_other _ _ _ _ i) by exact Hi.
      destruct (Nat.eq_dec j index) as [-> | Hj].
      * rewrite nth_setAt_same by lia. rewrite strictEq_sym.
        rewrite merged_id by exact Hm. rewrite strictEq_sym. apply Hd. lia.
      * rewrite nth_setAt_other by exact Hj. apply Hd. lia.
  - intros i j Hij. rewrite length_app in Hij. simpl in Hij.
    assert (Hi : (i < List.length l)%nat) by lia.
    rewrite (app_nth1 l _ [] Hi).
    destruct (Nat.eq_dec j (List.length l)) as [-> | Hj].
    + rewrite (app_nth2 l _ [] (Nat.le_refl (List.length l))).
      rewrite Nat.sub_diag. simpl.
      rewrite appended_id.
      exact (@findIndex_None Obj _ [] _ E i Hi).
    + rewrite app_nth1 by lia. apply Hd. lia.
Qed.

Lemma upsertItem_length now l item :
  List.length (upsertItem now (Some l) item)
  = if existsb (fun existing => strictEq (idOf existing) (idOf item)) l
    then List.length l else S (List.length l).
Proof.
  rewrite findIndex_existsb. unfold upsertItem.
  destruct (findIndex _ l) as [index |].
  - apply setAt_length.
  - rewrite length_app. simpl. lia.
Qed.

(** X14.  What [upsertItem] writes: one entry, at the first index whose id
    equals the item's (that entry matches, no earlier one does) or else,
    when no entry matches, at the end, lengthening the list by one.  That
    entry holds the item's properties over those of the entry it replaces,
    with the time of the call as [updatedAt]; every other entry is left as
    it was. *)
Theorem upsertItem_merges now l item :
  let result := upsertItem now (Some l) item in
  exists index,
    (index <= List.length l)%nat
    /\ List.length result = Nat.max (List.length l) (S index)
    /\ (forall j, (j < index)%nat ->
          strictEq (idOf (nth j l [])) (idOf item) = false)
    /\ ((index < List.length l)%nat ->
          strictEq (idOf (nth index l [])) (idOf item) = true)
    /\ (forall j, j <> index -> nth j result [] = nth j l [])
    /\ lookup (nth index result []) "updatedAt" = VStr now
    /\ (forall key, key <> "updatedAt" ->
          lookup (nth index result []) key
          = if hasKey item key then lookup item key
            else lookup (nth index l []) key).
Proof.
  intro result. subst result. unfold upsertItem.
  destruct (findIndex (fun existing => strictEq (idOf existing) (idOf item)) l)
    as [index |] eqn:E.
  - destruct (@findIndex_Some Obj _ [] _ _ E) as [Hlt [Hm Hbefore]].
    exists index. rewrite setAt_length.
    split; [lia |]. split; [lia |]. split; [exact Hbefore |].
    split; [intros _; exact Hm |].
    split; [intros j Hj; now apply nth_setAt_other |].
    rewrite nth_setAt_same by exact Hlt.
    split; [reflexivity |].
    intros key Hkey. rewrite lookup_other by exact Hkey.
    apply lookup_objectOf2.
  - exists (List.length l). rewrite length_app. simpl.
    split; [lia |]. split; [lia |].
    split; [intros j Hj; now apply (@findIndex_None Obj _ [] _ E) |].
    split; [intro Hlt; lia |].
    split.
    + intros j Hj. destruct (Nat.lt_ge_cases j (List.length l)) as [Hlt | Hge].
      * now apply app_nth1.
      * rewrite !nth_overflow; [reflexivity | lia | rewrite length_app; simpl; lia].
    + rewrite app_nth2 by lia. rewrite Nat.sub_diag. cbn [nth].
      split; [reflexivity |].
      intros key Hkey. rewrite lookup_other by exact Hkey.
      rewrite lookup_objectOf1.
      rewrite (nth_overflow l) by lia. cbn [lookup].
      destruct (hasKey item key) eqn:Hk; [reflexivity |].
      now apply lookup_absent.
Qed.

(** X15.  An item whose id equals itself is found again: storing it a second
    time does not add an entry. *)
Theorem upsertItem_twice now now' l item :
  strictEq (idOf item) (idOf item) = true ->
  List.length (upsertItem now' (Some (upsertItem now (Some l) item)) item)
  = List.length (upsertItem now (Some l) item).
Proof.
  intro Hself. rewrite (upsertItem_length now' _ item).
  assert (Hex : existsb (fun existing => strictEq (idOf existing) (idOf item))
                        (upsertItem now (Some l) item) = true).
  { apply existsb_exists. unfold upsertItem.
    destruct (findIndex (fun existing => strictEq (idOf existing) (idOf item)) l)
      as [index |] eqn:E.
    - destruct (@findIndex_Some Obj _ [] _ _ E) as [Hlt [Hm _]].
      exists (setProp (objectOf [nth index l []; item]) "updatedAt" (VStr now)).
      split; [now apply setAt_In |].
      rewrite merged_id by exact Hm. exact Hm.
    - exists (setProp (objectOf [item]) "updatedAt" (VStr now)).
      split; [apply in_or_app; right; left; reflexivity |].
      now rewrite appended_id. }
  now rewrite Hex.
Qed.

(** X16.  Recording selections keeps each of the three lists free of repeated
    ids, whatever the category and the selection. *)
Theorem recordTripSelection_distinct_ids now state category selection :
  distinctIds (flights state) ->
  distinctIds (accommodation state) ->
  distinctIds (activities state) ->
  let next := recordTripSelection now state category selection in
  distinctIds (flights next) /\ distinctIds (accommodation next)
  /\ distinctIds (activities next).
Proof.
  intros Hf Hh Ha. unfold recordTripSelection.
  destruct selection as [sel |]; [| now repeat split].
  destruct (truthy category); simpl; [| now repeat split].
  destruct (String.eqb category "flight");
    [simpl; repeat split; auto; now apply upsertItem_distinct |].
  destruct (String.eqb category "hotel");
    [simpl; repeat split; auto; now apply upsertItem_distinct |].
  destruct (String.eqb category "activity");
    [simpl; repeat split; auto; now apply upsertItem_distinct |].
  now repeat split.
Qed.

Lemma upsertItem_merges_witness :
  lookup (nth 0 (upsertItem "t2" (Some [[("id", VStr "F1"); ("price", VNum (Fin 5))]])
                   [("id", VStr "F1"); ("seat", VStr "12A")]) [])
         "price" = VNum (Fin 5).
Proof.
  destruct (upsertItem_merges "t2" [[("id", VStr "F1"); ("price", VNum (Fin 5))]]
              [("id", VStr "F1"); ("seat", VStr "12A")])
    as [index [_ [Hlen [_ [_ [_ [_ Hkeys]]]]]]].
  assert (Hindex : index = 0%nat) by (vm_compute in Hlen; lia).
  subst index. apply (Hkeys "price"). discriminate.
Defined.

Lemma upsertItem_twice_witness :
  List.length (upsertItem "t2" (Some (upsertItem "t1" (Some []) [("id", VStr "F1")]))
                 [("id", VStr "F1")])
  = List.length (upsertItem "t1" (Some []) [("id", VStr "F1")]).
Proof. exact (upsertItem_twice "t1" "t2" [] [("id", VStr "F1")] eq_refl). Defined.

Lemma recordTripSelection_distinct_ids_witness :
  let next := recordTripSelection "t1" (mkSelections [[("id", VStr "F1")]] [] []) "flight"
                (Some [("id", VStr "F1"); ("seat", VStr "12A")]) in
  distinctIds (flights next) /\ distinctIds (accommodation next)
  /\ distinctIds (activities next).
Proof.
  apply (recordTripSelection_distinct_ids "t1" (mkSelections [[("id", VStr "F1")]] [] [])
           "flight" (Some [("id", VStr "F1"); ("seat", VStr "12A")]));
    intros i j H; simpl in H; lia.
Defined.

End SelectionFacts.

(* ===================================================================== *)
(** * More facts: the budget filter *)
(* ===================================================================== *)

Module BudgetFacts.
Import JsString Cost StoreOps SelectionFacts.

Lemma lookup_cons (o : Obj) k v key :
  lookup ((k, v) :: o) key = if String.eqb k key then v else lookup o key.
Proof. reflexivity. Qed.

Lemma lookup_cons_other (o : Obj) k v key :
  key <> k -> lookup ((k, v) :: o) key = lookup o key.
Proof. apply lookup_other. Qed.

Lemma updateTripFilters_unfold now stored partial :
  updateTripFilters now stored partial
  = ("updatedAt", VStr now) :: (partial ++ stored ++ defaultFilters) ++ defaultFilters.
Proof.
  unfold updateTripFilters, savedFilters, objectOf, spread, setProp.
  cbn [fold_left]. now rewrite !app_nil_r.
Qed.

Lemma keepDigitsAndDots_skip c s2 : forall s1,
  isDigitOrDot c = false ->
  keepDigitsAndDots (s1 ++ String c s2) = keepDigitsAndDots (s1 ++ s2).
Proof.
  intros s1 Hc. induction s1 as [| x r IH]; simpl.
  - now rewrite Hc.
  - now rewrite IH.
Qed.

Section Host.
Variable toNumber : string -> JsNum.

(** X17.  A budget is either ignored, leaving the filters as they are, or
    recorded: then it is a finite number above zero, stored under both
    [activityBudgetMax] and [budget] with the time of the call, and every
    other filter keeps its value. *)
Theorem budget_recorded_or_ignored now stored amount :
  let result := recordBudgetConstraint toNumber now stored amount in
  (finitePositive (budgetNumber toNumber amount) = false /\ result = stored)
  \/ (exists q, budgetNumber toNumber amount = Fin q /\ 0 < q
        /\ lookup result "activityBudgetMax" = VNum (Fin q)
        /\ lookup result "budget" = VNum (Fin q)
        /\ lookup result "updatedAt" = VStr now
        /\ forall key, key <> "activityBudgetMax" -> key <> "budget" ->
             key <> "updatedAt" -> lookup result key = lookup stored key).
Proof.
  intro result. subst result. unfold recordBudgetConstraint.
  destruct (finitePositive (budgetNumber toNumber amount)) eqn:Hfp;
    [right | left; now split].
  cbn [negb]. destruct (budgetNumber toNumber amount) as [q | | |] eqn:Hn;
    try discriminate.
  exists q. split; [reflexivity |]. split.
  { unfold finitePositive in Hfp. apply negb_true_iff in Hfp.
    destruct (Qlt_le_dec 0 q) as [Hlt | Hle]; [exact Hlt |].
    apply Qle_bool_iff in Hle. congruence. }
  rewrite updateTripFilters_unfold.
  split; [reflexivity |]. split; [reflexivity |]. split; [reflexivity |].
  intros key H1 H2 H3.
  rewrite lookup_cons_other by exact H3.
  cbn [app]. rewrite lookup_cons_other by exact H1.
  rewrite lookup_cons_other by exact H2.
  rewrite <- app_assoc, lookup_app.
  destruct (hasKey stored key) eqn:Hk; [reflexivity |].
  unfold defaultFilters. cbn [app].
  rewrite !lookup_cons_other by exact H1. cbn [lookup].
  symmetry. now apply lookup_absent.
Qed.

(** X18.  In a text amount only the digits and the dots count: any other
    character, a minus sign included, is dropped before the text is read
    as a number. *)
Theorem budget_text_ignores_symbols now stored c s1 s2 :
  isDigitOrDot c = false ->
  recordBudgetConstraint toNumber now stored (VStr (s1 ++ String c s2))
  = recordBudgetConstraint toNumber now stored (VStr (s1 ++ s2)).
Proof.
  intro Hc. unfold recordBudgetConstraint, budgetNumber, stringOf, toStringPrim.
  now rewrite keepDigitsAndDots_skip.
Qed.

(** X19.  With [Number('')] being 0, an amount that is neither a number nor a
    text is ignored. *)
Theorem budget_needs_number_or_text now stored amount :
  toNumber EmptyString = Fin 0 ->
  (forall n, amount <> VNum n) ->
  (forall s, amount <> VStr s) ->
  recordBudgetConstraint toNumber now stored amount = stored.
Proof.
  intros Hempty Hnum Hstr. unfold recordBudgetConstraint, budgetNumber.
  destruct amount as [| | [|] | n | s | fields];
    try (exfalso; now apply (Hnum n));
    try (exfalso; now apply (Hstr s));
    unfold stringOf, toStringPrim;
    match goal with
    | |- context [keepDigitsAndDots ?s] =>
        let r := eval vm_compute in (keepDigitsAndDots s) in
        change (keepDigitsAndDots s) with r
    end;
    rewrite Hempty; reflexivity.
Qed.

End Host.

Lemma budget_recorded_or_ignored_witness :
  lookup (recordBudgetConstraint numberOfDigits "t1" [("currency", VStr "EUR")]
            (VStr "$120")) "currency" = VStr "EUR".
Proof.
  destruct (budget_recorded_or_ignored numberOfDigits "t1" [("currency", VStr "EUR")]
              (VStr "$120"))
    as [[Hfp _] | [q [_ [_ [_ [_ [_ Hkeys]]]]]]].
  - vm_compute in Hfp. discriminate Hfp.
  - apply Hkeys; discriminate.
Defined.

Lemma budget_text_ignores_symbols_witness :
  recordBudgetConstraint numberOfDigits "t1" [] (VStr "-50")
  = recordBudgetConstraint numberOfDigits "t1" [] (VStr "50")
  /\ lookup (recordBudgetConstraint numberOfDigits "t1" [] (VStr "-50")) "budget"
     = VNum (Fin (inject_Z 50)).
Proof.
  split; [| reflexivity].
  exact (budget_text_ignores_symbols numberOfDigits "t1" [] "-"%char EmptyString "50"
           eq_refl).
Defined.

Lemma budget_needs_number_or_text_witness :
  recordBudgetConstraint numberOfDigits "t1" [("budget", VNum (Fin 7))] VNull
  = [("budget", VNum (Fin 7))].
Proof.
  apply (budget_needs_number_or_text numberOfDigits "t1" [("budget", VNum (Fin 7))] VNull
           eq_refl); intros x H; discriminate H.
Defined.

End BudgetFacts.

(* ===================================================================== *)
(** * More facts: preferred categories *)
(* ===================================================================== *)

Module PreferenceFacts.
Import JsString Cost StoreOps.

Lemma existsb_eqb_In x (s : list string) : existsb (String.eqb x) s = true <-> In x s.
Proof.
  rewrite existsb_exists. split.
  - intros [y [Hy He]]. apply String.eqb_eq in He. now subst.
  - intro H. exists x. split; [exact H | apply String.eqb_refl].
Qed.

Lemma setAdd_In s x y : In y (setAdd s x) <-> In y s \/ y = x.
Proof.
  unfold setAdd. destruct (existsb (String.eqb x) s) eqn:E.
  - apply existsb_eqb_In in E. split; [now left | intros [H | ->]; assumption].
  - rewrite in_app_iff. simpl. intuition.
Qed.

Lemma setAdd_NoDup s x : NoDup s -> NoDup (setAdd s x).
Proof.
  intro H. unfold setAdd. destruct (existsb (String.eqb x) s) eqn:E; [exact H |].
  apply NoDup_app; [exact H | constructor; [intros [] | constructor] |].
  intros y Hy [Hxy | []]. subst y.
  apply (proj2 (existsb_eqb_In x s)) in Hy. congruence.
Qed.

Lemma setAdd_extends s x : exists added, setAdd s x = s ++ added.
Proof.
  unfold setAdd. destruct (existsb (String.eqb x) s).
  - exists []. now rewrite app_nil_r.
  - now exists [x].
Qed.

Lemma setAdd_present s x : In x s -> setAdd s x = s.
Proof. intro H. unfold setAdd. now rewrite (proj2 (existsb_eqb_In x s) H). Qed.

Lemma fold_setAdd l : forall acc,
  NoDup acc ->
  NoDup (fold_left setAdd l acc)
  /\ (forall y, In y (fold_left setAdd l acc) <-> In y acc \/ In y l)
  /\ exists added, fold_left setAdd l acc = acc ++ added.
Proof.
  induction l as [| x r IH]; intros acc Hacc; simpl.
  - split; [exact Hacc |]. split; [intuition |]. exists []. now rewrite app_nil_r.
  - destruct (IH (setAdd acc x) (setAdd_NoDup acc x Hacc)) as [H1 [H2 [added H3]]].
    split; [exact H1 |]. split.
    + intro y. rewrite H2, setAdd_In. intuition.
    + destruct (setAdd_extends acc x) as [one Hone].
      exists (one ++ added). now rewrite H3, Hone, app_assoc.
Qed.

Lemma setOf_fixed l : forall acc, NoDup (acc ++ l) -> fold_left setAdd l acc = acc ++ l.
Proof.
  induction l as [| x r IH]; intros acc H; simpl; [now rewrite app_nil_r |].
  assert (Hx : existsb (String.eqb x) acc = false).
  { destruct (existsb (String.eqb x) acc) eqn:E; [| reflexivity].
    apply existsb_eqb_In in E. apply NoDup_remove_2 in H.
    exfalso. apply H. apply in_or_app. now left. }
  unfold setAdd at 2. rewrite Hx.
  rewrite IH; rewrite <- app_assoc; [reflexivity | exact H].
Qed.

(** The normalised form under which an incoming category is stored, if it
    is stored at all. *)
Lemma addCategory_cases merged c :
  (addCategory merged c = merged
   /\ forall s, c = VStr s -> truthy (trim s) = false)
  \/ exists s, c = VStr s /\ truthy (trim s) = true
               /\ addCategory merged c = setAdd merged (toLowerCase (trim s)).
Proof.
  destruct c as [| | b | n | s | f]; try (left; split; [reflexivity | discriminate]).
  simpl. destruct (truthy (trim s)) eqn:E.
  - right. now exists s.
  - left. split; [reflexivity |]. intros s' H. injection H as <-. exact E.
Qed.

Lemma fold_addCategory cats : forall acc,
  NoDup acc ->
  let result := fold_left addCategory cats acc in
  NoDup result
  /\ (exists added, result = acc ++ added)
  /\ (forall y, In y result ->
        In y acc \/ exists s, In (VStr s) cats /\ truthy (trim s) = true
                              /\ y = toLowerCase (trim s))
  /\ (forall s, In (VStr s) cats -> truthy (trim s) = true ->
        In (toLowerCase (trim s)) result).
Proof.
  induction cats as [| c r IH]; intros acc Hacc; cbn [fold_left].
  - split; [exact Hacc |]. split; [exists []; now rewrite app_nil_r |].
    split; [now left | intros s []].
  - assert (Hnd : NoDup (addCategory acc c)).
    { destruct (addCategory_cases acc c) as [[-> _] | [s [_ [_ ->]]]];
        [exact Hacc | now apply setAdd_NoDup]. }
    destruct (IH _ Hnd) as [H1 [[added H2] [H3 H4]]].
    split; [exact H1 |]. split; [| split].
    + destruct (addCategory_cases acc c) as [[E _] | [s [_ [_ E]]]].
      * exists added. now rewrite H2, E.
      * destruct (setAdd_extends acc (toLowerCase (trim s))) as [one Hone].
        exists (one ++ added). now rewrite H2, E, Hone, app_assoc.
    + intros y Hy. destruct (H3 y Hy) as [Hin | [s [Hs [Ht ->]]]].
      * destruct (addCategory_cases acc c) as [[E _] | [s [Hc [Ht E]]]].
        -- left. now rewrite E in Hin.
        -- rewrite E in Hin. apply setAdd_In in Hin. destruct Hin as [Hin | ->].
           ++ now left.
           ++ right. exists s. split; [left; now symmetry | now split].
      * right. exists s. split; [now right | now split].
    + intros s [Hc | Hs] Ht.
      * subst c. cbn [addCategory] in H2 |- *. rewrite Ht in H2 |- *. rewrite H2.
        apply in_or_app. left. apply setAdd_In. now right.
      * now apply H4.
Qed.

Lemma setOf_facts stored :
  NoDup (setOf stored) /\ (forall y, In y (setOf stored) <-> In y stored).
Proof.
  destruct (fold_setAdd stored [] (NoDup_nil _)) as [H1 [H2 _]].
  split; [exact H1 |]. intro y. unfold setOf. rewrite H2. simpl. intuition.
Qed.

(** X20.  The categories [updateTripPreferences] writes form a set: no category
    twice; the stored ones first, unchanged and in their order; then the
    incoming texts that are not blank, trimmed and in lower case.  Nothing
    else is added, and every such text is present. *)
Theorem mergedCategories_set stored cats :
  let result := mergedCategories stored (Some cats) in
  NoDup result
  /\ (exists added, result = setOf stored ++ added)
  /\ (forall y, In y stored -> In y result)
  /\ (forall y, In y result ->
        In y stored \/ exists s, In (VStr s) cats /\ truthy (trim s) = true
                                 /\ y = toLowerCase (trim s))
  /\ (forall s, In (VStr s) cats -> truthy (trim s) = true ->
        In (toLowerCase (trim s)) result).
Proof.
  intro result. subst result. unfold mergedCategories.
  destruct (setOf_facts stored) as [Hnd Hin].
  destruct (fold_addCategory cats (setOf stored) Hnd) as [H1 [[added H2] [H3 H4]]].
  split; [exact H1 |]. split; [now exists added |]. split; [| split].
  - intros y Hy. rewrite H2. apply in_or_app. left. now apply Hin.
  - intros y Hy. destruct (H3 y Hy) as [H | H]; [left; now apply Hin | now right].
  - exact H4.
Qed.

(** X21.  Merging the same categories again changes nothing, and stored
    categories without repeats are kept as they are when nothing comes
    in. *)
Theorem mergedCategories_idempotent stored incoming :
  mergedCategories (mergedCategories stored incoming) incoming
  = mergedCategories stored incoming
  /\ (NoDup stored -> mergedCategories stored None = stored).
Proof.
  assert (Hfix : forall l, NoDup l -> setOf l = l).
  { intros l Hl. unfold setOf. now rewrite (setOf_fixed l []). }
  split; [| intro H; now apply Hfix].
  destruct (setOf_facts stored) as [Hnd _].
  destruct incoming as [cats |]; unfold mergedCategories.
  - destruct (fold_addCategory cats (setOf stored) Hnd) as [H1 [_ [_ H4]]].
    rewrite (Hfix _ H1).
    apply TripStoreMoreFacts.fold_fixed. intros c Hc.
    destruct (addCategory_cases (fold_left addCategory cats (setOf stored)) c)
      as [[E _] | [s [-> [Ht E]]]]; [exact E |].
    rewrite E. apply setAdd_present. now apply H4.
  - now apply Hfix.
Qed.

Lemma mergedCategories_set_witness :
  mergedCategories ["Beach"] (Some [VStr " beach "; VStr "  "; VNull; VStr "Museum"])
  = ["Beach"; "beach"; "museum"]
  /\ In "museum"
        (mergedCategories ["Beach"] (Some [VStr " beach "; VStr "  "; VNull; VStr "Museum"])).
Proof.
  split; [reflexivity |].
  destruct (mergedCategories_set ["Beach"]
              [VStr " beach "; VStr "  "; VNull; VStr "Museum"]) as [_ [_ [_ [_ H]]]].
  apply (H "Museum"); [simpl; tauto | reflexivity].
Defined.

Lemma mergedCategories_idempotent_witness :
  mergedCategories ["food"; "beach"] None = ["food"; "beach"].
Proof.
  apply (proj2 (mergedCategories_idempotent ["food"; "beach"] None)).
  repeat constructor; simpl; intuition discriminate.
Defined.

End PreferenceFacts.

(* ===================================================================== *)
(** * More facts: the legacy copy *)
(* ===================================================================== *)

Module LegacyMoreFacts.
Import JsString JsDate JsArray Itinerary DayVocabulary Examples.
Import JsDateFacts ItineraryFacts AssemblerFacts DayFacts.

Lemma ceilZ_whole D : Legacy.ceilZ (D * msPerDay) msPerDay = D.
Proof.
  unfold Legacy.ceilZ. pose proof msPerDay_pos.
  replace (- (D * msPerDay))%Z with ((- D) * msPerDay)%Z by lia.
  rewrite Z.div_mul by lia. lia.
Qed.

Lemma ceilZ_small a : (a <= msPerDay)%Z -> (Legacy.ceilZ a msPerDay <= 1)%Z.
Proof.
  intro H. unfold Legacy.ceilZ. pose proof msPerDay_pos.
  assert (- 1 <= (- a) / msPerDay)%Z; [| lia].
  apply Z.div_le_lower_bound; lia.
Qed.

Lemma utcDay_shift t i : utcDay (t + i * msPerDay) = (utcDay t + i)%Z.
Proof. unfold utcDay. pose proof msPerDay_pos. apply Z.div_add. lia. Qed.

Lemma flat_map_singletons {A B : Type} (f : A -> list B) (g : A -> B) (l : list A) :
  (forall x, In x l -> f x = [g x]) -> flat_map f l = map g l.
Proof.
  induction l as [| x l IH]; intro H; simpl; [reflexivity |].
  rewrite (H x (or_introl eq_refl)), IH; [reflexivity |].
  intros y Hy. apply H. now right.
Qed.

Lemma ascending_dates (h : nat -> Z) (last : Z) : forall k a,
  (forall i j, (i <= j)%nat -> (h i <= h j)%Z) ->
  (forall i, (i < a + k)%nat -> (h i <= last)%Z) ->
  StronglySorted Z.le (map h (seq a k) ++ [last]).
Proof.
  induction k as [| k IH]; intros a Hmono Hlast; simpl.
  - constructor; constructor.
  - constructor.
    + apply IH; [exact Hmono | intros i Hi; apply Hlast; lia].
    + apply Forall_app. split.
      * apply Forall_map, Forall_forall. intros i Hi. apply in_seq in Hi.
        apply Hmono. lia.
      * constructor; [apply Hlast; lia | constructor].
Qed.

Lemma chunks_concat {A : Type} per : forall m (l : list A),
  List.concat (map (fun i => firstn per (skipn (i * per) l)) (seq 0 m))
  = firstn (m * per) l.
Proof.
  induction m as [| m IH]; intro l; [reflexivity |].
  cbn [seq map List.concat]. rewrite <- seq_shift, map_map.
  replace (S m * per)%nat with (per + m * per)%nat by lia.
  rewrite firstn_add. f_equal.
  rewrite <- IH. f_equal. apply map_ext. intro i.
  rewrite skipn_skipn. do 2 f_equal. lia.
Qed.

Lemma ceilDiv_covers n m : (1 <= m)%nat -> (n <= m * ceilDiv n m)%nat.
Proof.
  intro Hm. unfold ceilDiv.
  pose proof (Nat.div_mod_eq (n + m - 1) m) as Hdm.
  pose proof (Nat.mod_upper_bound (n + m - 1) m) as Hub.
  lia.
Qed.

Lemma activityItem_titles (l : list Activity) : forall idx,
  map title (filter (isOfType activity) (mapFrom Legacy.activityItem l idx))
  = map activityTitle l.
Proof.
  induction l as [| a l IH]; intro idx; [reflexivity |]. simpl. now rewrite IH.
Qed.

Lemma day1Items_no_activity flightSel hotelSel :
  filter (isOfType activity) (Legacy.day1Items flightSel hotelSel) = [].
Proof.
  unfold Legacy.day1Items. cbn [filter isOfType plain type ItemType_eqb].
  apply (proj1 (proj2 (hotelItems_filters hotelSel "Check-in"))).
Qed.

Lemma activityTitles_numberDays days :
  activityTitles (numberDays days)
  = List.concat (map (fun its => map title (filter (isOfType activity) its))
                     (map items days)).
Proof.
  unfold activityTitles.
  rewrite <- (numberDays_items days), map_map. reflexivity.
Qed.

(** The first day pushed stays first when no later day is dated before
    it. *)
Lemma sort_fold_head d l : forall acc,
  Forall (fun x => (dateObj d <= dateObj x)%Z) l ->
  fold_left (fun acc x => insertDay x acc) l (d :: acc)
  = d :: fold_left (fun acc x => insertDay x acc) l acc.
Proof.
  induction l as [| x l IH]; intros acc H; [reflexivity |].
  inversion H as [| ? ? Hx Hl]; subst. cbn [fold_left insertDay].
  destruct (Z.leb_spec (dateObj d) (dateObj x)); [| lia].
  now apply IH.
Qed.

(** X22.  The legacy copy always opens with the start date as day 1, and that
    day always begins with a flight item: without a flight it is the
    placeholder titled ["Flight "] at ["TBD"]. *)
Theorem legacy_first_day flightSel hotelSel allActivities returnFlight startT endT :
  exists rest,
    Legacy.layOut flightSel hotelSel allActivities returnFlight startT endT
    = {| day := Some 1%nat; dateObj := startT;
         items := Legacy.day1Items flightSel hotelSel |} :: rest
    /\ (exists ttl tm more,
          Legacy.day1Items flightSel hotelSel = plain flight ttl tm :: more)
    /\ (flightSel = None ->
        exists more, Legacy.day1Items None hotelSel = plain flight "Flight " "TBD" :: more).
Proof.
  unfold Legacy.layOut. cbv zeta.
  set (first := {| day := None; dateObj := startT;
                   items := Legacy.day1Items flightSel hotelSel |}).
  match goal with
  | |- context [sortDays ([first] ++ ?others)] => set (rest := others)
  end.
  assert (Hrest : Forall (fun x => (dateObj first <= dateObj x)%Z) rest).
  { subst rest. apply Forall_app. split.
    - destruct (negb (endT =? startT)%Z && (1 <? _)%Z); [| constructor].
      apply Forall_forall. intros d Hd. apply in_flat_map in Hd.
      destruct Hd as [i [_ Hd]]. apply LegacyFacts.middleDay_date in Hd.
      rewrite Hd. simpl. pose proof msPerDay_pos. nia.
    - destruct (Z.ltb_spec startT endT) as [Hlt | Hge];
        rewrite ?andb_false_r; [| constructor].
      destruct (negb (endT =? startT)%Z); [| constructor].
      constructor; [simpl; lia | constructor]. }
  unfold sortDays. cbn [app fold_left insertDay].
  rewrite (sort_fold_head first rest [] Hrest).
  eexists. split; [rewrite numberDays_cons; reflexivity |].
  split.
  - unfold Legacy.day1Items. eauto.
  - intros _. unfold Legacy.day1Items. eauto.
Qed.

(** X23.  When the return is a whole number of days, two or more, after the
    start, no middle day is skipped and the legacy copy shows every
    activity once, in the order of the list, over at most five middle
    days. *)
Theorem legacy_places_every_activity flightSel hotelSel allActivities returnFlight
        startT endT D :
  (2 <= D)%Z ->
  endT = (startT + D * msPerDay)%Z ->
  let days := Legacy.layOut flightSel hotelSel allActivities returnFlight startT endT in
  activityTitles days = map activityTitle allActivities
  /\ List.length days = (Z.to_nat (Z.min (D - 1) 5) + 2)%nat.
Proof.
  intros HD Hend days. subst days. pose proof msPerDay_pos as Hms.
  unfold Legacy.layOut. cbv zeta.
  assert (Hneq : (endT =? startT)%Z = false) by (apply Z.eqb_neq; nia).
  assert (Hlt : (startT <? endT)%Z = true) by (apply Z.ltb_lt; nia).
  rewrite Hneq, Hlt. cbn [negb andb].
  replace (endT - startT)%Z with (D * msPerDay)%Z by lia.
  rewrite ceilZ_whole. rewrite (Z.max_r 1 D) by lia.
  assert (Hgt : (1 <? D)%Z = true) by (apply Z.ltb_lt; lia).
  rewrite Hgt.
  set (m := Z.to_nat (Z.min (D - 1) 5)).
  assert (Hm : (1 <= m)%nat) by (unfold m; lia).
  assert (HmD : (Z.of_nat m <= D - 1)%Z) by (unfold m; lia).
  set (per := ceilDiv (List.length allActivities) m).
  set (g := fun i : nat =>
              {| day := None; dateObj := (startT + Z.of_nat i * msPerDay)%Z;
                 items := mapi Legacy.activityItem
                            (slice allActivities (Z.of_nat ((i - 1) * per))
                                   (Z.of_nat ((i - 1) * per + per)))
                          ++ hotelItems hotelSel "Overnight" |}).
  rewrite (flat_map_singletons _ g).
  2:{ intros i Hi. apply in_seq in Hi. unfold Legacy.middleDay.
      rewrite utcDay_shift. subst endT. rewrite utcDay_shift.
      destruct (Z.eqb_spec (utcDay startT + Z.of_nat i) (utcDay startT + D)); [lia |].
      reflexivity. }
  rewrite sortDays_sorted.
  2:{ rewrite !map_app, map_map. cbn [map dateObj app].
      replace startT with (startT + Z.of_nat 0 * msPerDay)%Z at 1 by lia.
      change ((startT + Z.of_nat 0 * msPerDay)%Z
              :: map (fun x => dateObj (g x)) (seq 1 m) ++ [endT])
        with (map (fun i => (startT + Z.of_nat i * msPerDay)%Z) (seq 0 (S m)) ++ [endT]).
      apply ascending_dates; [intros i j Hij; nia | intros i Hi; nia]. }
  split.
  - rewrite activityTitles_numberDays, !map_app, !map_map. cbn [map items app].
    cbn [List.concat]. rewrite day1Items_no_activity. cbn [map app].
    rewrite concat_app. cbn [List.concat filter isOfType type Legacy.returnItem plain
                              ItemType_eqb map app].
    rewrite app_nil_r.
    rewrite <- (firstn_all2 (n := (m * per)%nat) allActivities)
      by (apply ceilDiv_covers; exact Hm).
    rewrite <- (chunks_concat per m allActivities).
    rewrite concat_map, map_map, <- seq_shift, map_map.
    f_equal. apply map_ext. intro i. cbn [items g].
    rewrite filter_app, (proj1 (proj2 (hotelItems_filters hotelSel "Overnight"))).
    rewrite app_nil_r. unfold mapi. rewrite activityItem_titles.
    replace (S i - 1)%nat with i by lia.
    rewrite slice_nat. do 2 f_equal. lia.
  - rewrite numberDays_length. cbn [app List.length].
    rewrite length_app, length_map, length_seq. simpl. lia.
Qed.

(** X24.  When the return is at most one day after the start, or before it,
    the legacy copy has no middle day and shows no activity at all. *)
Theorem legacy_short_trip_drops_activities flightSel hotelSel allActivities returnFlight
        startT endT :
  (endT - startT <= msPerDay)%Z ->
  activityTitles (Legacy.layOut flightSel hotelSel allActivities returnFlight startT endT)
  = [].
Proof.
  intro Hshort. unfold Legacy.layOut. cbv zeta.
  assert (Hdiff : (1 <? (if negb (endT =? startT)%Z
                         then Z.max 1 (Legacy.ceilZ (endT - startT) msPerDay)
                         else 1))%Z = false).
  { apply Z.ltb_ge. destruct (negb (endT =? startT)%Z); [| lia].
    pose proof (ceilZ_small _ Hshort). lia. }
  rewrite Hdiff, andb_false_r. cbn [app].
  rewrite activityTitles_numberDays.
  assert (Hall : Forall (fun its => filter (isOfType activity) its = [])
                        (map items
                             (sortDays ({| day := None; dateObj := startT;
                                           items := Legacy.day1Items flightSel hotelSel |}
                                        :: (if negb (endT =? startT)%Z && (startT <? endT)%Z
                                            then [{| day := None; dateObj := endT;
                                                     items := [Legacy.returnItem returnFlight] |}]
                                            else []))))).
  { apply Forall_map, Forall_forall. intros d Hd.
    apply (proj1 (sortDays_In _ _)) in Hd. destruct Hd as [<- | Hd].
    - apply day1Items_no_activity.
    - destruct (negb (endT =? startT)%Z && (startT <? endT)%Z); [| destruct Hd].
      destruct Hd as [<- | []]. reflexivity. }
  induction Hall as [| its l Hits _ IH]; [reflexivity |].
  cbn [map List.concat]. now rewrite Hits, IH.
Qed.

Lemma legacy_places_every_activity_witness :
  activityTitles (Legacy.layOut None None twoOffers None nov20 (nov20 + 3 * msPerDay)%Z)
  = ["City Museum"; "Food tour"].
Proof.
  exact (proj1 (legacy_places_every_activity None None twoOffers None nov20
                  (nov20 + 3 * msPerDay)%Z 3 ltac:(lia) eq_refl)).
Defined.

Lemma legacy_short_trip_drops_activities_witness :
  activityTitles (Legacy.layOut None None twoOffers None nov20 (nov20 + msPerDay)%Z) = [].
Proof.
  apply (legacy_short_trip_drops_activities None None twoOffers None nov20
           (nov20 + msPerDay)%Z).
  vm_compute. discriminate.
Defined.

Lemma legacy_first_day_witness :
  exists more, Legacy.day1Items None None = plain flight "Flight " "TBD" :: more.
Proof.
  destruct (legacy_first_day None None [] None nov20 nov20) as [rest [_ [_ H]]].
  exact (H eq_refl).
Defined.

End LegacyMoreFacts.
